(** * Survey subsampling: model fitting, feature ranking and degrading sweep

    A shallow embedding of [survey_subsampling/subsample.py]:
    [fit_models], [calculate_feature_importance] and [degrading_fit],
    together with the numpy and pandas operations they call.  Importance
    scores and mean ranks are exact rationals ([Qc]); Python exceptions are
    the [Raise] branch of [result]. *)

From Stdlib Require Import String List ZArith QArith Qcanon Permutation Sorted Lia Bool Arith.
From Stdlib Require PrimFloat.
Import ListNotations.

Close Scope Qc_scope.
Close Scope Q_scope.
Open Scope nat_scope.

Set Implicit Arguments.

(** ** Python values and exceptions *)

Module Py.

Inductive exn : Type :=
| IndexError
| KeyError
| ValueError.

Inductive result (A : Type) : Type :=
| Ok (a : A)
| Raise (e : exn).

Arguments Ok {A} a.
Arguments Raise {A} e.

Definition bind {A B} (r : result A) (k : A -> result B) : result B :=
  match r with
  | Ok a => k a
  | Raise e => Raise e
  end.

Definition is_ok {A} (r : result A) : bool :=
  match r with Ok _ => true | Raise _ => false end.

(** [for x in xs: acc.append(f(x))], stopping at the first exception. *)
Fixpoint mapM {A B} (f : A -> result B) (xs : list A) : result (list B) :=
  match xs with
  | [] => Ok []
  | x :: xs' =>
      bind (f x) (fun b => bind (mapM f xs') (fun bs => Ok (b :: bs)))
  end.

(** [x[0:k]] on a sequence, for a Python integer [k]: a negative stop
    counts from the end, and a stop past the end is clipped. *)
Definition slice_to {A} (k : Z) (l : list A) : list A :=
  if (k <? 0)%Z
  then firstn (length l - Z.to_nat (- k)) l
  else firstn (Z.to_nat k) l.

(** [len(set(l))] for strings. *)
Definition set_of (l : list string) : list string := nodup string_dec l.

End Py.

Import Py.

Notation "'let?' x ':=' r 'in' k" := (Py.bind r (fun x => k))
  (at level 10, x pattern, r at level 100, k at level 200).

Abbreviation feature := string (only parsing).
Abbreviation diagnosis := string (only parsing).

Definition Qc_of_nat (n : nat) : Qc := Q2Qc (inject_Z (Z.of_nat n)).
Definition Qc_of_Z (z : Z) : Qc := Q2Qc (inject_Z z).

Definition Qc_leb (a b : Qc) : bool := Qle_bool a b.
Definition Qc_ltb (a b : Qc) : bool := negb (Qle_bool b a).

(** ** numpy *)

Module Np.

(** A float64 as far as the ranking report needs it: a finite value,
    an infinity, or not-a-number. *)
Inductive float : Type :=
| Fin (q : Qc)
| PInf
| NInf
| NaN.

(** [a / b] for a float64 [a] and a Python int [b]: no exception on a
    zero divisor, only a warning. *)
Definition true_divide (a : Qc) (b : Z) : float :=
  if (b =? 0)%Z then
    if Qc_eq_bool a 0 then NaN
    else if Qc_ltb 0 a then PInf else NInf
  else Fin (a / Qc_of_Z b)%Qc.

Definition scale (x : float) (k : Qc) : float :=
  match x with
  | Fin q => Fin (q * k)%Qc
  | other => other
  end.

(** [np.where(a[:, None] == b)]: the row and column indices of the
    true entries of the comparison matrix, in row-major order. *)
Fixpoint positions_from (k : nat) (x : feature) (b : list feature) : list nat :=
  match b with
  | [] => []
  | y :: b' =>
      (if String.eqb x y then [k] else []) ++ positions_from (S k) x b'
  end.

Fixpoint hits_from (k : nat) (a b : list feature) : list (nat * nat) :=
  match a with
  | [] => []
  | x :: a' => map (pair k) (positions_from 0 x b) ++ hits_from (S k) a' b
  end.

Definition where_eq (a b : list feature) : list nat * list nat :=
  let hits := hits_from 0 a b in (map fst hits, map snd hits).

(** [np.mean((rows, cols), axis=0)]. *)
Definition mean_pair (rc : list nat * list nat) : list Qc :=
  map (fun p => ((Qc_of_nat (fst p) + Qc_of_nat (snd p)) / Qc_of_nat 2)%Qc)
      (combine (fst rc) (snd rc)).

(** [a[idx]] with an integer index array. *)
Definition take {A} (a : list A) (idx : list nat) : result (list A) :=
  mapM (fun i => match nth_error a i with
                 | Some x => Ok x
                 | None => Raise IndexError
                 end) idx.

Definition key (keys : list Qc) (i : nat) : Qc := nth i keys 0%Qc.

(** What [np.argsort(keys)] promises with its default [kind]: the
    indices of [keys], each once, in an order that makes the keys
    ascend.  The default sort is not stable, so nothing is promised
    about the relative order of indices whose keys are equal. *)
Definition is_argsort (keys : list Qc) (idx : list nat) : Prop :=
  Permutation idx (seq 0 (length keys)) /\
  StronglySorted (fun i j => (key keys i <= key keys j)%Qc) idx.

Class Argsort : Type := {
  argsort : list Qc -> list nat;
  argsort_spec : forall keys, is_argsort keys (argsort keys)
}.

(** Insertion sort, the code path numpy takes on short arrays.
    [before x y] decides whether [x] goes in front of [y]. *)
Fixpoint insert_by {A} (before : A -> A -> bool) (x : A) (l : list A) : list A :=
  match l with
  | [] => [x]
  | y :: l' => if before x y then x :: l else y :: insert_by before x l'
  end.

Definition sort_by {A} (before : A -> A -> bool) (l : list A) : list A :=
  fold_right (insert_by before) [] l.

(** Equal keys keep their index order. *)
Definition argsort_stable (keys : list Qc) : list nat :=
  sort_by (fun i j => Qc_leb (key keys i) (key keys j)) (seq 0 (length keys)).

(** Equal keys come out in reverse index order: not a sort numpy
    runs, but one its contract admits. *)
Definition argsort_reversing (keys : list Qc) : list nat :=
  sort_by (fun i j => Qc_ltb (key keys i) (key keys j)) (seq 0 (length keys)).

(** The sort [np.argsort] runs with its default [kind] where no
    vectorised sort is dispatched: [aquicksort_] of numpy's
    [npysort/quicksort.cpp], on the index array [tosort].  A partition
    of more than 17 entries is split about the median of its first,
    middle and last entry; shorter ones are sorted by insertion.  The
    pointers [pl], [pr], [pi], [pj] are offsets into [tosort]. *)
Definition SMALL_QUICKSORT : nat := 16.

Definition aget (tosort : list nat) (p : nat) : nat := nth p tosort 0.

Fixpoint aset (tosort : list nat) (p v : nat) : list nat :=
  match tosort, p with
  | [], _ => []
  | _ :: t', 0 => v :: t'
  | x :: t', S p' => x :: aset t' p' v
  end.

(** [INTP_SWAP] of the entries at [p] and [q]. *)
Definition aswap (tosort : list nat) (p q : nat) : list nat :=
  aset (aset tosort p (aget tosort q)) q (aget tosort p).

(** [less(v[*p], v[*q])] *)
Definition vless (v : list Qc) (tosort : list nat) (p q : nat) : bool :=
  Qc_ltb (key v (aget tosort p)) (key v (aget tosort q)).

(** [do { ++pi; } while (less(v[*pi], vp));] *)
Fixpoint scan_up (fuel : nat) (v : list Qc) (tosort : list nat) (vp : Qc)
         (pi : nat) : option nat :=
  match fuel with
  | 0 => None
  | S fuel' =>
      let pi := S pi in
      if Qc_ltb (key v (aget tosort pi)) vp
      then scan_up fuel' v tosort vp pi else Some pi
  end.

(** [do { --pj; } while (less(vp, v[*pj]));] *)
Fixpoint scan_down (fuel : nat) (v : list Qc) (tosort : list nat) (vp : Qc)
         (pj : nat) : option nat :=
  match fuel with
  | 0 => None
  | S fuel' =>
      let pj := pred pj in
      if Qc_ltb vp (key v (aget tosort pj))
      then scan_down fuel' v tosort vp pj else Some pj
  end.

(** The [for (;;)] loop of the partition. *)
Fixpoint partition_loop (fuel : nat) (v : list Qc) (tosort : list nat) (vp : Qc)
         (pi pj : nat) : option (list nat * nat) :=
  match fuel with
  | 0 => None
  | S fuel' =>
      match scan_up (S (length tosort)) v tosort vp pi with
      | None => None
      | Some pi =>
          match scan_down (S (length tosort)) v tosort vp pj with
          | None => None
          | Some pj =>
              if pj <=? pi then Some (tosort, pi)
              else partition_loop fuel' v (aswap tosort pi pj) vp pi pj
          end
      end
  end.

(** One turn of [while ((pr - pl) > SMALL_QUICKSORT)]: the index array
    after the partition, and where the pivot has come to rest. *)
Definition partition (v : list Qc) (tosort : list nat) (pl pr : nat)
  : option (list nat * nat) :=
  let pm := pl + Nat.div2 (pr - pl) in
  let tosort := if vless v tosort pm pl then aswap tosort pm pl else tosort in
  let tosort := if vless v tosort pr pm then aswap tosort pr pm else tosort in
  let tosort := if vless v tosort pm pl then aswap tosort pm pl else tosort in
  let vp := key v (aget tosort pm) in
  let pj := pr - 1 in
  let tosort := aswap tosort pm pj in
  match partition_loop (S (length tosort)) v tosort vp pl pj with
  | None => None
  | Some (tosort, pi) => Some (aswap tosort pi (pr - 1), pi)
  end.

(** [while (pj > pl && less(vp, v[*pk])) { *pj-- = *pk--; }] *)
Fixpoint shift_up (fuel : nat) (v : list Qc) (tosort : list nat) (pl : nat)
         (vp : Qc) (pj : nat) : list nat * nat :=
  match fuel with
  | 0 => (tosort, pj)
  | S fuel' =>
      if (pl <? pj) && Qc_ltb vp (key v (aget tosort (pj - 1)))
      then shift_up fuel' v (aset tosort pj (aget tosort (pj - 1))) pl vp (pj - 1)
      else (tosort, pj)
  end.

(** The insertion sort of [tosort[pl..pr]]. *)
Definition insertion_sort (v : list Qc) (tosort : list nat) (pl pr : nat) : list nat :=
  fold_left (fun t pi =>
               let vi := aget t pi in
               let (t', pj) := shift_up (S pi) v t pl (key v vi) pi in
               aset t' pj vi)
            (seq (pl + 1) (pr - pl)) tosort.

(** The outer [while (1)] with its stack of pending partitions.
    [inner] says that the loop is inside [while ((pr - pl) > ...)],
    where the depth is not looked at.  [None]: the fuel is used up, or
    the depth limit is reached, where numpy goes on with a heap sort
    that is not modelled. *)
Fixpoint quicksort_loop (fuel : nat) (v : list Qc) (tosort : list nat)
         (pl pr : nat) (stack : list (nat * nat * Z)) (cdepth : Z)
         (inner : bool) : option (list nat) :=
  match fuel with
  | 0 => None
  | S fuel' =>
      if negb inner && (cdepth <? 0)%Z then None
      else if SMALL_QUICKSORT <? pr - pl then
        match partition v tosort pl pr with
        | None => None
        | Some (tosort, pi) =>
            let cdepth := (cdepth - 1)%Z in
            if pi - pl <? pr - pi
            then quicksort_loop fuel' v tosort pl (pi - 1)
                                ((pi + 1, pr, cdepth) :: stack) cdepth true
            else quicksort_loop fuel' v tosort (pi + 1) pr
                                ((pl, pi - 1, cdepth) :: stack) cdepth true
        end
      else
        let tosort := insertion_sort v tosort pl pr in
        match stack with
        | [] => Some tosort
        | (pl, pr, cdepth) :: stack =>
            quicksort_loop fuel' v tosort pl pr stack cdepth false
        end
  end.

Definition aquicksort (v : list Qc) : option (list nat) :=
  let num := length v in
  quicksort_loop (S (2 * num)) v (seq 0 num) 0 (num - 1) []
                 (2 * Z.log2 (Z.of_nat num))%Z false.

(** A decision procedure for [is_argsort]. *)
Fixpoint nodupb (l : list nat) : bool :=
  match l with
  | [] => true
  | x :: l' => negb (existsb (Nat.eqb x) l') && nodupb l'
  end.

Fixpoint ascendingb (keys : list Qc) (l : list nat) : bool :=
  match l with
  | [] => true
  | i :: l' =>
      forallb (fun j => Qc_leb (key keys i) (key keys j)) l' && ascendingb keys l'
  end.

Definition is_argsortb (keys : list Qc) (idx : list nat) : bool :=
  (length idx =? length keys)
  && forallb (fun i => i <? length keys) idx
  && nodupb idx && ascendingb keys idx.

(** [np.argsort] as the portable quicksort computes it; where the
    quicksort is not modelled (beyond its depth limit) the insertion
    sort stands in. *)
Definition argsort_numpy (keys : list Qc) : list nat :=
  match aquicksort keys with
  | Some idx => if is_argsortb keys idx then idx else argsort_stable keys
  | None => argsort_stable keys
  end.

(** [np.unique(y, return_counts=True)]: the distinct values in
    ascending order, each with its number of occurrences. *)
Fixpoint bump (v : Z) (acc : list (Z * nat)) : list (Z * nat) :=
  match acc with
  | [] => [(v, 1)]
  | (u, c) :: rest =>
      if (v <? u)%Z then (v, 1) :: acc
      else if (v =? u)%Z then (u, S c) :: rest
      else (u, c) :: bump v rest
  end.

Definition unique_counts (y : list Z) : list (Z * nat) :=
  fold_left (fun acc v => bump v acc) y [].

(** [uc[i]] on the counts array. *)
Definition getitem {A} (a : list A) (i : nat) : result A :=
  match nth_error a i with
  | Some x => Ok x
  | None => Raise IndexError
  end.

End Np.

(** Column means of a stacked importance matrix, in exact arithmetic:
    the sums and quotients that numpy computes in float64 are taken over
    the rationals, so that an equation between two of them says that
    the program's values agree up to rounding.  Module [F64] below has
    the same operations on float64 values. *)

Module Vec.

Definition vadd (u v : list Qc) : list Qc :=
  map (fun p => (fst p + snd p)%Qc) (combine u v).

Definition total (v : list Qc) : Qc := fold_right Qcplus 0%Qc v.

Definition width (m : list (list Qc)) : nat :=
  match m with
  | [] => 0
  | r :: _ => length r
  end.

(** Sum over axis 0 of a matrix with [w] columns. *)
Definition col_sums (w : nat) (m : list (list Qc)) : list Qc :=
  fold_right vadd (repeat 0%Qc w) m.

(** [np.mean(m, axis=0)]. *)
Definition mean_axis0 (m : list (list Qc)) : list Qc :=
  map (fun s => (s / Qc_of_nat (length m))%Qc) (col_sums (width m) m).

(** [np.atleast_2d] on one entry of [fi], a list of importance
    vectors: an empty list becomes one row of no columns, and rows of
    unequal length are refused. *)
Definition atleast_2d (b : list (list Qc)) : result (list (list Qc)) :=
  match b with
  | [] => Ok [[]]
  | v :: vs =>
      if forallb (fun u => length u =? length v) vs
      then Ok b else Raise ValueError
  end.

(** [np.vstack(fi)]: nothing to stack, or blocks of different width,
    raise [ValueError]. *)
Definition vstack (blocks : list (list (list Qc))) : result (list (list Qc)) :=
  match blocks with
  | [] => Raise ValueError
  | _ =>
      let? bs := mapM atleast_2d blocks in
      let m := concat bs in
      if forallb (fun r => length r =? width m) m
      then Ok m else Raise ValueError
  end.

End Vec.

(** The same column means on float64 values, with the roundings of the
    program: [np.mean(m, axis=0)] adds the rows of [m] to the first
    one, one after the other, and divides every sum by the number of
    rows. *)

Module F64.

Import PrimFloat.

Definition vadd (u v : list float) : list float :=
  map (fun p => (fst p + snd p)%float) (combine u v).

(** [np.add.reduce(m, axis=0)] *)
Definition col_sums (m : list (list float)) : list float :=
  match m with
  | [] => []
  | r :: rest => fold_left vadd rest r
  end.

(** [len(m)], as the float64 the sums are divided by. *)
Definition count (m : list (list float)) : float :=
  fold_left (fun c _ => (c + 1)%float) m 0%float.

(** [np.mean(m, axis=0)] *)
Definition mean_axis0 (m : list (list float)) : list float :=
  map (fun s => (s / count m)%float) (col_sums m).

(** The sum of the entries of a vector, from left to right. *)
Definition total (v : list float) : float :=
  match v with
  | [] => 0%float
  | x :: rest => fold_left add rest x
  end.

Definition same (u v : list float) : bool :=
  (length u =? length v)%nat
  && forallb (fun p => eqb (fst p) (snd p)) (combine u v).

(** Two outer folds of two sub-model vectors over two features. *)
Definition fi_rounding : list (list (list float)) :=
  [[[1; 0]; [0; 1]];
   [[0x1p-53; 0x1.fffffffffffffp-1];
    [0x1p-53; 0x1.fffffffffffffp-1]]]%float.

(** The flat mean of [fi_rounding] and its two-stage mean, as numpy
    computes them. *)
Definition flat_mean_rounding : list float :=
  [0x1p-2; 0x1.8p-1]%float.

Definition two_stage_mean_rounding : list float :=
  [0x1.0000000000001p-2; 0x1.8p-1]%float.

(** The float64 values of 0.3, 0.7 and of 0.4, 0.6. *)
Definition importances_a : list float :=
  [0x1.3333333333333p-2; 0x1.6666666666666p-1]%float.

Definition importances_b : list float :=
  [0x1.999999999999ap-2; 0x1.3333333333333p-1]%float.

End F64.

(** ** pandas *)

Module Pd.

Inductive cell : Type :=
| CStr (s : string)
| CNum (x : Np.float).

(** A Python dict with string keys, in insertion order. *)
Definition dict := list (string * cell).

Fixpoint dict_get (k : string) (d : dict) : option cell :=
  match d with
  | [] => None
  | (k', v) :: d' => if String.eqb k k' then Some v else dict_get k d'
  end.

(** [d[k] = v]: an existing key keeps its place. *)
Fixpoint dict_set (k : string) (v : cell) (d : dict) : dict :=
  match d with
  | [] => [(k, v)]
  | (k', v') :: d' =>
      if String.eqb k k' then (k, v) :: d' else (k', v') :: dict_set k v d'
  end.

Definition keys (d : dict) : list string := map fst d.

(** A frame before [set_index]: column labels and rows aligned with
    them; [None] is a missing entry. *)
Record frame : Type := {
  columns : list string;
  data : list (list (option cell))
}.

(** A frame after [set_index]: one index entry per row. *)
Record table : Type := {
  t_index : list (option cell);
  t_columns : list string;
  t_data : list (list (option cell))
}.

Definition mem (k : string) (l : list string) : bool :=
  existsb (String.eqb k) l.

(** Labels in order of first appearance. *)
Definition union_labels (ls : list (list string)) : list string :=
  fold_left (fun acc l =>
               fold_left (fun a k => if mem k a then a else a ++ [k]) l acc)
            ls [].

(** [pd.DataFrame.from_dict(rows)] for a list of dicts. *)
Definition from_dict (rows : list dict) : frame :=
  let cols := union_labels (map keys rows) in
  {| columns := cols;
     data := map (fun d => map (fun c => dict_get c d) cols) rows |}.

Fixpoint index_of (k : string) (l : list string) : option nat :=
  match l with
  | [] => None
  | k' :: l' =>
      if String.eqb k k' then Some 0
      else option_map S (index_of k l')
  end.

Fixpoint drop_nth {A} (i : nat) (l : list A) : list A :=
  match l, i with
  | [], _ => []
  | _ :: l', 0 => l'
  | x :: l', S i' => x :: drop_nth i' l'
  end.

(** [fr.set_index(k)]. *)
Definition set_index (k : string) (fr : frame) : result table :=
  match index_of k (columns fr) with
  | None => Raise KeyError
  | Some i =>
      Ok {| t_index := map (fun r => nth i r None) (data fr);
            t_columns := drop_nth i (columns fr);
            t_data := map (drop_nth i) (data fr) |}
  end.

(** A row laid out under [cols], read under the labels [cols']. *)
Definition realign (cols cols' : list string) (r : list (option cell))
  : list (option cell) :=
  map (fun c => match index_of c cols with
                | Some i => nth i r None
                | None => None
                end) cols'.

(** [pd.concat(frames)]: rows in the order given, under the union of
    the labels; nothing to concatenate raises [ValueError]. *)
Definition concat_frames (fs : list frame) : result frame :=
  match fs with
  | [] => Raise ValueError
  | _ =>
      let cols := union_labels (map columns fs) in
      Ok {| columns := cols;
            data := flat_map (fun f => map (realign (columns f) cols) (data f)) fs |}
  end.

Definition concat_tables (ts : list table) : result table :=
  match ts with
  | [] => Raise ValueError
  | _ =>
      let cols := union_labels (map t_columns ts) in
      Ok {| t_index := flat_map t_index ts;
            t_columns := cols;
            t_data := flat_map (fun t => map (realign (t_columns t) cols) (t_data t)) ts |}
  end.

(** The input dataset: labelled numeric columns of one common length. *)
Definition dataset := list (string * list Qc).

Fixpoint column (df : dataset) (k : string) : result (list Qc) :=
  match df with
  | [] => Raise KeyError
  | (k', c) :: df' => if String.eqb k k' then Ok c else column df' k
  end.

Definition nrows (df : dataset) : nat :=
  match df with
  | [] => 0
  | (_, c) :: _ => length c
  end.

(** [df[ids].values]: one row per record, one entry per label. *)
Definition values (df : dataset) (ids : list string) : result (list (list Qc)) :=
  let? cols := mapM (column df) ids in
  Ok (map (fun r => map (fun c => nth r c 0%Qc) cols) (seq 0 (nrows df))).

(** [.astype(int)]: truncation towards zero, for values within the
    int64 range (the labels of a diagnosis column are 0 and 1). *)
Definition to_int (q : Qc) : Z := Z.quot (Qnum q) (Zpos (Qden q)).

(** [df[name].values.astype(int)]. *)
Definition int_column (df : dataset) (k : string) : result (list Z) :=
  let? c := column df k in Ok (map to_int c).

End Pd.

(** ** The model-fitting engine: [fit_models] *)

Module Fit.

Import Np Pd.

Definition matrix := list (list Qc).

(** What [fit_models] uses of scikit-learn, and of numpy's process-wide
    random generator.  The random forest is built without a
    [random_state], so fitting draws from the global generator and
    leaves it advanced; the splitter carries its own [random_state=42]
    and is a function of its arguments.  The splitter, the fit and the
    four metric functions validate their arguments and may raise. *)
Class Sklearn : Type := {
  rng : Type;
  model : Type;
  (** [np.random.seed(s)] *)
  seed : Z -> rng;
  (** [StratifiedKFold(shuffle=True, random_state=42).split(X, y)] *)
  split : matrix -> list Z -> result (list (list nat * list nat));
  (** [clf_calib.fit(X, y)] *)
  fit : rng -> matrix -> list Z -> result model * rng;
  predict : model -> matrix -> list Z;
  predict_proba : model -> matrix -> list Np.float;
  (** [[c.estimator.feature_importances_ for c in calibrated_classifiers_]] *)
  feature_importances : model -> list (list Qc);
  accuracy_score : list Z -> list Z -> result Np.float;
  f1_score : list Z -> list Z -> result Np.float;
  (** [classification_report(y, y_pred, output_dict=True)] *)
  classification_report :
    list Z -> list Z -> result (list (string * list (string * Np.float)));
  class_likelihood_ratios : list Z -> list Z -> result (Np.float * Np.float)
}.

(** The per-diagnosis accumulator, with the attributes [fit_models]
    reads and appends to. *)
Record Learner : Type := {
  dx : diagnosis;
  hc_n : nat;
  dx_n : nat;
  x_ids : list feature;
  acc_train : list Np.float;
  acc_valid : list Np.float;
  fi : list (list (list Qc));
  proba : list Np.float;
  label : list Z;
  f1 : list Np.float;
  sen : list Np.float;
  spe : list Np.float;
  LRp : list Np.float;
  LRn : list Np.float
}.

(** [Learner(dx=.., hc_n=.., dx_n=.., x_ids=..)] *)
Definition new_learner (d : diagnosis) (hc pt : nat) (xs : list feature) : Learner :=
  {| dx := d; hc_n := hc; dx_n := pt; x_ids := xs;
     acc_train := []; acc_valid := []; fi := []; proba := []; label := [];
     f1 := []; sen := []; spe := []; LRp := []; LRn := [] |}.

(** Modelled from the spec: [Learner.summary] of
    [survey_subsampling.core.learner] is not among the sources.  The
    specification describes it as a one-row summary of the recorded
    metrics keyed by diagnosis, so it is taken as a frame with a
    single row whose ["Dx"] entry is the learner's diagnosis, under
    labels that are the same for every learner. *)
Class LearnerSummary : Type := {
  summary : Learner -> frame;
  summary_one_row : forall l,
    exists cols vals,
      summary l = {| columns := "Dx"%string :: cols;
                     data := [Some (CStr (dx l)) :: vals] |};
  summary_labels : forall l l', columns (summary l) = columns (summary l')
}.

Section Engine.

Context {SK : Sklearn} {LS : LearnerSummary}.

(** The part of the process a call can touch: the global random
    generator and what has been written to standard output. *)
Record world : Type := {
  w_rng : rng;
  w_stdout : list string
}.

Definition M (A : Type) : Type := world -> result A * world.

Definition ret {A} (a : A) : M A := fun w => (Ok a, w).

Definition mbind {A B} (m : M A) (k : A -> M B) : M B :=
  fun w => match m w with
           | (Ok a, w') => k a w'
           | (Raise e, w') => (Raise e, w')
           end.

Definition lift {A} (r : result A) : M A := fun w => (r, w).

Definition np_random_seed (s : Z) : M unit :=
  fun w => (Ok tt, {| w_rng := seed s; w_stdout := w_stdout w |}).

Definition clf_calib_fit (X : matrix) (y : list Z) : M model :=
  fun w => let (r, g) := fit (w_rng w) X y in
           (r, {| w_rng := g; w_stdout := w_stdout w |}).

Fixpoint foldM {A B} (f : B -> A -> M B) (b : B) (l : list A) : M B :=
  match l with
  | [] => ret b
  | a :: l' => mbind (f b a) (fun b' => foldM f b' l')
  end.

Fixpoint forM {A B} (f : A -> M B) (l : list A) : M (list B) :=
  match l with
  | [] => ret []
  | a :: l' =>
      mbind (f a) (fun b => mbind (forM f l') (fun bs => ret (b :: bs)))
  end.

(** [report_dict[lbl]["recall"]] *)
Definition recall_of (lbl : string)
           (report : list (string * list (string * Np.float))) : result Np.float :=
  match find (fun e => String.eqb lbl (fst e)) report with
  | None => Raise KeyError
  | Some e =>
      match find (fun m => String.eqb "recall" (fst m)) (snd e) with
      | None => Raise KeyError
      | Some m => Ok (snd m)
      end
  end.

(** The body of the cross-validation loop, for one split. *)
Definition fit_fold (X : matrix) (y : list Z) (l : Learner)
           (fold : list nat * list nat) : M Learner :=
  let (idx_train, idx_test) := fold in
  mbind (lift (take X idx_train)) (fun X_tr =>
  mbind (lift (take y idx_train)) (fun y_tr =>
  mbind (lift (take X idx_test)) (fun X_te =>
  mbind (lift (take y idx_test)) (fun y_te =>
  mbind (clf_calib_fit X_tr y_tr) (fun clf =>
  let y_pred := predict clf X_te in
  let y_pred_tr := predict clf X_tr in
  mbind (lift (accuracy_score y_tr y_pred_tr)) (fun a_train =>
  mbind (lift (accuracy_score y_te y_pred)) (fun a_valid =>
  let fis := feature_importances clf in
  mbind (lift (f1_score y_te y_pred)) (fun f1_te =>
  mbind (lift (classification_report y_te y_pred)) (fun report_dict =>
  mbind (lift (recall_of "1" report_dict)) (fun sen1 =>
  mbind (lift (recall_of "0" report_dict)) (fun spe0 =>
  mbind (lift (class_likelihood_ratios y_te y_pred)) (fun lr =>
  ret {| dx := dx l; hc_n := hc_n l; dx_n := dx_n l; x_ids := x_ids l;
         acc_train := acc_train l ++ [a_train];
         acc_valid := acc_valid l ++ [a_valid];
         fi := fi l ++ [fis];
         proba := proba l ++ predict_proba clf X_te;
         label := label l ++ y_te;
         f1 := f1 l ++ [f1_te];
         sen := sen l ++ [sen1];
         spe := spe l ++ [spe0];
         LRp := LRp l ++ [fst lr];
         LRn := LRn l ++ [snd lr] |})))))))))))).

(** [means = np.mean(np.vstack(current_learner.fi), axis=0)] *)
Definition importance_means (l : Learner) : result (list Qc) :=
  let? m := Vec.vstack (fi l) in Ok (Vec.mean_axis0 m).

(** [tmp_learner = {"Dx": dx}], then one entry per pair of
    [zip(x_ids, means)]. *)
Definition importance_row (d : diagnosis) (xs : list feature) (means : list Qc) : dict :=
  fold_left (fun acc p => dict_set (fst p) (CNum (Fin (snd p))) acc)
            (combine xs means) [("Dx"%string, CStr d)].

(** One turn of the loop over [y_ids]. *)
Definition fit_one (df : dataset) (X : matrix) (xs : list feature)
           (y_name : diagnosis) : M (frame * dict) :=
  mbind (lift (int_column df y_name)) (fun y =>
  let uc := map snd (unique_counts y) in
  mbind (lift (getitem uc 0)) (fun hc =>
  mbind (lift (getitem uc 1)) (fun pt =>
  let current_learner := new_learner y_name hc pt xs in
  mbind (lift (split X y)) (fun folds =>
  mbind (foldM (fit_fold X y) current_learner folds) (fun current_learner =>
  let s := summary current_learner in
  mbind (lift (importance_means current_learner)) (fun means =>
  ret (s, importance_row (dx current_learner) xs means))))))).

Definition fit_models (df : dataset) (xs : list feature) (ys : list diagnosis)
           (verbose : bool) : M (table * table) :=
  mbind (np_random_seed 42) (fun _ =>
  mbind (lift (values df xs)) (fun X =>
  mbind (forM (fit_one df X xs) ys) (fun per =>
  mbind (lift (let? s := concat_frames (map fst per) in set_index "Dx" s))
        (fun summaries =>
  mbind (lift (set_index "Dx" (from_dict (map snd per)))) (fun learners =>
  ret (learners, summaries)))))).

End Engine.

End Fit.

(** ** The ranking engine: [calculate_feature_importance] *)

Module Rank.

Import Np Pd.

(** Modelled from the spec: the module [survey_subsampling.sorting] is
    not among the sources.  Only the orderings that
    [calculate_feature_importance] keeps of [aggregate_sort] and
    [topn_sort] are taken; the specification says of both that they
    contain all features. *)
Class Sorting : Type := {
  aggregate_sort : table -> list feature -> list feature;
  topn_sort : table -> list feature -> list feature;
  aggregate_sort_all : forall t xs, Permutation (aggregate_sort t xs) xs;
  topn_sort_all : forall t xs, Permutation (topn_sort t xs) xs
}.

(** What the function prints. *)
Inductive line : Type :=
| MostPredictive (n : Z) (names : list feature)
| MostCommon (n : Z) (names : list feature)
| Differ (diff n : Z) (frac : Np.float).

(** [diff] and [frac] of the consistency report, from the two slices.
    [np.abs] works on an int64 and [1.0 * diff / nq * 100] on float64
    values: the two definitions give the integer and the exact quotient,
    which is what the program computes, up to the rounding of the
    quotient, as long as [nq] is an int64 and [nq - len(all_qs)] is
    above the smallest int64; the statements that read [diff] or [frac]
    keep [nq] within that range. *)
Definition consistency_diff (nq : Z) (top_agg top_topn : list feature) : Z :=
  let all_qs := set_of (top_agg ++ top_topn) in
  Z.abs (nq - Z.of_nat (length all_qs)).

Definition consistency_frac (diff nq : Z) : Np.float :=
  scale (true_divide (1 * Qc_of_Z diff)%Qc nq) (Qc_of_Z 100).

(** [avg_rank], the mean of the row and column index of every match. *)
Definition avg_rank (agg topn : list feature) : list Qc :=
  mean_pair (where_eq agg topn).

Section Engine.

Context {SO : Sorting} {AS : Argsort}.

(** What the function does with the two orderings once the sorting
    strategies have returned them: the slices, the report and the fused
    ordering. *)
Definition report_and_fuse
           (x_ids_sorted_by_aggregate x_ids_sorted_by_topn : list feature)
           (number_of_questions : Z)
  : list line * result (list feature * list feature * list feature) :=
  let sorted_importance_agg := slice_to number_of_questions x_ids_sorted_by_aggregate in
  let sorted_importance_topn := slice_to number_of_questions x_ids_sorted_by_topn in
  let diff := consistency_diff number_of_questions
                               sorted_importance_agg sorted_importance_topn in
  let frac := consistency_frac diff number_of_questions in
  let out := [MostPredictive number_of_questions sorted_importance_agg;
              MostCommon number_of_questions sorted_importance_topn;
              Differ diff number_of_questions frac] in
  let rank := avg_rank x_ids_sorted_by_aggregate x_ids_sorted_by_topn in
  (out,
   let? x_ids_sorted_average := take x_ids_sorted_by_aggregate (argsort rank) in
   Ok (x_ids_sorted_by_aggregate, x_ids_sorted_by_topn, x_ids_sorted_average)).

Definition calculate_feature_importance
           (learners : table) (xs : list feature) (outdir : string)
           (number_of_questions : Z) (plot : bool)
  : list line * result (list feature * list feature * list feature) :=
  let x_ids_sorted_by_aggregate := aggregate_sort learners xs in
  let x_ids_sorted_by_topn := topn_sort learners xs in
  report_and_fuse x_ids_sorted_by_aggregate x_ids_sorted_by_topn
                  number_of_questions.

End Engine.

(** Modelled from the spec: the two strategies of the missing
    [sorting] module as the specification words them.  The aggregate
    strategy sums each feature's importance over the diagnosis rows
    and sorts descending, equal sums keeping the original feature
    order.  The top-N strategy counts in how many rows a feature is
    among that row's [n] most important ones and sorts descending by
    the count, then by the aggregate sum, then by original order. *)
Definition importance (t : table) (r : list (option cell)) (x : feature) : Qc :=
  match index_of x (t_columns t) with
  | Some i =>
      match nth i r None with
      | Some (CNum (Fin q)) => q
      | _ => 0%Qc
      end
  | None => 0%Qc
  end.

Definition aggregate_score (t : table) (x : feature) : Qc :=
  Vec.total (map (fun r => importance t r x) (t_data t)).

Definition spec_aggregate_sort (t : table) (xs : list feature) : list feature :=
  sort_by (fun x y => Qc_leb (aggregate_score t y) (aggregate_score t x)) xs.

Definition row_top (n : nat) (t : table) (xs : list feature)
           (r : list (option cell)) : list feature :=
  firstn n (sort_by (fun x y => Qc_leb (importance t r y) (importance t r x)) xs).

Definition top_count (n : nat) (t : table) (xs : list feature) (x : feature) : nat :=
  length (filter (fun r => mem x (row_top n t xs r)) (t_data t)).

Definition spec_topn_sort (n : nat) (t : table) (xs : list feature) : list feature :=
  sort_by (fun x y =>
             (top_count n t xs y <? top_count n t xs x)
             || ((top_count n t xs x =? top_count n t xs y)
                 && Qc_leb (aggregate_score t y) (aggregate_score t x)))
          xs.

(** The difference the report is compared with: the features of either
    slice that the other lacks. *)
Definition symmetric_difference (a b : list feature) : list feature :=
  filter (fun x => negb (mem x b)) a ++ filter (fun x => negb (mem x a)) b.

(** Position of a feature in an ordering. *)
Fixpoint position (x : feature) (l : list feature) : nat :=
  match l with
  | [] => 0
  | y :: l' => if String.eqb x y then 0 else S (position x l')
  end.

Definition mean_position (agg topn : list feature) (x : feature) : Qc :=
  ((Qc_of_nat (position x agg) + Qc_of_nat (position x topn)) / Qc_of_nat 2)%Qc.

End Rank.

(** ** The degradation sweep: [degrading_fit] *)

Module Sweep.

Import Np Pd Fit.

(** [range(n)[::-1]] *)
Definition countdown (n : nat) : list nat := rev (seq 0 n).

(** The feature sets submitted, in submission order:
    [sorted_x_ids[0 : n_questions + 1]] for every [n_questions]. *)
Definition subsets (sorted_x_ids : list feature) : list (list feature) :=
  map (fun n_questions => firstn (n_questions + 1) sorted_x_ids)
      (countdown (length sorted_x_ids)).

(** [as_completed]: every pending future is yielded once, in the
    order the workers finish; [picks] says which of the pending ones
    finishes next. *)
Fixpoint complete {A} (picks : nat -> nat) (n : nat) (pending : list A) : list A :=
  match n with
  | 0 => []
  | S n' =>
      match pending with
      | [] => []
      | x :: _ =>
          let k := picks n' mod length pending in
          nth k pending x :: complete picks n' (drop_nth k pending)
      end
  end.

Definition as_completed {A} (picks : nat -> nat) (futures : list A) : list A :=
  complete picks (length futures) futures.

Section Controller.

Context {SK : Sklearn} {LS : LearnerSummary}.

(** How one run of the pool unfolds: the order of completion, and
    the state in which the worker process finds itself when it
    starts the task submitted [i]-th. *)
Record schedule : Type := {
  picks : nat -> nat;
  worker : nat -> world
}.

(** The outcome of the task submitted [i]-th:
    [fit_models(df, xi, y_ids, verbose=False)] in a worker. *)
Definition run_task (df : dataset) (ys : list diagnosis) (s : schedule)
           (task : nat * list feature) : result (table * table) :=
  fst (fit_models df (snd task) ys false (worker s (fst task))).

Definition submitted (sorted_x_ids : list feature) : list (nat * list feature) :=
  combine (seq 0 (length sorted_x_ids)) (subsets sorted_x_ids).

(** The list [degraded_tuple] after the collection loop. *)
Definition collect (df : dataset) (sorted_x_ids : list feature)
           (ys : list diagnosis) (s : schedule) : result (list (table * table)) :=
  mapM (run_task df ys s) (as_completed (picks s) (submitted sorted_x_ids)).

Definition degrading_fit (df : dataset) (sorted_x_ids : list feature)
           (ys : list diagnosis) (threads : Z) (verbose : bool) (s : schedule)
  : result (table * table) :=
  if (threads <=? 0)%Z then Raise ValueError
  else
    let? degraded_tuple := collect df sorted_x_ids ys s in
    let degraded_learners := map fst degraded_tuple in
    let degraded_summaries := map snd degraded_tuple in
    let? degraded_summaries := concat_tables degraded_summaries in
    let? degraded_learners := concat_tables degraded_learners in
    Ok (degraded_learners, degraded_summaries).

End Controller.

End Sweep.

(** * Vocabulary of the statements *)

Unset Implicit Arguments.

Definition missing_from (a b : list feature) : list feature :=
  filter (fun x => negb (Pd.mem x a)) b.

Definition imp (n : Z) (d : positive) : option Pd.cell :=
  Some (Pd.CNum (Np.Fin (Q2Qc (n # d)))).

Definition three_features : list feature := ["a"; "b"; "c"]%string.

(** Aggregate order [c, b, a]; with per-diagnosis top lists of one
    feature the top-N order is [c, a, b]. *)
Definition table_split : Pd.table :=
  {| Pd.t_index := [Some (Pd.CStr "d1"); Some (Pd.CStr "d2"); Some (Pd.CStr "d3")];
     Pd.t_columns := three_features;
     Pd.t_data := [[imp 18 20; imp 2 20; imp 0 20];
                   [imp 0 20; imp 9 20; imp 11 20];
                   [imp 0 20; imp 9 20; imp 11 20]] |}.

(** Aggregate order [a, b, c]; top-N order [b, a, c]: [a] and [b] have
    the same mean position. *)
Definition table_tied : Pd.table :=
  {| Pd.t_index := [Some (Pd.CStr "d1"); Some (Pd.CStr "d2"); Some (Pd.CStr "d3")];
     Pd.t_columns := three_features;
     Pd.t_data := [[imp 1 10; imp 6 10; imp 3 10];
                   [imp 1 10; imp 6 10; imp 3 10];
                   [imp 10 10; imp 0 10; imp 0 10]] |}.

(** Eighteen features, enough for numpy's quicksort to partition. *)
Definition eighteen_features : list feature :=
  ["f00"; "f01"; "f02"; "f03"; "f04"; "f05"; "f06"; "f07"; "f08";
   "f09"; "f10"; "f11"; "f12"; "f13"; "f14"; "f15"; "f16"; "f17"]%string.

(** Two diagnoses over the eighteen features.  The aggregate order is
    [f00, ..., f17]; with per-diagnosis top lists of ten features the
    top-N order has [f09] in front of [f08] and is otherwise the same,
    so that [f08] and [f09] have the same mean position. *)
Definition table_eighteen : Pd.table :=
  {| Pd.t_index := [Some (Pd.CStr "d1"); Some (Pd.CStr "d2")];
     Pd.t_columns := eighteen_features;
     Pd.t_data :=
       [map (fun n => imp n 1000)
            [200; 150; 120; 100; 80; 70; 60; 50; 45;
             30; 25; 20; 15; 12; 10; 7; 4; 2]%Z;
        map (fun n => imp n 1000)
            [210; 160; 130; 110; 90; 75; 62; 50; 5;
             18; 20; 16; 14; 12; 10; 8; 6; 4]%Z] |}.

(** Ascending in mean position. *)
Definition ascending_mean_position (agg topn fused : list feature) : Prop :=
  StronglySorted (fun x y => (Rank.mean_position agg topn x
                              <= Rank.mean_position agg topn y)%Qc) fused.

(** Features of equal mean position appear in the order the aggregate
    ordering has them. *)
Definition ties_follow_aggregate (agg topn fused : list feature) : Prop :=
  forall p q x y,
    p < q ->
    nth_error fused p = Some x -> nth_error fused q = Some y ->
    Rank.mean_position agg topn x = Rank.mean_position agg topn y ->
    Rank.position x agg < Rank.position y agg.

Definition rows_ok (f : nat) (m : list (list Qc)) : Prop :=
  Forall (fun v => length v = f) m.

(** The sum of column [j]. *)
Definition colsum (j : nat) (m : list (list Qc)) : Qc :=
  Vec.total (map (fun r => nth j r 0%Qc) m).




(** The importances the cross-validation loop of one diagnosis
    records, read off the fits: for every outer fold, in order, the
    sub-model vectors of the model fitted on the training part of the
    fold, the generator being handed from one fit to the next; with
    them, the generator after the last fit.  The list ends where a
    fit does not go through. *)
Fixpoint cv_importances {SK : Fit.Sklearn} (X : Fit.matrix) (y : list Z)
         (g : Fit.rng) (folds : list (list nat * list nat))
  : list (list (list Qc)) * Fit.rng :=
  match folds with
  | [] => ([], g)
  | fold :: rest =>
      match Np.take X (fst fold) with
      | Raise _ => ([], g)
      | Ok X_tr =>
          match Np.take y (fst fold) with
          | Raise _ => ([], g)
          | Ok y_tr =>
              match Fit.fit g X_tr y_tr with
              | (Ok clf, g') =>
                  let r := cv_importances X y g' rest in
                  (Fit.feature_importances clf :: fst r, snd r)
              | (Raise _, g') => ([], g')
              end
          end
      end
  end.

(** The same for a sequence of diagnoses, one entry per diagnosis, the
    generator being handed from one diagnosis to the next. *)
Fixpoint recorded_importances {SK : Fit.Sklearn} (df : Pd.dataset) (X : Fit.matrix)
         (g : Fit.rng) (ys : list diagnosis) : list (list (list (list Qc))) :=
  match ys with
  | [] => []
  | y_name :: rest =>
      match Pd.int_column df y_name with
      | Raise _ => []
      | Ok y =>
          match Fit.split X y with
          | Raise _ => []
          | Ok folds =>
              let r := cv_importances X y g folds in
              fst r :: recorded_importances df X (snd r) rest
          end
      end
  end.

Definition good_vec (f : nat) (v : list Qc) : Prop :=
  length v = f /\ Forall (fun q => (0 <= q)%Qc) v /\ Vec.total v = 1%Qc.

Definition good_block (f : nat) (b : list (list Qc)) : Prop :=
  b <> [] /\ Forall (good_vec f) b.

Definition add_label (a : list string) (k : string) : list string :=
  if Pd.mem k a then a else a ++ [k].

Definition number (q : Qc) : Pd.cell := Pd.CNum (Np.Fin q).

Definition row_dict (xs : list feature) (y : diagnosis) (means : list Qc) : Pd.dict :=
  ("Dx"%string, Pd.CStr y) :: combine xs (map number means).

(** Every fitted model reports at least one sub-model, and every
    sub-model vector has one non-negative entry per feature, the entries
    adding up to 1. *)
Definition importances_normalised {SK : Fit.Sklearn} (f : nat) : Prop :=
  forall g X y m g',
    Fit.fit g X y = (Ok m, g') -> rows_ok f X ->
    good_block f (Fit.feature_importances m).

(** The rows of an indexed table: index entry and data. *)
Definition table_rows (t : Pd.table) : list (option Pd.cell * list (option Pd.cell)) :=
  combine (Pd.t_index t) (Pd.t_data t).

Definition empty_table : Pd.table :=
  {| Pd.t_index := []; Pd.t_columns := []; Pd.t_data := [] |}.

(** * Properties *)

(** ** Lists, results and the state monad *)

Section ListFacts.

Context {A B : Type}.

Lemma mapM_ok_map (f : A -> result B) (g : A -> B) (xs : list A) :
  (forall x, In x xs -> f x = Ok (g x)) -> mapM f xs = Ok (map g xs).
Proof.
  induction xs as [|x xs IH]; intros H; simpl; [reflexivity|].
  rewrite (H x (or_introl eq_refl)); simpl.
  rewrite IH by (intros; apply H; now right). reflexivity.
Qed.

Lemma mapM_ok_inv (f : A -> result B) (xs : list A) (ys : list B) :
  mapM f xs = Ok ys -> Forall2 (fun x y => f x = Ok y) xs ys.
Proof.
  revert ys; induction xs as [|x xs IH]; intros ys H; simpl in H.
  - injection H as <-. constructor.
  - destruct (f x) as [b|e] eqn:E; simpl in H; [|discriminate].
    destruct (mapM f xs) as [bs|e] eqn:E'; simpl in H; [|discriminate].
    injection H as <-. constructor; auto.
Qed.

Lemma mapM_raise (f : A -> result B) (xs : list A) (x : A) (e : exn) :
  In x xs -> f x = Raise e -> exists e', mapM f xs = Raise e'.
Proof.
  induction xs as [|a xs IH]; intros Hin Hx; [contradiction|].
  simpl. destruct Hin as [->|Hin].
  - rewrite Hx. simpl. eauto.
  - destruct (f a); simpl; eauto.
    destruct (IH Hin Hx) as [e' ->]. simpl. eauto.
Qed.

Lemma Forall2_length_eq (R : A -> B -> Prop) (xs : list A) (ys : list B) :
  Forall2 R xs ys -> length xs = length ys.
Proof. induction 1; simpl; congruence. Qed.

End ListFacts.

Lemma drop_nth_length {A} (i : nat) (l : list A) :
  i < length l -> length (Pd.drop_nth i l) = length l - 1.
Proof.
  revert i; induction l as [|x l IH]; intros i H; simpl in *; [lia|].
  destruct i; simpl; [lia|].
  rewrite IH by lia. destruct l; simpl in *; lia.
Qed.

Lemma drop_nth_perm {A} (i : nat) (l : list A) (d : A) :
  i < length l -> Permutation (nth i l d :: Pd.drop_nth i l) l.
Proof.
  revert i; induction l as [|x l IH]; intros i H; simpl in *; [lia|].
  destruct i; simpl; [reflexivity|].
  rewrite perm_swap. constructor. apply IH. lia.
Qed.

(** ** The sweep's feature sets *)

Lemma countdown_length (n : nat) : length (Sweep.countdown n) = n.
Proof. unfold Sweep.countdown. now rewrite length_rev, length_seq. Qed.

Lemma subsets_length (l : list feature) :
  length (Sweep.subsets l) = length l.
Proof. unfold Sweep.subsets. now rewrite length_map, countdown_length. Qed.

Lemma subsets_nth (l : list feature) (i : nat) :
  i < length l ->
  nth i (Sweep.subsets l) [] = firstn (length l - i) l.
Proof.
  intros H. unfold Sweep.subsets, Sweep.countdown.
  set (pre := fun n_questions => firstn (n_questions + 1) l).
  rewrite nth_indep with (d' := pre 0)
    by now rewrite length_map, length_rev, length_seq.
  rewrite map_nth, rev_nth by now rewrite length_seq.
  rewrite length_seq, seq_nth by lia.
  unfold pre. f_equal. lia.
Qed.

Lemma subsets_prefixes (l : list feature) :
  Sweep.subsets l = map (fun k => firstn k l) (rev (seq 1 (length l))).
Proof.
  unfold Sweep.subsets, Sweep.countdown.
  rewrite <- seq_shift, <- map_rev, map_map.
  apply map_ext. intros k. f_equal. lia.
Qed.

Lemma complete_perm {A} (picks : nat -> nat) (n : nat) (l : list A) :
  length l = n -> Permutation (Sweep.complete picks n l) l.
Proof.
  revert l; induction n as [|n IH]; intros l H.
  - destruct l; [constructor|discriminate].
  - destruct l as [|x l']; [discriminate|].
    cbn [Sweep.complete].
    set (k := picks n mod length (x :: l')).
    assert (Hk : k < length (x :: l')) by (apply Nat.mod_upper_bound; discriminate).
    etransitivity; [|apply (drop_nth_perm k (x :: l') x Hk)].
    constructor. apply IH.
    rewrite drop_nth_length by exact Hk. simpl in *. lia.
Qed.

Lemma as_completed_perm {A} (picks : nat -> nat) (l : list A) :
  Permutation (Sweep.as_completed picks l) l.
Proof. apply complete_perm. reflexivity. Qed.

(** ** Counting the features two slices do not share *)

Lemma mem_In (x : string) (l : list string) : Pd.mem x l = true <-> In x l.
Proof.
  unfold Pd.mem. rewrite existsb_exists. split.
  - intros [y [Hy E]]. apply String.eqb_eq in E. now subst.
  - intros H. exists x. split; [assumption|apply String.eqb_refl].
Qed.

Lemma mem_false (x : string) (l : list string) : Pd.mem x l = false <-> ~ In x l.
Proof.
  rewrite <- mem_In. destruct (Pd.mem x l); split; congruence.
Qed.

Lemma missing_from_In (a b : list feature) (x : feature) :
  In x (missing_from a b) <-> In x b /\ ~ In x a.
Proof.
  unfold missing_from. rewrite filter_In, negb_true_iff, mem_false. reflexivity.
Qed.

Lemma set_of_app_length (a b : list feature) :
  NoDup a -> NoDup b ->
  length (Py.set_of (a ++ b)) = length a + length (missing_from a b).
Proof.
  intros Ha Hb. rewrite <- length_app.
  apply Permutation_length, NoDup_Permutation.
  - apply NoDup_nodup.
  - apply NoDup_app; [assumption|now apply NoDup_filter|].
    intros x Hx Hx'. apply missing_from_In in Hx'. tauto.
  - intros x. unfold Py.set_of. rewrite nodup_In, !in_app_iff, missing_from_In.
    destruct (in_dec string_dec x a); tauto.
Qed.

Lemma shared_length (a b : list feature) :
  NoDup a -> NoDup b ->
  length (filter (fun x => Pd.mem x b) a) = length (filter (fun x => Pd.mem x a) b).
Proof.
  intros Ha Hb. apply Permutation_length, NoDup_Permutation;
    try now apply NoDup_filter.
  intros x. rewrite !filter_In, !mem_In. tauto.
Qed.

Lemma missing_from_balanced (a b : list feature) :
  NoDup a -> NoDup b -> length a = length b ->
  length (missing_from b a) = length (missing_from a b).
Proof.
  intros Ha Hb Hl. unfold missing_from.
  pose proof (filter_length (fun x => Pd.mem x b) a) as E1.
  pose proof (filter_length (fun x => Pd.mem x a) b) as E2.
  pose proof (shared_length a b Ha Hb). cbv beta in *. lia.
Qed.

Lemma symmetric_difference_length (a b : list feature) :
  length (Rank.symmetric_difference a b)
  = length (missing_from b a) + length (missing_from a b).
Proof. unfold Rank.symmetric_difference. now rewrite length_app. Qed.

Lemma missing_from_nil_iff (a b : list feature) :
  missing_from a b = [] <-> incl b a.
Proof.
  split.
  - intros H x Hx. destruct (in_dec string_dec x a) as [|n]; [assumption|].
    assert (In x (missing_from a b)) by (apply missing_from_In; tauto).
    rewrite H in *. contradiction.
  - intros H. destruct (missing_from a b) as [|x l] eqn:E; [reflexivity|].
    assert (Hx : In x (missing_from a b)) by (rewrite E; now left).
    apply missing_from_In in Hx. destruct Hx as [Hb Hn]. elim Hn. now apply H.
Qed.

Lemma slice_to_length {A} (k : Z) (l : list A) :
  (0 <= k <= Z.of_nat (length l))%Z -> length (Py.slice_to k l) = Z.to_nat k.
Proof.
  intros H. unfold Py.slice_to.
  destruct (Z.ltb_spec k 0); [lia|].
  rewrite length_firstn. lia.
Qed.

Lemma NoDup_firstn {A} (n : nat) (l : list A) : NoDup l -> NoDup (firstn n l).
Proof.
  intros H. rewrite <- (firstn_skipn n l) in H.
  now apply NoDup_app_remove_r in H.
Qed.

Lemma slice_to_NoDup {A} (k : Z) (l : list A) : NoDup l -> NoDup (Py.slice_to k l).
Proof. intros H. unfold Py.slice_to. destruct (k <? 0)%Z; now apply NoDup_firstn. Qed.

(** The count of the report, for two duplicate-free slices of [nq]
    entries each. *)
Lemma consistency_diff_count (nq : Z) (a b : list feature) :
  NoDup a -> NoDup b ->
  length a = Z.to_nat nq -> length b = Z.to_nat nq -> (0 <= nq)%Z ->
  Rank.consistency_diff nq a b = Z.of_nat (length (missing_from a b)).
Proof.
  intros Ha Hb La Lb Hq. unfold Rank.consistency_diff.
  rewrite set_of_app_length by assumption. lia.
Qed.

(** ** Insertion sort and [argsort] *)

Section SortFacts.

Context {A : Type} (before : A -> A -> bool).

Lemma insert_by_perm (x : A) (l : list A) :
  Permutation (Np.insert_by before x l) (x :: l).
Proof.
  induction l as [|y l IH]; simpl; [reflexivity|].
  destruct (before x y); [reflexivity|].
  rewrite perm_swap. now constructor.
Qed.

Lemma sort_by_perm (l : list A) : Permutation (Np.sort_by before l) l.
Proof.
  induction l as [|x l IH]; simpl; [constructor|].
  rewrite insert_by_perm. now constructor.
Qed.

Variable R : A -> A -> Prop.
Hypothesis R_trans : forall x y z, R x y -> R y z -> R x z.
Hypothesis before_sound : forall x y, before x y = true -> R x y.
Hypothesis before_complete : forall x y, before x y = false -> R y x.

Lemma insert_by_sorted (x : A) (l : list A) :
  StronglySorted R l -> StronglySorted R (Np.insert_by before x l).
Proof.
  induction 1 as [|y l Hs IH Hy]; simpl.
  - repeat constructor.
  - destruct (before x y) eqn:E.
    + constructor; [now constructor|].
      constructor; [now apply before_sound|].
      eapply Forall_impl; [|exact Hy].
      intros z Hz. eapply R_trans; [apply before_sound|]; eassumption.
    + constructor; [assumption|].
      eapply Permutation_Forall; [symmetry; apply insert_by_perm|].
      constructor; [now apply before_complete|assumption].
Qed.

Lemma sort_by_sorted (l : list A) : StronglySorted R (Np.sort_by before l).
Proof.
  induction l as [|x l IH]; simpl; [constructor|].
  now apply insert_by_sorted.
Qed.

End SortFacts.

Lemma Qc_leb_true (a b : Qc) : Qc_leb a b = true -> (a <= b)%Qc.
Proof. unfold Qc_leb. intros H. now apply Qle_bool_iff in H. Qed.

Lemma Qc_leb_false (a b : Qc) : Qc_leb a b = false -> (b <= a)%Qc.
Proof.
  unfold Qc_leb. intros H.
  destruct (Qclt_le_dec b a) as [Hlt|Hle]; [now apply Qclt_le_weak|].
  apply Qle_bool_iff in Hle. congruence.
Qed.

Lemma Qc_ltb_true (a b : Qc) : Qc_ltb a b = true -> (a <= b)%Qc.
Proof. unfold Qc_ltb. intros H. apply negb_true_iff in H. now apply Qc_leb_false. Qed.

Lemma Qc_ltb_false (a b : Qc) : Qc_ltb a b = false -> (b <= a)%Qc.
Proof. unfold Qc_ltb. intros H. apply negb_false_iff in H. now apply Qc_leb_true. Qed.

Lemma argsort_stable_spec (keys : list Qc) :
  Np.is_argsort keys (Np.argsort_stable keys).
Proof.
  split; [apply sort_by_perm|].
  apply sort_by_sorted.
  - intros x y z. apply Qcle_trans.
  - intros x y. apply Qc_leb_true.
  - intros x y. apply Qc_leb_false.
Qed.

Lemma argsort_reversing_spec (keys : list Qc) :
  Np.is_argsort keys (Np.argsort_reversing keys).
Proof.
  split; [apply sort_by_perm|].
  apply sort_by_sorted.
  - intros x y z. apply Qcle_trans.
  - intros x y. apply Qc_ltb_true.
  - intros x y. apply Qc_ltb_false.
Qed.

(** The sort numpy runs on short arrays, and one that is as admissible
    under the default [kind] but orders equal keys the other way. *)
Definition stable_argsort : Np.Argsort :=
  {| Np.argsort := Np.argsort_stable; Np.argsort_spec := argsort_stable_spec |}.

Definition reversing_argsort : Np.Argsort :=
  {| Np.argsort := Np.argsort_reversing; Np.argsort_spec := argsort_reversing_spec |}.

Lemma nodupb_sound (l : list nat) : Np.nodupb l = true -> NoDup l.
Proof.
  induction l as [|x l IH]; simpl; intros H; [constructor|].
  apply andb_true_iff in H. destruct H as [Hx Hl].
  constructor; [|now apply IH].
  intros Hin. apply negb_true_iff in Hx.
  assert (E : existsb (Nat.eqb x) l = true).
  { apply existsb_exists. exists x. split; [exact Hin|apply Nat.eqb_refl]. }
  congruence.
Qed.

Lemma ascendingb_sound (keys : list Qc) (l : list nat) :
  Np.ascendingb keys l = true ->
  StronglySorted (fun i j => (Np.key keys i <= Np.key keys j)%Qc) l.
Proof.
  induction l as [|i l IH]; simpl; intros H; [constructor|].
  apply andb_true_iff in H. destruct H as [Hi Hl].
  constructor; [now apply IH|].
  rewrite forallb_forall in Hi. apply Forall_forall. intros j Hj.
  apply Qc_leb_true. now apply Hi.
Qed.

Lemma is_argsortb_sound (keys : list Qc) (idx : list nat) :
  Np.is_argsortb keys idx = true -> Np.is_argsort keys idx.
Proof.
  unfold Np.is_argsortb. intros H.
  apply andb_true_iff in H. destruct H as [H Hs].
  apply andb_true_iff in H. destruct H as [H Hn].
  apply andb_true_iff in H. destruct H as [Hl Hr].
  apply Nat.eqb_eq in Hl. rewrite forallb_forall in Hr.
  split; [|now apply ascendingb_sound].
  apply NoDup_Permutation_bis.
  - now apply nodupb_sound.
  - rewrite length_seq. lia.
  - intros i Hi. apply in_seq. specialize (Hr i Hi).
    apply Nat.ltb_lt in Hr. lia.
Qed.

Lemma argsort_numpy_spec (keys : list Qc) :
  Np.is_argsort keys (Np.argsort_numpy keys).
Proof.
  unfold Np.argsort_numpy.
  destruct (Np.aquicksort keys) as [idx|]; [|apply argsort_stable_spec].
  destruct (Np.is_argsortb keys idx) eqn:E; [|apply argsort_stable_spec].
  now apply is_argsortb_sound.
Qed.

(** numpy's portable quicksort as [np.argsort]. *)
Definition numpy_argsort : Np.Argsort :=
  {| Np.argsort := Np.argsort_numpy; Np.argsort_spec := argsort_numpy_spec |}.

(** The specification's two strategies, with [n] the size of the
    per-diagnosis top list. *)
Definition spec_sorting (n : nat) : Rank.Sorting :=
  {| Rank.aggregate_sort := Rank.spec_aggregate_sort;
     Rank.topn_sort := Rank.spec_topn_sort n;
     Rank.aggregate_sort_all := fun t xs => sort_by_perm _ xs;
     Rank.topn_sort_all := fun t xs => sort_by_perm _ xs |}.

(** ** Indexing with a permutation of the indices *)

Lemma map_nth_seq {A} (l : list A) (d : A) :
  map (fun i => nth i l d) (seq 0 (length l)) = l.
Proof.
  induction l as [|x l IH]; simpl; [reflexivity|].
  f_equal. rewrite <- seq_shift, map_map. exact IH.
Qed.

Lemma take_in_range {A} (l : list A) (idx : list nat) (d : A) :
  Forall (fun i => i < length l) idx ->
  Np.take l idx = Ok (map (fun i => nth i l d) idx).
Proof.
  intros H. unfold Np.take. apply mapM_ok_map.
  intros i Hi. rewrite Forall_forall in H.
  now rewrite (nth_error_nth' l d (H i Hi)).
Qed.

Lemma perm_seq_in_range (idx : list nat) (n : nat) :
  Permutation idx (seq 0 n) -> Forall (fun i => i < n) idx.
Proof.
  intros H. apply Forall_forall. intros i Hi.
  apply (Permutation_in _ H), in_seq in Hi. lia.
Qed.

Lemma take_perm {A} (l : list A) (idx : list nat) (d : A) :
  Permutation idx (seq 0 (length l)) ->
  Np.take l idx = Ok (map (fun i => nth i l d) idx) /\
  Permutation (map (fun i => nth i l d) idx) l.
Proof.
  intros H. split.
  - apply take_in_range. now apply perm_seq_in_range.
  - etransitivity; [apply Permutation_map, H|].
    now rewrite map_nth_seq.
Qed.

(** ** Mean ranks *)

Lemma positions_from_absent (k : nat) (x : feature) (b : list feature) :
  ~ In x b -> Np.positions_from k x b = [].
Proof.
  revert k; induction b as [|y b IH]; intros k H; simpl; [reflexivity|].
  destruct (String.eqb_spec x y) as [->|N].
  - elim H. now left.
  - simpl. apply IH. intros Hin. apply H. now right.
Qed.

Lemma positions_from_present (k : nat) (x : feature) (b : list feature) :
  NoDup b -> In x b -> Np.positions_from k x b = [k + Rank.position x b].
Proof.
  revert k; induction b as [|y b IH]; intros k Hn Hin; [contradiction|].
  inversion Hn as [|? ? Hy Hb]; subst. simpl.
  destruct (String.eqb_spec x y) as [->|N].
  - rewrite positions_from_absent by assumption. simpl. f_equal. lia.
  - destruct Hin as [E|Hin]; [congruence|].
    simpl. rewrite IH by assumption. f_equal. lia.
Qed.

Lemma hits_from_positions (k : nat) (a b : list feature) :
  NoDup b -> incl a b ->
  Np.hits_from k a b
  = combine (seq k (length a)) (map (fun x => Rank.position x b) a).
Proof.
  intros Hb. revert k; induction a as [|x a IH]; intros k Hi; simpl; [reflexivity|].
  rewrite positions_from_present by (auto; apply Hi; now left).
  simpl. f_equal. apply IH. intros z Hz. apply Hi. now right.
Qed.

Lemma positions_self (a : list feature) :
  NoDup a -> map (fun x => Rank.position x a) a = seq 0 (length a).
Proof.
  induction 1 as [|x a Hx Ha IH]; simpl; [reflexivity|].
  rewrite String.eqb_refl. f_equal.
  rewrite <- seq_shift, <- IH, map_map.
  apply map_ext_in. intros y Hy.
  destruct (String.eqb_spec y x) as [->|N]; [contradiction|reflexivity].
Qed.

Lemma combine_map_same {A B C} (f : A -> B) (g : A -> C) (l : list A) :
  combine (map f l) (map g l) = map (fun x => (f x, g x)) l.
Proof. induction l; simpl; congruence. Qed.

Lemma avg_rank_mean_position (a b : list feature) :
  NoDup a -> NoDup b -> incl a b ->
  Rank.avg_rank a b = map (Rank.mean_position a b) a.
Proof.
  intros Ha Hb Hi. unfold Rank.avg_rank, Np.where_eq, Np.mean_pair. cbn [fst snd].
  rewrite hits_from_positions by assumption.
  rewrite <- positions_self by assumption.
  rewrite combine_map_same, !map_map. cbn [fst snd].
  rewrite combine_map_same, map_map. reflexivity.
Qed.

Lemma avg_rank_key (a b : list feature) (i : nat) (d : feature) :
  NoDup a -> NoDup b -> incl a b -> i < length a ->
  Np.key (Rank.avg_rank a b) i = Rank.mean_position a b (nth i a d).
Proof.
  intros Ha Hb Hi Hlt. rewrite avg_rank_mean_position by assumption.
  unfold Np.key.
  rewrite nth_indep with (d' := Rank.mean_position a b d) by now rewrite length_map.
  apply map_nth.
Qed.

Lemma StronglySorted_map_in {A B} (R : A -> A -> Prop) (R' : B -> B -> Prop)
      (f : A -> B) (l : list A) :
  (forall x y, In x l -> In y l -> R x y -> R' (f x) (f y)) ->
  StronglySorted R l -> StronglySorted R' (map f l).
Proof.
  intros H Hs. induction Hs as [|x l Hs IH Hx]; simpl; constructor.
  - apply IH. intros; apply H; simpl; auto.
  - apply Forall_map. rewrite Forall_forall in *.
    intros y Hy. apply H; simpl; auto.
Qed.

Section Fused.

Context {AS : Np.Argsort}.

Variables agg topn : list feature.
Hypothesis agg_nodup : NoDup agg.
Hypothesis topn_perm : Permutation topn agg.

Let topn_nodup : NoDup topn.
Proof. eapply Permutation_NoDup; [symmetry; exact topn_perm|exact agg_nodup]. Qed.

Let agg_in_topn : incl agg topn.
Proof. intros x Hx. eapply Permutation_in; [symmetry; exact topn_perm|exact Hx]. Qed.

Lemma avg_rank_length : length (Rank.avg_rank agg topn) = length agg.
Proof. rewrite avg_rank_mean_position by assumption. apply length_map. Qed.

Lemma argsort_avg_rank_perm :
  Permutation (Np.argsort (Rank.avg_rank agg topn)) (seq 0 (length agg)).
Proof.
  rewrite <- avg_rank_length. apply Np.argsort_spec.
Qed.

Definition fused_order : list feature :=
  map (fun i => nth i agg ""%string) (Np.argsort (Rank.avg_rank agg topn)).

Lemma fused_take :
  Np.take agg (Np.argsort (Rank.avg_rank agg topn)) = Ok fused_order.
Proof. apply take_perm, argsort_avg_rank_perm. Qed.

Lemma fused_perm : Permutation fused_order agg.
Proof. apply take_perm, argsort_avg_rank_perm. Qed.

Lemma fused_ascending : ascending_mean_position agg topn fused_order.
Proof.
  unfold ascending_mean_position, fused_order.
  eapply StronglySorted_map_in; [|apply Np.argsort_spec].
  intros i j Hi Hj Hle. cbv beta in Hle.
  pose proof (perm_seq_in_range _ _ argsort_avg_rank_perm) as Hr.
  rewrite Forall_forall in Hr.
  rewrite <- !avg_rank_key by auto. exact Hle.
Qed.

End Fused.

(** ** Arithmetic of mean positions *)

Lemma Qc_of_nat_add (a b : nat) :
  Qc_of_nat (a + b) = (Qc_of_nat a + Qc_of_nat b)%Qc.
Proof.
  unfold Qc_of_nat, Qcplus. apply Q2Qc_eq_iff.
  cbn [this Q2Qc].
  rewrite !Qred_correct, Nat2Z.inj_add, inject_Z_plus. reflexivity.
Qed.

Lemma Qc_of_nat_le (a b : nat) : (Qc_of_nat a <= Qc_of_nat b)%Qc <-> a <= b.
Proof.
  unfold Qc_of_nat, Qcle. cbn [this Q2Qc].
  rewrite !Qred_correct, <- Zle_Qle. lia.
Qed.

Lemma Qc_half_pos : (0 < / Qc_of_nat 2)%Qc.
Proof. reflexivity. Qed.

Lemma mean_le_iff (a b c d : nat) :
  ((Qc_of_nat a + Qc_of_nat b) / Qc_of_nat 2
   <= (Qc_of_nat c + Qc_of_nat d) / Qc_of_nat 2)%Qc
  <-> a + b <= c + d.
Proof.
  rewrite <- !Qc_of_nat_add, <- Qc_of_nat_le. unfold Qcdiv. split; intros H.
  - eapply Qcmult_lt_0_le_reg_r; [apply Qc_half_pos|exact H].
  - apply Qcmult_le_compat_r; [exact H|]. apply Qclt_le_weak, Qc_half_pos.
Qed.

Lemma mean_position_le (agg topn : list feature) (x y : feature) :
  (Rank.mean_position agg topn x <= Rank.mean_position agg topn y)%Qc
  <-> Rank.position x agg + Rank.position x topn
      <= Rank.position y agg + Rank.position y topn.
Proof. apply mean_le_iff. Qed.

Lemma position_nth (l : list feature) (i : nat) (d : feature) :
  NoDup l -> i < length l -> Rank.position (nth i l d) l = i.
Proof.
  intros Hn Hi.
  pose proof (positions_self l Hn) as E.
  apply (f_equal (fun s => nth i s 0)) in E.
  rewrite seq_nth in E by assumption. simpl in E.
  rewrite <- (map_nth (fun x => Rank.position x l)).
  rewrite nth_indep with (d' := 0) by now rewrite length_map.
  exact E.
Qed.

Section FusedFirst.

Context {AS : Np.Argsort}.

Variables agg topn : list feature.
Hypothesis agg_nodup : NoDup agg.
Hypothesis topn_perm : Permutation topn agg.

(** A feature at the head of both orderings heads the fused one. *)
Lemma fused_first (f : feature) :
  hd_error agg = Some f -> hd_error topn = Some f ->
  hd_error (fused_order agg topn) = Some f.
Proof.
  intros Ha Ht.
  assert (Pa : Rank.position f agg = 0).
  { destruct agg; [discriminate|]. injection Ha as ->.
    simpl. now rewrite String.eqb_refl. }
  assert (Pt : Rank.position f topn = 0).
  { destruct topn; [discriminate|]. injection Ht as ->.
    simpl. now rewrite String.eqb_refl. }
  assert (E0 : nth 0 agg ""%string = f).
  { destruct agg; [discriminate|]. now injection Ha. }
  assert (Hlen : 0 < length agg).
  { destruct agg; [discriminate|simpl; lia]. }
  pose proof (argsort_avg_rank_perm agg topn agg_nodup topn_perm) as Hp.
  pose proof (fused_ascending agg topn agg_nodup topn_perm) as Hs.
  unfold ascending_mean_position, fused_order in *.
  destruct (Np.argsort (Rank.avg_rank agg topn)) as [|i0 rest].
  - apply Permutation_length in Hp. rewrite length_seq in Hp. simpl in Hp. lia.
  - simpl. destruct i0 as [|i0]; [now rewrite E0|exfalso].
    assert (H0 : In 0 (S i0 :: rest)).
    { eapply Permutation_in; [symmetry; exact Hp|]. apply in_seq. lia. }
    destruct H0 as [H0|H0]; [discriminate|].
    assert (Hi : S i0 < length agg).
    { assert (Hin : In (S i0) (seq 0 (length agg))).
      { eapply Permutation_in; [exact Hp|now left]. }
      apply in_seq in Hin. lia. }
    simpl in Hs. apply StronglySorted_inv in Hs. destruct Hs as [_ Hs].
    rewrite Forall_map, Forall_forall in Hs. specialize (Hs 0 H0).
    apply mean_position_le in Hs.
    rewrite (position_nth agg (S i0)) in Hs by assumption.
    rewrite E0 in Hs. lia.
Qed.

End FusedFirst.

(** ** Two small importance tables *)

Ltac nodup_strings :=
  repeat (constructor; [simpl; intuition discriminate|]); constructor.

Lemma three_features_nodup : NoDup three_features.
Proof. unfold three_features. nodup_strings. Qed.

Example table_split_orders :
  Rank.spec_aggregate_sort table_split three_features = ["c"; "b"; "a"]%string /\
  Rank.spec_topn_sort 1 table_split three_features = ["c"; "a"; "b"]%string.
Proof. split; vm_compute; reflexivity. Qed.

Example table_tied_orders :
  Rank.spec_aggregate_sort table_tied three_features = ["a"; "b"; "c"]%string /\
  Rank.spec_topn_sort 1 table_tied three_features = ["b"; "a"; "c"]%string.
Proof. split; vm_compute; reflexivity. Qed.

(** ** The consistency report *)

Lemma consistency_frac_finite (diff nq : Z) :
  (nq <> 0)%Z ->
  Rank.consistency_frac diff nq
  = Np.Fin (Qc_of_Z diff / Qc_of_Z nq * Qc_of_Z 100)%Qc.
Proof.
  intros H. unfold Rank.consistency_frac, Np.true_divide.
  destruct (Z.eqb_spec nq 0); [contradiction|].
  simpl. now rewrite Qcmult_1_l.
Qed.

Lemma same_members_iff (a b : list feature) :
  NoDup a -> NoDup b -> length a = length b ->
  (length (missing_from a b) = 0 <-> (forall x, In x a <-> In x b)).
Proof.
  intros Ha Hb Hl. split.
  - intros H0 x.
    assert (Hba : incl b a).
    { apply missing_from_nil_iff. now apply length_zero_iff_nil. }
    assert (Hab : incl a b).
    { apply missing_from_nil_iff, length_zero_iff_nil.
      now rewrite missing_from_balanced. }
    split; [apply Hab|apply Hba].
  - intros H. apply length_zero_iff_nil, missing_from_nil_iff.
    intros x Hx. now apply H.
Qed.

(** C1, as the claim states it, fails: on three features with aggregate
    order [c, b, a] and top-N order [c, a, b], the top-2 slices differ in
    two features, [b] and [a], and the report gives 1. *)
Lemma consistency_report_counterexample :
  exists frac,
    fst (@Rank.calculate_feature_importance (spec_sorting 1) stable_argsort
           table_split three_features "out" 2 true)
    = [Rank.MostPredictive 2 ["c"; "b"]%string;
       Rank.MostCommon 2 ["c"; "a"]%string;
       Rank.Differ 1 2 frac] /\
    length (Rank.symmetric_difference ["c"; "b"]%string ["c"; "a"]%string) = 2.
Proof. eexists. split; vm_compute; reflexivity. Qed.

(** C1, amended: for a top_n between 1 and the number of features, the
    reported count is the number of features of the top-N slice that the
    aggregate slice lacks, which is half the cardinality of the symmetric
    difference of the two slices; the reported percentage is that count
    over top_n times 100; and the count is 0 exactly when the two slices
    hold the same features. *)
Theorem consistency_report_counts_missing
        {SO : Rank.Sorting} {AS : Np.Argsort}
        (learners : Pd.table) (xs : list feature) (outdir : string)
        (nq : Z) (plot : bool) :
  NoDup xs -> (0 < nq <= Z.of_nat (length xs))%Z ->
  let top_agg := Py.slice_to nq (Rank.aggregate_sort learners xs) in
  let top_topn := Py.slice_to nq (Rank.topn_sort learners xs) in
  let diff := Z.of_nat (length (missing_from top_agg top_topn)) in
  fst (Rank.calculate_feature_importance learners xs outdir nq plot)
  = [Rank.MostPredictive nq top_agg;
     Rank.MostCommon nq top_topn;
     Rank.Differ diff nq (Np.Fin (Qc_of_Z diff / Qc_of_Z nq * Qc_of_Z 100)%Qc)] /\
  (2 * diff = Z.of_nat (length (Rank.symmetric_difference top_agg top_topn)))%Z /\
  (diff = 0%Z <-> (forall x, In x top_agg <-> In x top_topn)).
Proof.
  intros Hn Hq top_agg top_topn diff.
  pose proof (Rank.aggregate_sort_all learners xs) as Pa.
  pose proof (Rank.topn_sort_all learners xs) as Pt.
  assert (Na : NoDup top_agg).
  { apply slice_to_NoDup. eapply Permutation_NoDup; [symmetry; exact Pa|exact Hn]. }
  assert (Nt : NoDup top_topn).
  { apply slice_to_NoDup. eapply Permutation_NoDup; [symmetry; exact Pt|exact Hn]. }
  assert (La : length top_agg = Z.to_nat nq).
  { apply slice_to_length. rewrite (Permutation_length Pa). lia. }
  assert (Lt : length top_topn = Z.to_nat nq).
  { apply slice_to_length. rewrite (Permutation_length Pt). lia. }
  split; [|split].
  - unfold Rank.calculate_feature_importance, Rank.report_and_fuse. cbn [fst].
    fold top_agg top_topn.
    rewrite consistency_diff_count by (assumption || lia).
    rewrite consistency_frac_finite by lia. reflexivity.
  - rewrite symmetric_difference_length, missing_from_balanced by congruence.
    unfold diff. lia.
  - rewrite <- same_members_iff by congruence. unfold diff. lia.
Qed.

Lemma consistency_report_counts_missing_witness :
  let top_agg := Py.slice_to 2 (Rank.spec_aggregate_sort table_split three_features) in
  let top_topn := Py.slice_to 2 (Rank.spec_topn_sort 1 table_split three_features) in
  let diff := Z.of_nat (length (missing_from top_agg top_topn)) in
  fst (@Rank.calculate_feature_importance (spec_sorting 1) stable_argsort
         table_split three_features "out" 2 true)
  = [Rank.MostPredictive 2 top_agg;
     Rank.MostCommon 2 top_topn;
     Rank.Differ diff 2 (Np.Fin (Qc_of_Z diff / Qc_of_Z 2 * Qc_of_Z 100)%Qc)] /\
  (2 * diff = Z.of_nat (length (Rank.symmetric_difference top_agg top_topn)))%Z /\
  (diff = 0%Z <-> (forall x, In x top_agg <-> In x top_topn)).
Proof.
  apply (@consistency_report_counts_missing (spec_sorting 1) stable_argsort
           table_split three_features "out"%string 2%Z true).
  - exact three_features_nodup.
  - simpl. lia.
Defined.

(** ** The fused ranking *)

Lemma sorting_nodup {SO : Rank.Sorting} (learners : Pd.table) (xs : list feature) :
  NoDup xs ->
  NoDup (Rank.aggregate_sort learners xs) /\
  Permutation (Rank.topn_sort learners xs) (Rank.aggregate_sort learners xs).
Proof.
  intros Hn. split.
  - eapply Permutation_NoDup; [symmetry; apply Rank.aggregate_sort_all|exact Hn].
  - rewrite Rank.topn_sort_all, Rank.aggregate_sort_all. reflexivity.
Qed.

Lemma calculate_returns {SO : Rank.Sorting} {AS : Np.Argsort}
      (learners : Pd.table) (xs : list feature) (outdir : string)
      (nq : Z) (plot : bool) :
  NoDup xs ->
  snd (Rank.calculate_feature_importance learners xs outdir nq plot)
  = Ok (Rank.aggregate_sort learners xs, Rank.topn_sort learners xs,
        fused_order (Rank.aggregate_sort learners xs) (Rank.topn_sort learners xs)).
Proof.
  intros Hn. destruct (sorting_nodup learners xs Hn) as [Na Pt].
  unfold Rank.calculate_feature_importance, Rank.report_and_fuse. cbn [snd].
  now rewrite fused_take.
Qed.

Example table_eighteen_orders :
  Rank.spec_aggregate_sort table_eighteen eighteen_features = eighteen_features /\
  Rank.spec_topn_sort 10 table_eighteen eighteen_features
  = ["f00"; "f01"; "f02"; "f03"; "f04"; "f05"; "f06"; "f07"; "f09";
     "f08"; "f10"; "f11"; "f12"; "f13"; "f14"; "f15"; "f16"; "f17"]%string.
Proof. split; vm_compute; reflexivity. Qed.

(** C3, as the claim states it, fails on the order among features of
    equal mean position: [np.argsort] is called with its default kind,
    a quicksort that is not stable.  Over eighteen features with
    aggregate order [f00, ..., f17] and a top-N order that only swaps
    [f08] and [f09], these two have the same mean position 17/2; the
    first partition of the quicksort moves index 9 in front of index 8,
    and the fused ordering has [f09] before [f08], against the aggregate
    ordering. *)
Lemma fused_ties_counterexample :
  let agg := eighteen_features in
  let topn := ["f00"; "f01"; "f02"; "f03"; "f04"; "f05"; "f06"; "f07"; "f09";
               "f08"; "f10"; "f11"; "f12"; "f13"; "f14"; "f15"; "f16"; "f17"]%string in
  let fused := topn in
  Np.aquicksort (Rank.avg_rank agg topn)
  = Some [0; 1; 2; 3; 4; 5; 6; 7; 9; 8; 10; 11; 12; 13; 14; 15; 16; 17] /\
  snd (@Rank.calculate_feature_importance (spec_sorting 10) numpy_argsort
         table_eighteen eighteen_features "out" 10 true)
  = Ok (agg, topn, fused) /\
  ~ ties_follow_aggregate agg topn fused.
Proof.
  split; [vm_compute; reflexivity|].
  split; [vm_compute; reflexivity|].
  intros H.
  specialize (H 8 9 "f09"%string "f08"%string).
  assert (E : Rank.mean_position eighteen_features
                ["f00"; "f01"; "f02"; "f03"; "f04"; "f05"; "f06"; "f07"; "f09";
                 "f08"; "f10"; "f11"; "f12"; "f13"; "f14"; "f15"; "f16"; "f17"]%string
                "f09"%string
              = Rank.mean_position eighteen_features
                ["f00"; "f01"; "f02"; "f03"; "f04"; "f05"; "f06"; "f07"; "f09";
                 "f08"; "f10"; "f11"; "f12"; "f13"; "f14"; "f15"; "f16"; "f17"]%string
                "f08"%string).
  { apply Qc_is_canon. vm_compute. reflexivity. }
  specialize (H ltac:(lia) eq_refl eq_refl E).
  vm_compute in H. lia.
Qed.

(** On three features with a tie the quicksort does not partition,
    and insertion keeps [a] before [b]. *)
Example fused_ties_stable :
  snd (@Rank.calculate_feature_importance (spec_sorting 1) stable_argsort
         table_tied three_features "out" 2 true)
  = Ok (["a"; "b"; "c"]%string, ["b"; "a"; "c"]%string, ["a"; "b"; "c"]%string).
Proof. vm_compute. reflexivity. Qed.

(** C3, amended: every feature is assigned the arithmetic mean of its
    position in the aggregate ordering and its position in the top-N
    ordering; the fused ordering lists the features ascending by this mean
    position (the order among features of equal mean position is whatever
    the index sort returns); and a feature that is first in both orderings
    is first in the fused ordering. *)
Theorem fused_ranking_by_mean_position
        {SO : Rank.Sorting} {AS : Np.Argsort}
        (learners : Pd.table) (xs : list feature) (outdir : string)
        (nq : Z) (plot : bool) :
  NoDup xs ->
  let agg := Rank.aggregate_sort learners xs in
  let topn := Rank.topn_sort learners xs in
  Rank.avg_rank agg topn = map (Rank.mean_position agg topn) agg /\
  exists fused,
    snd (Rank.calculate_feature_importance learners xs outdir nq plot)
    = Ok (agg, topn, fused) /\
    ascending_mean_position agg topn fused /\
    (forall f, hd_error agg = Some f -> hd_error topn = Some f ->
               hd_error fused = Some f).
Proof.
  intros Hn agg topn.
  destruct (sorting_nodup learners xs Hn) as [Na Pt]. fold agg topn in Na, Pt.
  split.
  - apply avg_rank_mean_position; [assumption| |].
    + eapply Permutation_NoDup; [symmetry; exact Pt|exact Na].
    + intros x Hx. eapply Permutation_in; [symmetry; exact Pt|exact Hx].
  - exists (fused_order agg topn). split; [|split].
    + now apply calculate_returns.
    + now apply fused_ascending.
    + intros f. now apply fused_first.
Qed.

Lemma fused_ranking_by_mean_position_witness :
  let agg := Rank.spec_aggregate_sort table_tied three_features in
  let topn := Rank.spec_topn_sort 1 table_tied three_features in
  Rank.avg_rank agg topn = map (Rank.mean_position agg topn) agg /\
  exists fused,
    snd (@Rank.calculate_feature_importance (spec_sorting 1) stable_argsort
           table_tied three_features "out" 2 true)
    = Ok (agg, topn, fused) /\
    ascending_mean_position agg topn fused /\
    (forall f, hd_error agg = Some f -> hd_error topn = Some f ->
               hd_error fused = Some f).
Proof.
  exact (@fused_ranking_by_mean_position (spec_sorting 1) stable_argsort
           table_tied three_features "out"%string 2%Z true three_features_nodup).
Defined.

(** C10: when the feature identifiers are distinct, so that both
    orderings are permutations of one duplicate-free feature set, the
    call returns, and the fused ordering it returns is a permutation of
    that set: same length, no duplicates, every feature exactly once. *)
Theorem fused_ranking_is_permutation
        {SO : Rank.Sorting} {AS : Np.Argsort}
        (learners : Pd.table) (xs : list feature) (outdir : string)
        (nq : Z) (plot : bool) :
  NoDup xs ->
  exists fused,
    snd (Rank.calculate_feature_importance learners xs outdir nq plot)
    = Ok (Rank.aggregate_sort learners xs, Rank.topn_sort learners xs, fused) /\
    Permutation fused xs /\
    length fused = length xs /\
    NoDup fused /\
    (forall x, In x xs -> count_occ string_dec fused x = 1).
Proof.
  intros Hn. destruct (sorting_nodup learners xs Hn) as [Na Pt].
  exists (fused_order (Rank.aggregate_sort learners xs) (Rank.topn_sort learners xs)).
  assert (P : Permutation
                (fused_order (Rank.aggregate_sort learners xs)
                             (Rank.topn_sort learners xs)) xs).
  { rewrite fused_perm by assumption. apply Rank.aggregate_sort_all. }
  assert (N : NoDup (fused_order (Rank.aggregate_sort learners xs)
                                 (Rank.topn_sort learners xs))).
  { eapply Permutation_NoDup; [symmetry; exact P|exact Hn]. }
  split; [now apply calculate_returns|].
  split; [exact P|]. split; [now apply Permutation_length|].
  split; [exact N|].
  intros x Hx. apply NoDup_count_occ'; [exact N|].
  eapply Permutation_in; [symmetry; exact P|exact Hx].
Qed.

Lemma fused_ranking_is_permutation_witness :
  exists fused,
    snd (@Rank.calculate_feature_importance (spec_sorting 1) stable_argsort
           table_split three_features "out" 2 true)
    = Ok (Rank.spec_aggregate_sort table_split three_features,
          Rank.spec_topn_sort 1 table_split three_features, fused) /\
    Permutation fused three_features /\
    length fused = length three_features /\
    NoDup fused /\
    (forall x, In x three_features -> count_occ string_dec fused x = 1).
Proof.
  exact (@fused_ranking_is_permutation (spec_sorting 1) stable_argsort
           table_split three_features "out"%string 2%Z true three_features_nodup).
Defined.

(** ** What a call of [fit_models] does to the process *)

Section EngineFacts.

Context {SK : Fit.Sklearn} {LS : Fit.LearnerSummary}.

Import Fit.

Lemma mbind_ok_inv {A B} (m : M A) (k : A -> M B) (w w' : world) (b : B) :
  mbind m k w = (Ok b, w') ->
  exists a w1, m w = (Ok a, w1) /\ k a w1 = (Ok b, w').
Proof.
  unfold mbind. destruct (m w) as [[a|e] w1]; intros H; [eauto|discriminate].
Qed.

Lemma lift_ok_inv {A} (r : result A) (w w' : world) (a : A) :
  lift r w = (Ok a, w') -> r = Ok a /\ w' = w.
Proof. unfold lift. intros H. injection H as -> ->. auto. Qed.

Lemma bind_ok_inv {A B} (r : result A) (k : A -> result B) (b : B) :
  Py.bind r k = Ok b -> exists a, r = Ok a /\ k a = Ok b.
Proof. destruct r; simpl; intros H; [eauto|discriminate]. Qed.

(** A computation that reads and writes the generator only: its
    outcome and the generator it leaves are functions of the generator
    it starts with, and standard output is handed on as found. *)
Definition rng_only {A} (m : M A) : Prop :=
  forall g, exists r g',
    forall out, m {| w_rng := g; w_stdout := out |}
                = (r, {| w_rng := g'; w_stdout := out |}).

Lemma rng_only_ret {A} (a : A) : rng_only (ret a).
Proof. intros g. exists (Ok a), g. reflexivity. Qed.

Lemma rng_only_lift {A} (r : result A) : rng_only (lift r).
Proof. intros g. exists r, g. reflexivity. Qed.

Lemma rng_only_bind {A B} (m : M A) (k : A -> M B) :
  rng_only m -> (forall a, rng_only (k a)) -> rng_only (mbind m k).
Proof.
  intros Hm Hk g. destruct (Hm g) as [r [g1 E]].
  destruct r as [a|e].
  - destruct (Hk a g1) as [r2 [g2 E2]]. exists r2, g2.
    intros out. unfold mbind. now rewrite E, E2.
  - exists (Raise e), g1. intros out. unfold mbind. now rewrite E.
Qed.

Lemma rng_only_fit (X : matrix) (y : list Z) : rng_only (clf_calib_fit X y).
Proof.
  intros g. unfold clf_calib_fit. cbn [w_rng w_stdout].
  destruct (fit g X y) as [r g']. exists r, g'. reflexivity.
Qed.

Lemma rng_only_seed (s : Z) : rng_only (np_random_seed s).
Proof. intros g. exists (Ok tt), (seed s). reflexivity. Qed.

Lemma rng_only_foldM {A B} (f : B -> A -> M B) (l : list A) :
  (forall b a, rng_only (f b a)) -> forall b, rng_only (foldM f b l).
Proof.
  intros Hf. induction l as [|a l IH]; intros b; simpl.
  - apply rng_only_ret.
  - apply rng_only_bind; [apply Hf|apply IH].
Qed.

Lemma rng_only_forM {A B} (f : A -> M B) (l : list A) :
  (forall a, rng_only (f a)) -> rng_only (forM f l).
Proof.
  intros Hf. induction l as [|a l IH]; simpl.
  - apply rng_only_ret.
  - apply rng_only_bind; [apply Hf|]. intros b.
    apply rng_only_bind; [apply IH|]. intros bs. apply rng_only_ret.
Qed.

Ltac rng_only_step :=
  first [ apply rng_only_ret | apply rng_only_lift | apply rng_only_fit
        | apply rng_only_seed
        | apply rng_only_bind; [|intros ?] ].

Lemma rng_only_fit_fold (X : matrix) (y : list Z) (l : Learner)
      (fold : list nat * list nat) :
  rng_only (fit_fold X y l fold).
Proof.
  unfold fit_fold. destruct fold as [idx_train idx_test].
  repeat rng_only_step.
Qed.

(** The pieces of a fold that went through: the model is fitted on the
    training part with the generator as the fold found it, and its
    sub-model importances are what the fold appends to [fi]. *)
Lemma fit_fold_ok_inv (X : matrix) (y : list Z) (l l' : Learner)
      (idx_train idx_test : list nat) (w w' : world) :
  fit_fold X y l (idx_train, idx_test) w = (Ok l', w') ->
  exists X_tr y_tr clf g',
    Np.take X idx_train = Ok X_tr /\ Np.take y idx_train = Ok y_tr /\
    fit (w_rng w) X_tr y_tr = (Ok clf, g') /\
    w' = {| w_rng := g'; w_stdout := w_stdout w |} /\
    dx l' = dx l /\ hc_n l' = hc_n l /\ dx_n l' = dx_n l /\
    fi l' = fi l ++ [feature_importances clf].
Proof.
  intros H. unfold fit_fold in H.
  apply mbind_ok_inv in H. destruct H as (X_tr & w1 & H1 & H).
  apply lift_ok_inv in H1. destruct H1 as [H1 ->].
  apply mbind_ok_inv in H. destruct H as (y_tr & w2 & H2 & H).
  apply lift_ok_inv in H2. destruct H2 as [H2 ->].
  apply mbind_ok_inv in H. destruct H as (X_te & w3 & H3 & H).
  apply lift_ok_inv in H3. destruct H3 as [H3 ->].
  apply mbind_ok_inv in H. destruct H as (y_te & w4 & H4 & H).
  apply lift_ok_inv in H4. destruct H4 as [H4 ->].
  apply mbind_ok_inv in H. destruct H as (clf & w5 & H5 & H).
  unfold clf_calib_fit in H5.
  destruct (fit (w_rng w) X_tr y_tr) as [r g'] eqn:Efit.
  injection H5 as -> <-.
  apply mbind_ok_inv in H. destruct H as (a1 & w6 & H6 & H).
  apply lift_ok_inv in H6. destruct H6 as [_ ->].
  apply mbind_ok_inv in H. destruct H as (a2 & w7 & H7 & H).
  apply lift_ok_inv in H7. destruct H7 as [_ ->].
  apply mbind_ok_inv in H. destruct H as (f1v & w8 & H8 & H).
  apply lift_ok_inv in H8. destruct H8 as [_ ->].
  apply mbind_ok_inv in H. destruct H as (rd & w9 & H9 & H).
  apply lift_ok_inv in H9. destruct H9 as [_ ->].
  apply mbind_ok_inv in H. destruct H as (sen1 & w10 & H10 & H).
  apply lift_ok_inv in H10. destruct H10 as [_ ->].
  apply mbind_ok_inv in H. destruct H as (spe0 & w11 & H11 & H).
  apply lift_ok_inv in H11. destruct H11 as [_ ->].
  apply mbind_ok_inv in H. destruct H as (lr & w12 & H12 & H).
  apply lift_ok_inv in H12. destruct H12 as [_ ->].
  injection H as <- <-.
  exists X_tr, y_tr, clf, g'. cbn [dx hc_n dx_n fi]. auto 10.
Qed.

Lemma rng_only_fit_one (df : Pd.dataset) (X : matrix) (xs : list feature)
      (y_name : diagnosis) :
  rng_only (fit_one df X xs y_name).
Proof.
  unfold fit_one. repeat rng_only_step.
  apply rng_only_foldM. intros. apply rng_only_fit_fold.
Qed.

(** After the seeding, nothing of the state in which the call started
    is left in the generator. *)
Lemma fit_models_after_seed (df : Pd.dataset) (xs : list feature)
      (ys : list diagnosis) (verbose : bool) :
  exists r g', forall w,
    fit_models df xs ys verbose w = (r, {| w_rng := g'; w_stdout := w_stdout w |}).
Proof.
  assert (H : rng_only
                (mbind (lift (Pd.values df xs)) (fun X =>
                 mbind (forM (fit_one df X xs) ys) (fun per =>
                 mbind (lift (let? s := Pd.concat_frames (map fst per) in
                              Pd.set_index "Dx" s)) (fun summaries =>
                 mbind (lift (Pd.set_index "Dx" (Pd.from_dict (map snd per))))
                       (fun learners => ret (learners, summaries))))))).
  { repeat rng_only_step. apply rng_only_forM. intros. apply rng_only_fit_one. }
  destruct (H (seed 42)) as [r [g' E]]. exists r, g'. intros w.
  unfold fit_models, mbind at 1, np_random_seed. apply E.
Qed.

End EngineFacts.

(** ** A stand-in for scikit-learn, to run the engine on small inputs *)

Module Stub.

Import Np Pd Fit.

(** [np.mean] on float64 values. *)
Definition fadd (x y : Np.float) : Np.float :=
  match x, y with
  | NaN, _ | _, NaN => NaN
  | PInf, NInf | NInf, PInf => NaN
  | PInf, _ | _, PInf => PInf
  | NInf, _ | _, NInf => NInf
  | Fin a, Fin b => Fin (a + b)%Qc
  end.

Definition fmean (l : list Np.float) : Np.float :=
  match l with
  | [] => NaN
  | _ =>
      match fold_right fadd (Fin 0%Qc) l with
      | Fin s => Fin (s / Qc_of_nat (length l))%Qc
      | other => other
      end
  end.

Definition uniform (f : nat) : list Qc := repeat (1 / Qc_of_nat f)%Qc f.

Definition parity_folds (n : nat) : list (list nat * list nat) :=
  [(filter Nat.odd (seq 0 n), filter Nat.even (seq 0 n));
   (filter Nat.even (seq 0 n), filter Nat.odd (seq 0 n))].

Definition agreement (y y' : list Z) : Np.float :=
  true_divide (Qc_of_nat (length (filter (fun p => Z.eqb (fst p) (snd p)) (combine y y'))))
              (Z.of_nat (length y)).

(** Two folds by index parity; a fitted model remembers the number of
    columns it saw, predicts class 1 everywhere and reports two
    sub-models of uniform importance; every fit draws once from the
    generator, whose state is the seed and the number of draws. *)
Definition sklearn : Sklearn :=
  {| rng := Z * nat;
     model := nat;
     seed := fun s => (s, 0);
     split := fun X _ => Ok (parity_folds (length X));
     fit := fun g X _ =>
              match Vec.width X with
              | 0 => (Raise ValueError, g)
              | S f => (Ok (S f), (fst g, S (snd g)))
              end;
     predict := fun _ X => map (fun _ => 1%Z) X;
     predict_proba := fun _ X => flat_map (fun _ => [Fin 0%Qc; Fin 1%Qc]) X;
     feature_importances := fun m => [uniform m; uniform m];
     accuracy_score := fun y y' => Ok (agreement y y');
     f1_score := fun y y' => Ok (agreement y y');
     classification_report := fun _ _ =>
       Ok [("0", [("recall", Fin 0%Qc)]); ("1", [("recall", Fin 1%Qc)])]%string;
     class_likelihood_ratios := fun _ _ => Ok (Fin 1%Qc, NaN) |}.

Definition summary_frame (l : Learner) : frame :=
  {| columns := ["Dx"; "HC n"; "Dx n"; "acc"; "F1"; "LR+"; "LR-"]%string;
     data := [[Some (CStr (dx l));
               Some (CNum (Fin (Qc_of_nat (hc_n l))));
               Some (CNum (Fin (Qc_of_nat (dx_n l))));
               Some (CNum (fmean (acc_valid l)));
               Some (CNum (fmean (f1 l)));
               Some (CNum (fmean (LRp l)));
               Some (CNum (fmean (LRn l)))]] |}.

Lemma summary_frame_one_row (l : Learner) :
  exists cols vals,
    summary_frame l = {| columns := "Dx"%string :: cols;
                         data := [Some (CStr (dx l)) :: vals] |}.
Proof. unfold summary_frame. eauto. Qed.

Definition learner_summary : LearnerSummary :=
  {| summary := summary_frame;
     summary_one_row := summary_frame_one_row;
     summary_labels := fun _ _ => eq_refl |}.

Definition bit (b : Z) : Qc := Qc_of_Z b.

(** Four records, three survey items, a diagnosis with both classes
    and one with no positive case. *)
Definition survey : dataset :=
  [("a", map bit [1; 0; 1; 0]);
   ("b", map bit [0; 0; 1; 1]);
   ("c", map bit [1; 1; 0; 1]);
   ("dx1", map bit [0; 1; 0; 1]);
   ("dx2", map bit [1; 1; 0; 0]);
   ("none", map bit [0; 0; 0; 0])]%string%Z.

(** Twenty records: two survey items, an item that is called "Dx",
    and a diagnosis with ten cases. *)
Definition cohort : dataset :=
  [("a", map bit [1; 0; 1; 0; 1; 0; 1; 0; 1; 0; 1; 0; 1; 0; 1; 0; 1; 0; 1; 0]);
   ("b", map bit [0; 0; 1; 1; 0; 0; 1; 1; 0; 0; 1; 1; 0; 0; 1; 1; 0; 0; 1; 1]);
   ("Dx", map bit [1; 1; 1; 0; 0; 0; 1; 1; 1; 0; 0; 0; 1; 1; 1; 0; 0; 0; 1; 1]);
   ("dx1", map bit [0; 0; 0; 0; 0; 0; 0; 0; 0; 0; 1; 1; 1; 1; 1; 1; 1; 1; 1; 1])]%string%Z.

Definition fresh (s : Z) : @world sklearn :=
  @Build_world sklearn (s, 0) [].

End Stub.

(** ** Effects of [fit_models] *)

(** C7, as the claim states it, fails: the call reseeds the process-wide
    generator.  Started with the generator seeded with 7, the call leaves
    it seeded with 42 and advanced by the fits. *)
Lemma fit_models_reseeds_counterexample :
  Fit.w_rng (snd (@Fit.fit_models Stub.sklearn Stub.learner_summary
                    Stub.survey ["a"; "b"; "c"]%string ["dx1"]%string true
                    (Stub.fresh 7)))
  <> Fit.w_rng (Stub.fresh 7).
Proof. vm_compute. intros H. discriminate H. Qed.

(** C7, amended: a call to [fit_models] writes nothing to standard
    output, and its only effect on global state is on the process-wide
    random generator, which it reseeds with 42 and which its fits then
    advance: the returned tables (or the exception) and the generator
    state left behind are the same whatever state the generator was in
    before the call. *)
Theorem fit_models_effects
        {SK : Fit.Sklearn} {LS : Fit.LearnerSummary}
        (df : Pd.dataset) (xs : list feature) (ys : list diagnosis)
        (verbose : bool) (w w' : Fit.world) :
  Fit.w_stdout (snd (Fit.fit_models df xs ys verbose w)) = Fit.w_stdout w /\
  fst (Fit.fit_models df xs ys verbose w) = fst (Fit.fit_models df xs ys verbose w') /\
  Fit.w_rng (snd (Fit.fit_models df xs ys verbose w))
  = Fit.w_rng (snd (Fit.fit_models df xs ys verbose w')).
Proof.
  destruct (fit_models_after_seed df xs ys verbose) as [r [g' E]].
  rewrite (E w), (E w'). simpl. auto.
Qed.

(** ** A diagnosis with a single class *)

Lemma unique_counts_single_from (y : list Z) (c : Z) (acc : list (Z * nat)) :
  (forall v, In v y -> v = c) ->
  acc = [] \/ (exists k, acc = [(c, k)]) ->
  length (fold_left (fun a v => Np.bump v a) y acc) <= 1.
Proof.
  revert acc; induction y as [|v y IH]; intros acc Hy Hacc; simpl.
  - destruct Hacc as [->|[k ->]]; simpl; lia.
  - assert (v = c) by (apply Hy; now left). subst v.
    apply IH; [intros; apply Hy; now right|].
    right. destruct Hacc as [->|[k ->]]; simpl.
    + eauto.
    + rewrite Z.ltb_irrefl, Z.eqb_refl. eauto.
Qed.

Lemma unique_counts_single (y : list Z) (c : Z) :
  (forall v, In v y -> v = c) -> length (Np.unique_counts y) <= 1.
Proof. intros H. apply (unique_counts_single_from y c []); auto. Qed.

Section SingleClass.

Context {SK : Fit.Sklearn} {LS : Fit.LearnerSummary}.

Import Fit.

Lemma fit_one_single_class (df : Pd.dataset) (X : matrix) (xs : list feature)
      (y_name : diagnosis) (y : list Z) (c : Z) (w : world) :
  Pd.int_column df y_name = Ok y ->
  (forall v, In v y -> v = c) ->
  fit_one df X xs y_name w = (Raise IndexError, w).
Proof.
  intros Hy Hc. unfold fit_one, mbind at 1, lift at 1. rewrite Hy.
  pose proof (unique_counts_single y c Hc) as Hl.
  rewrite <- (length_map snd) in Hl.
  destruct (map snd (Np.unique_counts y)) as [|n0 [|n1 rest]]; simpl in Hl.
  - reflexivity.
  - reflexivity.
  - lia.
Qed.

Lemma forM_raise_at {A B} (f : A -> M B) (l1 l2 : list A) (a : A) :
  (forall w, exists e, f a w = (Raise e, w)) ->
  forall w, exists e w', forM f (l1 ++ a :: l2) w = (Raise e, w').
Proof.
  intros Hf. induction l1 as [|x l1 IH]; intros w; simpl.
  - destruct (Hf w) as [e E]. exists e, w. unfold mbind. now rewrite E.
  - unfold mbind at 1. destruct (f x w) as [[b|e] w1]; [|eauto].
    destruct (IH w1) as [e [w' E]]. exists e, w'.
    unfold mbind at 1. now rewrite E.
Qed.

Lemma mbind_raise {A B} (m : M A) (k : A -> M B) (w w' : world) (e : exn) :
  m w = (Raise e, w') -> mbind m k w = (Raise e, w').
Proof. intros H. unfold mbind. now rewrite H. Qed.

End SingleClass.

(** C2, as the claim states it, fails: with a diagnosis column without
    a positive case first in the list, the call raises [IndexError]
    where the second class count is read; nothing is recorded as
    not-a-number, no model is fitted (the generator is as the seeding
    left it) and the diagnosis after it is not reached. *)
Lemma single_class_counterexample :
  @Fit.fit_models Stub.sklearn Stub.learner_summary
     Stub.survey ["a"; "b"; "c"]%string ["none"; "dx1"]%string true
     (Stub.fresh 7)
  = (Raise IndexError, @Fit.Build_world Stub.sklearn (42%Z, 0) []).
Proof. vm_compute. reflexivity. Qed.

(** C2, amended: when a diagnosis column has all its samples in one
    class, [fit_models] raises and returns no tables; when that diagnosis
    is the first one, the exception is the index fault of reading the
    second class count, raised before any model is fitted. *)
Theorem single_class_diagnosis_raises
        {SK : Fit.Sklearn} {LS : Fit.LearnerSummary}
        (df : Pd.dataset) (xs : list feature)
        (before after : list diagnosis) (y_name : diagnosis)
        (verbose : bool) (w : Fit.world) (y : list Z) (c : Z) :
  Pd.int_column df y_name = Ok y ->
  (forall v, In v y -> v = c) ->
  (exists e, fst (Fit.fit_models df xs (before ++ y_name :: after) verbose w)
             = Raise e) /\
  (forall X, Pd.values df xs = Ok X ->
             Fit.fit_models df xs (y_name :: after) verbose w
             = (Raise IndexError,
                {| Fit.w_rng := Fit.seed 42; Fit.w_stdout := Fit.w_stdout w |})).
Proof.
  intros Hy Hc. split.
  - unfold Fit.fit_models, Fit.mbind at 1, Fit.np_random_seed.
    unfold Fit.mbind at 1, Fit.lift at 1.
    destruct (Pd.values df xs) as [X|e]; [|simpl; eauto].
    destruct (forM_raise_at (Fit.fit_one df X xs) before after y_name) with
      (w := {| Fit.w_rng := Fit.seed 42; Fit.w_stdout := Fit.w_stdout w |})
      as [e [w' E]].
    + intros w0. exists IndexError. eapply fit_one_single_class; eassumption.
    + exists e. erewrite mbind_raise by exact E. reflexivity.
  - intros X HX.
    unfold Fit.fit_models, Fit.mbind at 1, Fit.np_random_seed.
    unfold Fit.mbind at 1, Fit.lift at 1. rewrite HX.
    apply mbind_raise. simpl. apply mbind_raise.
    eapply fit_one_single_class; eassumption.
Qed.

Lemma single_class_diagnosis_raises_witness :
  (exists e, fst (@Fit.fit_models Stub.sklearn Stub.learner_summary
                    Stub.survey ["a"; "b"; "c"]%string
                    ([] ++ "none"%string :: ["dx2"%string]) true (Stub.fresh 7))
             = Raise e) /\
  (forall X, Pd.values Stub.survey ["a"; "b"; "c"]%string = Ok X ->
             @Fit.fit_models Stub.sklearn Stub.learner_summary
                Stub.survey ["a"; "b"; "c"]%string ("none" :: ["dx2"])%string true
                (Stub.fresh 7)
             = (Raise IndexError,
                @Fit.Build_world Stub.sklearn (@Fit.seed Stub.sklearn 42)
                                 (Fit.w_stdout (Stub.fresh 7)))).
Proof.
  apply (@single_class_diagnosis_raises Stub.sklearn Stub.learner_summary
           Stub.survey ["a"; "b"; "c"]%string [] ["dx2"]%string
           "none"%string true (Stub.fresh 7) [0; 0; 0; 0]%Z 0%Z).
  - vm_compute. reflexivity.
  - simpl. intuition.
Defined.

(** ** Empty identifier sequences and an oversized top_n *)

Lemma fit_models_no_diagnoses
      {SK : Fit.Sklearn} {LS : Fit.LearnerSummary}
      (df : Pd.dataset) (xs : list feature) (verbose : bool) (w : Fit.world) :
  exists e,
    Fit.fit_models df xs [] verbose w
    = (Raise e, {| Fit.w_rng := Fit.seed 42; Fit.w_stdout := Fit.w_stdout w |}).
Proof.
  unfold Fit.fit_models, Fit.mbind at 1, Fit.np_random_seed.
  unfold Fit.mbind at 1, Fit.lift at 1.
  destruct (Pd.values df xs) as [X|e]; [|eauto].
  exists ValueError. reflexivity.
Qed.

Lemma slice_to_all {A} (k : Z) (l : list A) :
  (Z.of_nat (length l) <= k)%Z -> Py.slice_to k l = l.
Proof.
  intros H. unfold Py.slice_to. destruct (Z.ltb_spec k 0); [lia|].
  apply firstn_all2. lia.
Qed.





(** ** Column means *)


Lemma total_scale {A} (c : A -> Qc) (k : Qc) (l : list A) :
  Vec.total (map (fun x => c x / k)%Qc l) = (Vec.total (map c l) / k)%Qc.
Proof.
  induction l as [|x l IH]; simpl.
  - unfold Qcdiv. now rewrite Qcmult_0_l.
  - rewrite IH. unfold Qcdiv. now rewrite Qcmult_plus_distr_l.
Qed.


Lemma vadd_pointwise (r : list Qc) (g : nat -> Qc) (f : nat) :
  length r = f ->
  Vec.vadd r (map g (seq 0 f)) = map (fun j => (nth j r 0 + g j)%Qc) (seq 0 f).
Proof.
  intros <-. unfold Vec.vadd.
  rewrite <- (map_nth_seq r 0%Qc) at 1.
  rewrite combine_map_same, map_map. reflexivity.
Qed.

Lemma repeat_map_seq {A} (c : A) (f s : nat) :
  repeat c f = map (fun _ => c) (seq s f).
Proof. revert s; induction f as [|f IH]; intros s; simpl; [|rewrite <- IH]; reflexivity. Qed.

Lemma col_sums_pointwise (f : nat) (m : list (list Qc)) :
  rows_ok f m -> Vec.col_sums f m = map (fun j => colsum j m) (seq 0 f).
Proof.
  unfold Vec.col_sums, colsum. induction 1 as [|r m Hr Hm IH]; simpl.
  - apply repeat_map_seq.
  - rewrite IH. now apply vadd_pointwise.
Qed.

Lemma width_rows_ok (f : nat) (m : list (list Qc)) :
  m <> [] -> rows_ok f m -> Vec.width m = f.
Proof. intros Hm H. destruct H; [congruence|assumption]. Qed.

Lemma mean_axis0_pointwise (f : nat) (m : list (list Qc)) :
  m <> [] -> rows_ok f m ->
  Vec.mean_axis0 m
  = map (fun j => (colsum j m / Qc_of_nat (length m))%Qc) (seq 0 f).
Proof.
  intros Hm H. unfold Vec.mean_axis0.
  rewrite (width_rows_ok f m Hm H), col_sums_pointwise by assumption.
  now rewrite map_map.
Qed.

Lemma mean_axis0_length (f : nat) (m : list (list Qc)) :
  m <> [] -> rows_ok f m -> length (Vec.mean_axis0 m) = f.
Proof.
  intros Hm H. rewrite (mean_axis0_pointwise f m Hm H).
  now rewrite length_map, length_seq.
Qed.



Lemma Qc_of_nat_nonzero (a : nat) : 0 < a -> Qc_of_nat a <> 0%Qc.
Proof.
  intros H E.
  assert (L : (Qc_of_nat a <= Qc_of_nat 0)%Qc) by (rewrite E; apply Qcle_refl).
  apply Qc_of_nat_le in L. lia.
Qed.


Lemma atleast_2d_regular (f : nat) (b : list (list Qc)) :
  b <> [] -> rows_ok f b -> Vec.atleast_2d b = Ok b.
Proof.
  intros Hb H. destruct b as [|v vs]; [congruence|]. simpl.
  inversion H as [|? ? Hv Hvs]; subst.
  replace (forallb (fun u => length u =? length v) vs) with true; [reflexivity|].
  symmetry. apply forallb_forall. intros u Hu. apply Nat.eqb_eq.
  rewrite Forall_forall in Hvs. now apply Hvs.
Qed.




(** ** Normalised importance vectors *)

Lemma good_block_rows (f : nat) (b : list (list Qc)) :
  Forall (good_vec f) b -> rows_ok f b.
Proof. apply Forall_impl. now intros v [H _]. Qed.

Lemma good_blocks_concat (f : nat) (fi : list (list (list Qc))) :
  fi <> [] -> Forall (good_block f) fi ->
  concat fi <> [] /\ Forall (good_vec f) (concat fi).
Proof.
  intros Hne H. split.
  - destruct H as [|b fi [Hb _] _]; [congruence|].
    simpl. destruct b; [congruence|discriminate].
  - clear Hne. induction H as [|b fi [_ Hb] _ IH]; simpl; [constructor|].
    now apply Forall_app.
Qed.

Lemma vstack_good (f : nat) (fi : list (list (list Qc))) :
  fi <> [] -> Forall (good_block f) fi -> Vec.vstack fi = Ok (concat fi).
Proof.
  intros Hfi H. unfold Vec.vstack.
  destruct fi as [|b0 fi0] eqn:E; [congruence|]. rewrite <- E in *.
  assert (Hmap : mapM Vec.atleast_2d fi = Ok fi).
  { rewrite <- (map_id fi) at 2. apply mapM_ok_map.
    intros b Hb. rewrite Forall_forall in H. destruct (H b Hb) as [Hn Hr].
    apply (atleast_2d_regular f); [assumption|now apply good_block_rows]. }
  rewrite Hmap. simpl.
  destruct (good_blocks_concat f fi Hfi H) as [Hne Hg].
  apply good_block_rows in Hg.
  rewrite (width_rows_ok f _ Hne Hg).
  replace (forallb (fun r => length r =? f) (concat fi)) with true; [reflexivity|].
  symmetry. apply forallb_forall. intros r Hin. apply Nat.eqb_eq.
  unfold rows_ok in Hg. rewrite Forall_forall in Hg. now apply Hg.
Qed.

Lemma total_nonneg (v : list Qc) :
  Forall (fun q => (0 <= q)%Qc) v -> (0 <= Vec.total v)%Qc.
Proof.
  induction 1 as [|q v Hq Hv IH]; simpl; [apply Qcle_refl|].
  rewrite <- (Qcplus_0_l 0). now apply Qcplus_le_compat.
Qed.

Lemma nth_nonneg (v : list Qc) (j : nat) :
  Forall (fun q => (0 <= q)%Qc) v -> (0 <= nth j v 0)%Qc.
Proof.
  intros H. destruct (Nat.lt_ge_cases j (length v)) as [L|L].
  - rewrite Forall_forall in H. apply H. now apply nth_In.
  - rewrite nth_overflow by assumption. apply Qcle_refl.
Qed.

Lemma total_pointwise_add {A} (a b : A -> Qc) (l : list A) :
  Vec.total (map (fun x => a x + b x)%Qc l)
  = (Vec.total (map a l) + Vec.total (map b l))%Qc.
Proof.
  induction l as [|x l IH]; simpl; [now rewrite Qcplus_0_l|].
  rewrite IH. ring.
Qed.

Lemma total_colsums (f : nat) (m : list (list Qc)) :
  Forall (good_vec f) m ->
  Vec.total (map (fun j => colsum j m) (seq 0 f)) = Qc_of_nat (length m).
Proof.
  induction 1 as [|r m [Hl [_ Ht]] Hm IH].
  - unfold colsum. simpl. rewrite <- (repeat_map_seq 0%Qc f 0).
    clear. induction f as [|f IH]; simpl; [reflexivity|].
    rewrite IH. apply Qcplus_0_l.
  - rewrite (map_ext (fun j => colsum j (r :: m))
                     (fun j => (nth j r 0 + colsum j m)%Qc))
      by (intros j; reflexivity).
    rewrite (total_pointwise_add (fun j => nth j r 0%Qc) (fun j => colsum j m)).
    rewrite IH, <- Hl, map_nth_seq, Ht.
    change (length (r :: m)) with (1 + length m). rewrite Qc_of_nat_add.
    reflexivity.
Qed.

(** The column means of normalised vectors are normalised. *)
Lemma mean_axis0_good (f : nat) (m : list (list Qc)) :
  m <> [] -> Forall (good_vec f) m -> good_vec f (Vec.mean_axis0 m).
Proof.
  intros Hne H. pose proof (good_block_rows f m H) as Hr.
  assert (Hlen : 0 < length m) by (destruct m; [congruence|simpl; lia]).
  pose proof (Qc_of_nat_nonzero _ Hlen) as Hnz.
  assert (Hpos : (0 <= / Qc_of_nat (length m))%Qc).
  { assert (L : (0 <= Qc_of_nat (length m))%Qc).
    { change 0%Qc with (Qc_of_nat 0). apply Qc_of_nat_le. lia. }
    destruct (Qclt_le_dec (/ Qc_of_nat (length m)) 0) as [Hlt|]; [|assumption].
    exfalso.
    assert (C : (/ Qc_of_nat (length m) * Qc_of_nat (length m)
                 <= 0 * Qc_of_nat (length m))%Qc).
    { apply Qcmult_le_compat_r; [now apply Qclt_le_weak|assumption]. }
    rewrite Qcmult_inv_l, Qcmult_0_l in C by assumption.
    revert C. apply Qclt_not_le. reflexivity. }
  split; [now apply mean_axis0_length|]. split.
  - rewrite (mean_axis0_pointwise f m) by assumption.
    apply Forall_map, Forall_forall. intros j _.
    unfold Qcdiv. rewrite <- (Qcmult_0_l (/ Qc_of_nat (length m))).
    apply Qcmult_le_compat_r; [|assumption].
    unfold colsum. apply total_nonneg, Forall_map.
    eapply Forall_impl; [|exact H]. intros r [_ [Hn _]]. now apply nth_nonneg.
  - rewrite (mean_axis0_pointwise f m) by assumption.
    rewrite (total_scale (fun j => colsum j m)), total_colsums by assumption.
    unfold Qcdiv. now apply Qcmult_inv_r.
Qed.

(** ** Assembling the tables *)

Lemma union_labels_fold (ls : list (list string)) :
  Pd.union_labels ls = fold_left (fun acc l => fold_left add_label l acc) ls [].
Proof. reflexivity. Qed.

Lemma add_labels_fresh (l acc : list string) :
  NoDup (acc ++ l) -> fold_left add_label l acc = acc ++ l.
Proof.
  revert acc; induction l as [|k l IH]; intros acc H; simpl.
  - now rewrite app_nil_r.
  - assert (Hk : Pd.mem k acc = false).
    { apply mem_false. intros Hin. apply NoDup_remove_2 in H.
      apply H, in_or_app. now left. }
    unfold add_label at 2. rewrite Hk.
    rewrite IH; rewrite <- app_assoc; [reflexivity|exact H].
Qed.

Lemma add_labels_known (l acc : list string) :
  incl l acc -> fold_left add_label l acc = acc.
Proof.
  induction l as [|k l IH]; intros H; simpl; [reflexivity|].
  assert (Hk : Pd.mem k acc = true) by (apply mem_In, H; now left).
  unfold add_label at 2. rewrite Hk. apply IH.
  intros x Hx. apply H. now right.
Qed.

Lemma add_labels_superset (l acc : list string) :
  incl acc (fold_left add_label l acc) /\ incl l (fold_left add_label l acc).
Proof.
  revert acc; induction l as [|k l IH]; intros acc; simpl.
  - split; [apply incl_refl|intros x []].
  - destruct (IH (add_label acc k)) as [H1 H2].
    assert (Ha : incl acc (add_label acc k)).
    { unfold add_label. destruct (Pd.mem k acc); [apply incl_refl|].
      apply incl_appl, incl_refl. }
    assert (Hk : In k (add_label acc k)).
    { unfold add_label. destruct (Pd.mem k acc) eqn:E; [now apply mem_In|].
      apply in_or_app. right. now left. }
    split.
    + eapply incl_tran; eassumption.
    + intros x [<-|Hx]; [now apply H1|now apply H2].
Qed.

Lemma union_labels_same (K : list string) (ls : list (list string)) :
  ls <> [] -> Forall (eq K) ls ->
  Pd.union_labels ls = fold_left add_label K [].
Proof.
  intros Hne H. rewrite union_labels_fold.
  destruct H as [|l ls <- Hls]; [congruence|]. simpl.
  assert (Hin : incl K (fold_left add_label K [])) by apply add_labels_superset.
  revert Hin. generalize (fold_left add_label K []). clear Hne.
  induction Hls as [|l ls <- Hls IH]; intros acc Hin; simpl; [reflexivity|].
  rewrite add_labels_known by assumption. now apply IH.
Qed.

Lemma union_labels_same_nodup (K : list string) (ls : list (list string)) :
  ls <> [] -> Forall (eq K) ls -> NoDup K -> Pd.union_labels ls = K.
Proof.
  intros Hne H Hn. rewrite (union_labels_same K) by assumption.
  now rewrite add_labels_fresh.
Qed.

Lemma dict_set_fresh (k : string) (v : Pd.cell) (d : Pd.dict) :
  ~ In k (Pd.keys d) -> Pd.dict_set k v d = d ++ [(k, v)].
Proof.
  induction d as [|[k' v'] d IH]; intros H; simpl; [reflexivity|].
  destruct (String.eqb_spec k k') as [->|N].
  - elim H. now left.
  - rewrite IH; [reflexivity|]. intros Hin. apply H. now right.
Qed.

Lemma dict_sets_fresh (ps : list (string * Qc)) (d : Pd.dict) :
  NoDup (Pd.keys d ++ map fst ps) ->
  fold_left (fun acc p => Pd.dict_set (fst p) (Pd.CNum (Np.Fin (snd p))) acc) ps d
  = d ++ map (fun p => (fst p, number (snd p))) ps.
Proof.
  revert d; induction ps as [|[k q] ps IH]; intros d H; simpl.
  - now rewrite app_nil_r.
  - simpl in H. rewrite dict_set_fresh.
    + rewrite IH; [now rewrite <- app_assoc|].
      unfold Pd.keys in *. rewrite map_app, <- app_assoc. exact H.
    + apply NoDup_remove_2 in H. intros Hin. apply H, in_or_app. now left.
Qed.

Lemma map_fst_combine_same {A B} (xs : list A) (ys : list B) :
  length ys = length xs -> map fst (combine xs ys) = xs.
Proof.
  revert ys; induction xs as [|x xs IH]; intros [|y ys] H; simpl in *;
    try discriminate; try reflexivity.
  f_equal. apply IH. lia.
Qed.

Lemma combine_map_r {A B C} (g : B -> C) (xs : list A) (ys : list B) :
  map (fun p => (fst p, g (snd p))) (combine xs ys) = combine xs (map g ys).
Proof.
  revert ys; induction xs as [|x xs IH]; intros [|y ys]; simpl; try reflexivity.
  f_equal. apply IH.
Qed.

Lemma importance_row_fresh (d : diagnosis) (xs : list feature) (means : list Qc) :
  NoDup xs -> ~ In "Dx"%string xs -> length means = length xs ->
  Fit.importance_row d xs means
  = ("Dx"%string, Pd.CStr d) :: combine xs (map number means).
Proof.
  intros Hn Hd Hl. unfold Fit.importance_row.
  rewrite dict_sets_fresh.
  - simpl. f_equal. apply combine_map_r.
  - simpl. rewrite map_fst_combine_same by assumption. now constructor.
Qed.

Lemma dict_get_combine (xs : list string) (cells : list Pd.cell) :
  NoDup xs -> length cells = length xs ->
  map (fun c => Pd.dict_get c (combine xs cells)) xs = map Some cells.
Proof.
  intros Hn. revert cells. induction Hn as [|x xs Hx Hn IH];
    intros [|v cells] Hl; simpl in *; try discriminate; try reflexivity.
  rewrite String.eqb_refl. f_equal.
  rewrite <- IH by lia. apply map_ext_in. intros c Hc.
  destruct (String.eqb_spec c x) as [->|N]; [contradiction|reflexivity].
Qed.

Lemma row_dict_keys (xs : list feature) (y : diagnosis) (means : list Qc) :
  length means = length xs -> Pd.keys (row_dict xs y means) = "Dx"%string :: xs.
Proof.
  intros H. unfold row_dict, Pd.keys. simpl. f_equal.
  apply map_fst_combine_same. now rewrite length_map.
Qed.

Lemma row_dict_cells (xs : list feature) (y : diagnosis) (means : list Qc) :
  NoDup xs -> ~ In "Dx"%string xs -> length means = length xs ->
  map (fun c => Pd.dict_get c (row_dict xs y means)) ("Dx"%string :: xs)
  = Some (Pd.CStr y) :: map (fun q => Some (number q)) means.
Proof.
  intros Hn Hd Hl. unfold row_dict. simpl. f_equal.
  transitivity (map Some (map number means)); [|now rewrite map_map].
  rewrite <- (dict_get_combine xs (map number means))
    by (assumption || now rewrite length_map).
  apply map_ext_in. intros c Hc.
  destruct (String.eqb_spec c "Dx") as [->|N]; [contradiction|reflexivity].
Qed.

(** The frame and the indexed table built from rows of one layout. *)
Lemma from_dict_rows (xs : list feature) (rows : list (diagnosis * list Qc)) :
  NoDup xs -> ~ In "Dx"%string xs -> rows <> [] ->
  Forall (fun r => length (snd r) = length xs) rows ->
  Pd.set_index "Dx"
    (Pd.from_dict (map (fun r => row_dict xs (fst r) (snd r)) rows))
  = Ok {| Pd.t_index := map (fun r => Some (Pd.CStr (fst r))) rows;
          Pd.t_columns := xs;
          Pd.t_data := map (fun r => map (fun q => Some (number q)) (snd r)) rows |}.
Proof.
  intros Hn Hd Hne Hl. unfold Pd.from_dict.
  assert (Hcols : Pd.union_labels
                    (map Pd.keys (map (fun r => row_dict xs (fst r) (snd r)) rows))
                  = "Dx"%string :: xs).
  { apply union_labels_same_nodup.
    - destruct rows; [congruence|discriminate].
    - rewrite map_map. apply Forall_map.
      eapply Forall_impl; [|exact Hl]. intros r Hr. cbv beta.
      symmetry. now apply row_dict_keys.
    - now constructor. }
  rewrite Hcols. unfold Pd.set_index. cbn [Pd.columns Pd.data Pd.index_of].
  rewrite String.eqb_refl. rewrite Forall_forall in Hl.
  f_equal. f_equal; rewrite !map_map; apply map_ext_in; intros r Hr;
    rewrite row_dict_cells by auto; reflexivity.
Qed.

Lemma set_index_lengths (k : string) (fr : Pd.frame) (t : Pd.table) :
  Pd.set_index k fr = Ok t ->
  length (Pd.t_index t) = length (Pd.data fr) /\
  length (Pd.t_data t) = length (Pd.data fr).
Proof.
  unfold Pd.set_index. destruct (Pd.index_of k (Pd.columns fr)); [|discriminate].
  intros H. injection H as <-. simpl. now rewrite !length_map.
Qed.

Lemma concat_frames_rows (fs : list Pd.frame) (fr : Pd.frame) :
  Pd.concat_frames fs = Ok fr ->
  Forall (fun f => length (Pd.data f) = 1) fs ->
  length (Pd.data fr) = length fs.
Proof.
  unfold Pd.concat_frames. destruct fs as [|f0 fs0] eqn:E; [discriminate|].
  rewrite <- E. clear E. intros H Hone. injection H as <-. simpl.
  generalize (Pd.union_labels (map Pd.columns fs)). intros cols.
  induction Hone as [|f fs Hf Hfs IH]; simpl; [reflexivity|].
  rewrite length_app, length_map, Hf, IH. reflexivity.
Qed.

(** ** The tables returned by [fit_models] *)

Section Tables.

Context {SK : Fit.Sklearn} {LS : Fit.LearnerSummary}.

Import Fit.

Lemma values_rows_ok (df : Pd.dataset) (xs : list feature) (X : matrix) :
  Pd.values df xs = Ok X -> rows_ok (length xs) X.
Proof.
  unfold Pd.values. intros H. apply bind_ok_inv in H.
  destruct H as [cols [Hc H]]. injection H as <-.
  apply mapM_ok_inv, Forall2_length_eq in Hc.
  unfold rows_ok. apply Forall_map, Forall_forall. intros r _.
  now rewrite length_map.
Qed.

Lemma take_members {A} (l l' : list A) (idx : list nat) :
  Np.take l idx = Ok l' -> incl l' l.
Proof.
  unfold Np.take. intros H. apply mapM_ok_inv in H.
  induction H as [|i x idx l' Hi H IH]; intros z Hz; [contradiction|].
  destruct Hz as [<-|Hz]; [|now apply IH].
  destruct (nth_error l i) eqn:E; [|discriminate].
  injection Hi as <-. eapply nth_error_In; eassumption.
Qed.

Lemma take_rows_ok (f : nat) (X X' : matrix) (idx : list nat) :
  Np.take X idx = Ok X' -> rows_ok f X -> rows_ok f X'.
Proof.
  intros H Hr. unfold rows_ok in *. rewrite Forall_forall in *.
  intros r Hin. apply Hr. eapply take_members; eassumption.
Qed.

Lemma forM_ok_inv {A B} (g : A -> M B) (l : list A) (bs : list B) (w w' : world) :
  forM g l w = (Ok bs, w') ->
  Forall2 (fun a b => exists w1 w2, g a w1 = (Ok b, w2)) l bs.
Proof.
  revert bs w w'; induction l as [|a l IH]; intros bs w w' H; simpl in H.
  - injection H as <- _. constructor.
  - apply mbind_ok_inv in H. destruct H as (b & w1 & Hb & H).
    apply mbind_ok_inv in H. destruct H as (bs' & w2 & Hbs & H).
    injection H as <- _. constructor; eauto.
Qed.

Lemma foldM_invariant {A B} (P : B -> Prop) (g : B -> A -> M B) (l : list A) :
  (forall b a w b' w', P b -> g b a w = (Ok b', w') -> P b') ->
  forall b w b' w', P b -> foldM g b l w = (Ok b', w') -> P b'.
Proof.
  intros Hg. induction l as [|a l IH]; intros b w b' w' Hb H; simpl in H.
  - injection H as <- _. exact Hb.
  - apply mbind_ok_inv in H. destruct H as (b1 & w1 & H1 & H).
    eapply IH; [|exact H]. eapply Hg; eassumption.
Qed.

Variable f : nat.
Hypothesis normalised : importances_normalised f.

(** What the loop over the folds maintains. *)
Definition learner_ok (d : diagnosis) (l : Learner) : Prop :=
  dx l = d /\ Forall (good_block f) (fi l).

Lemma fit_fold_ok (X : matrix) (y : list Z) (d : diagnosis) (l l' : Learner)
      (fold : list nat * list nat) (w w' : world) :
  rows_ok f X -> learner_ok d l ->
  fit_fold X y l fold w = (Ok l', w') -> learner_ok d l'.
Proof.
  intros HX [Hd Hfi] H. destruct fold as [idx_train idx_test].
  apply fit_fold_ok_inv in H.
  destruct H as (X_tr & y_tr & clf & g' & H1 & _ & Efit & _ & Edx & _ & _ & Efi).
  split; [congruence|]. rewrite Efi.
  apply Forall_app. split; [exact Hfi|]. constructor; [|constructor].
  eapply normalised; [exact Efit|].
  eapply take_rows_ok; eassumption.
Qed.

Lemma fit_one_ok (df : Pd.dataset) (X : matrix) (xs : list feature)
      (y_name : diagnosis) (s : Pd.frame) (row : Pd.dict) (w w' : world) :
  length xs = f -> NoDup xs -> ~ In "Dx"%string xs -> rows_ok f X ->
  fit_one df X xs y_name w = (Ok (s, row), w') ->
  (exists l, s = summary l) /\
  exists means, row = row_dict xs y_name means /\ good_vec f means.
Proof.
  intros Hf Hn Hd HX H. unfold fit_one in H.
  apply mbind_ok_inv in H. destruct H as (y & w1 & H1 & H).
  apply mbind_ok_inv in H. destruct H as (hc & w2 & H2 & H).
  apply mbind_ok_inv in H. destruct H as (pt & w3 & H3 & H).
  apply mbind_ok_inv in H. destruct H as (folds & w4 & H4 & H).
  apply mbind_ok_inv in H. destruct H as (l & w5 & H5 & H).
  apply mbind_ok_inv in H. destruct H as (means & w6 & H6 & H).
  injection H as <- <- _.
  assert (Hl : learner_ok y_name l).
  { eapply (foldM_invariant (learner_ok y_name)); [| |exact H5].
    - intros b a w0 b' w0' Hb Hstep. eapply fit_fold_ok; eassumption.
    - split; [reflexivity|constructor]. }
  destruct Hl as [Hdx Hfi].
  apply lift_ok_inv in H6. destruct H6 as [H6 _].
  unfold importance_means in H6. apply bind_ok_inv in H6.
  destruct H6 as (m & Hm & H6). injection H6 as <-.
  assert (Hne : fi l <> []).
  { intros E. rewrite E in Hm. discriminate. }
  rewrite (vstack_good f) in Hm by assumption. injection Hm as <-.
  destruct (good_blocks_concat f (fi l) Hne Hfi) as [Hc Hg].
  pose proof (mean_axis0_good f (concat (fi l)) Hc Hg) as Hgood.
  split; [eauto|].
  exists (Vec.mean_axis0 (concat (fi l))). split; [|exact Hgood].
  rewrite Hdx. apply importance_row_fresh; try assumption.
  destruct Hgood as [Hlen _]. congruence.
Qed.

End Tables.

Section RowCounts.

Context {SK : Fit.Sklearn} {LS : Fit.LearnerSummary}.

Import Fit.

Lemma fit_one_summary (df : Pd.dataset) (X : matrix) (xs : list feature)
      (y_name : diagnosis) (s : Pd.frame) (row : Pd.dict) (w w' : world) :
  fit_one df X xs y_name w = (Ok (s, row), w') -> exists l, s = summary l.
Proof.
  intros H. unfold fit_one in H.
  apply mbind_ok_inv in H. destruct H as (y & w1 & H1 & H).
  apply mbind_ok_inv in H. destruct H as (hc & w2 & H2 & H).
  apply mbind_ok_inv in H. destruct H as (pt & w3 & H3 & H).
  apply mbind_ok_inv in H. destruct H as (folds & w4 & H4 & H).
  apply mbind_ok_inv in H. destruct H as (l & w5 & H5 & H).
  apply mbind_ok_inv in H. destruct H as (means & w6 & H6 & H).
  injection H as <- _ _. eauto.
Qed.

Lemma summary_single_row (l : Learner) : length (Pd.data (summary l)) = 1.
Proof. destruct (summary_one_row l) as (cols & vals & ->). reflexivity. Qed.

(** The pieces of a completed call. *)
Lemma fit_models_ok_inv (df : Pd.dataset) (xs : list feature)
      (ys : list diagnosis) (verbose : bool) (w w' : world)
      (learners summaries : Pd.table) :
  fit_models df xs ys verbose w = (Ok (learners, summaries), w') ->
  exists X per fr,
    Pd.values df xs = Ok X /\
    Forall2 (fun y p => exists w1 w2, fit_one df X xs y w1 = (Ok p, w2)) ys per /\
    Pd.concat_frames (map fst per) = Ok fr /\
    Pd.set_index "Dx" fr = Ok summaries /\
    Pd.set_index "Dx" (Pd.from_dict (map snd per)) = Ok learners.
Proof.
  intros H. unfold fit_models in H.
  apply mbind_ok_inv in H. destruct H as (u & w1 & H1 & H).
  apply mbind_ok_inv in H. destruct H as (X & w2 & H2 & H).
  apply mbind_ok_inv in H. destruct H as (per & w3 & H3 & H).
  apply mbind_ok_inv in H. destruct H as (S & w4 & H4 & H).
  apply mbind_ok_inv in H. destruct H as (L & w5 & H5 & H).
  injection H as <- <- _.
  apply lift_ok_inv in H2. destruct H2 as [H2 _].
  apply lift_ok_inv in H4. destruct H4 as [H4 _].
  apply lift_ok_inv in H5. destruct H5 as [H5 _].
  apply bind_ok_inv in H4. destruct H4 as (fr & Hfr & H4).
  apply forM_ok_inv in H3.
  exists X, per, fr. auto.
Qed.

(** Both tables have one row per diagnosis. *)
Lemma fit_models_row_counts (df : Pd.dataset) (xs : list feature)
      (ys : list diagnosis) (verbose : bool) (w w' : world)
      (learners summaries : Pd.table) :
  fit_models df xs ys verbose w = (Ok (learners, summaries), w') ->
  (length (Pd.t_index learners) = length ys /\
   length (Pd.t_data learners) = length ys) /\
  (length (Pd.t_index summaries) = length ys /\
   length (Pd.t_data summaries) = length ys).
Proof.
  intros H. apply fit_models_ok_inv in H.
  destruct H as (X & per & fr & HX & Hper & Hfr & HS & HL).
  pose proof (Forall2_length_eq _ _ _ Hper) as Hlen.
  split.
  - apply set_index_lengths in HL. unfold Pd.from_dict in HL. simpl in HL.
    rewrite !length_map in HL. rewrite Hlen. exact HL.
  - apply set_index_lengths in HS.
    rewrite (concat_frames_rows _ _ Hfr) in HS.
    + rewrite length_map in HS. rewrite Hlen. exact HS.
    + apply Forall_map. clear - Hper.
      induction Hper as [|y p ys per (w1 & w2 & Hp) _ IH]; constructor; [|exact IH].
      destruct p as [s row]. apply fit_one_summary in Hp.
      destruct Hp as [l ->]. apply summary_single_row.
Qed.

End RowCounts.

(** ** What a completed call has recorded *)

Section Trace.

Context {SK : Fit.Sklearn} {LS : Fit.LearnerSummary}.

Import Fit.

(** The loop over the folds appends the importances of its fits to
    [fi] and leaves the counts and the diagnosis of the learner as
    they are. *)
Lemma foldM_fits (X : matrix) (y : list Z) (folds : list (list nat * list nat)) :
  forall l0 w l w',
    foldM (fit_fold X y) l0 folds w = (Ok l, w') ->
    fi l = fi l0 ++ fst (cv_importances X y (w_rng w) folds) /\
    w_rng w' = snd (cv_importances X y (w_rng w) folds) /\
    dx l = dx l0 /\ hc_n l = hc_n l0 /\ dx_n l = dx_n l0.
Proof.
  induction folds as [|[idx_train idx_test] folds IH]; intros l0 w l w' H.
  - simpl in H. injection H as <- <-. simpl. rewrite app_nil_r. auto.
  - cbn [foldM] in H. apply mbind_ok_inv in H. destruct H as (l1 & w1 & H1 & H).
    apply fit_fold_ok_inv in H1.
    destruct H1 as (X_tr & y_tr & clf & g' & E1 & E2 & Efit & -> & Edx & Ehc & Ept & Efi).
    apply IH in H. cbn [w_rng] in H. destruct H as (Hfi & Hg & Hdx & Hhc & Hpt).
    cbn [cv_importances fst]. rewrite E1, E2, Efit. cbn [fst snd].
    rewrite Hfi, Efi, <- app_assoc. simpl. repeat split; congruence.
Qed.

Lemma fit_one_ok_inv (df : Pd.dataset) (X : matrix) (xs : list feature)
      (y_name : diagnosis) (s : Pd.frame) (row : Pd.dict) (w w' : world) :
  fit_one df X xs y_name w = (Ok (s, row), w') ->
  exists y folds l means,
    Pd.int_column df y_name = Ok y /\
    Np.getitem (map snd (Np.unique_counts y)) 0 = Ok (hc_n l) /\
    Np.getitem (map snd (Np.unique_counts y)) 1 = Ok (dx_n l) /\
    split X y = Ok folds /\
    dx l = y_name /\
    fi l = fst (cv_importances X y (w_rng w) folds) /\
    w_rng w' = snd (cv_importances X y (w_rng w) folds) /\
    s = summary l /\
    importance_means l = Ok means /\
    row = importance_row y_name xs means.
Proof.
  intros H. unfold fit_one in H.
  apply mbind_ok_inv in H. destruct H as (y & w1 & H1 & H).
  apply lift_ok_inv in H1. destruct H1 as [H1 ->].
  apply mbind_ok_inv in H. destruct H as (hc & w2 & H2 & H).
  apply lift_ok_inv in H2. destruct H2 as [H2 ->].
  apply mbind_ok_inv in H. destruct H as (pt & w3 & H3 & H).
  apply lift_ok_inv in H3. destruct H3 as [H3 ->].
  apply mbind_ok_inv in H. destruct H as (folds & w4 & H4 & H).
  apply lift_ok_inv in H4. destruct H4 as [H4 ->].
  apply mbind_ok_inv in H. destruct H as (l & w5 & H5 & H).
  apply mbind_ok_inv in H. destruct H as (means & w6 & H6 & H).
  apply lift_ok_inv in H6. destruct H6 as [H6 ->].
  unfold ret in H. injection H as Es Er Ew. subst s row w'.
  apply foldM_fits in H5. cbn [fi dx hc_n dx_n new_learner app] in H5.
  destruct H5 as (Hfi & Hg & Hdx & Hhc & Hpt).
  exists y, folds, l, means.
  rewrite Hhc, Hpt, Hdx. auto 12.
Qed.

(** What is known of the learner of a diagnosis when its turn of the
    loop over [y_ids] is over. *)
Definition counted_learner (df : Pd.dataset) (l : Learner) : Prop :=
  exists y,
    Pd.int_column df (dx l) = Ok y /\
    Np.getitem (map snd (Np.unique_counts y)) 0 = Ok (hc_n l) /\
    Np.getitem (map snd (Np.unique_counts y)) 1 = Ok (dx_n l).

Definition row_of (xs : list feature) (p : Pd.frame * Pd.dict) (l : Learner) : Prop :=
  exists means,
    importance_means l = Ok means /\ snd p = importance_row (dx l) xs means.

Lemma forM_learners (df : Pd.dataset) (X : matrix) (xs : list feature) :
  forall ys w per w',
    forM (fit_one df X xs) ys w = (Ok per, w') ->
    exists ls,
      map dx ls = ys /\
      map fi ls = recorded_importances df X (w_rng w) ys /\
      map fst per = map summary ls /\
      Forall (counted_learner df) ls /\
      Forall2 (row_of xs) per ls.
Proof.
  induction ys as [|y_name ys IH]; intros w per w' H; simpl in H.
  - injection H as <- _. exists []. simpl. repeat split; constructor.
  - apply mbind_ok_inv in H. destruct H as ([s row] & w1 & H1 & H).
    apply mbind_ok_inv in H. destruct H as (per' & w2 & H2 & H).
    injection H as <- _.
    apply fit_one_ok_inv in H1.
    destruct H1 as (y & folds & l & means & Hy & Hhc & Hpt & Hsp & Hdx & Hfi
                    & Hg & -> & Hm & ->).
    apply IH in H2. destruct H2 as (ls & L1 & L2 & L3 & L4 & L5).
    exists (l :: ls). cbn [map recorded_importances fst snd].
    rewrite Hy, Hsp, L1, L2, L3, Hfi, Hg, Hdx.
    repeat split.
    + constructor; [|exact L4]. exists y. rewrite Hdx. auto.
    + constructor; [|exact L5]. exists means. rewrite Hdx. auto.
Qed.

(** The pieces of a completed call, with the learners behind its two
    tables. *)
Lemma fit_models_learners (df : Pd.dataset) (xs : list feature)
      (ys : list diagnosis) (verbose : bool) (w w' : world)
      (learners summaries : Pd.table) :
  fit_models df xs ys verbose w = (Ok (learners, summaries), w') ->
  exists X per fr ls,
    Pd.values df xs = Ok X /\
    map dx ls = ys /\
    map fi ls = recorded_importances df X (seed 42) ys /\
    Forall (counted_learner df) ls /\
    Forall2 (row_of xs) per ls /\
    Pd.concat_frames (map summary ls) = Ok fr /\
    Pd.set_index "Dx" fr = Ok summaries /\
    Pd.set_index "Dx" (Pd.from_dict (map snd per)) = Ok learners.
Proof.
  intros H. unfold fit_models in H.
  apply mbind_ok_inv in H. destruct H as (u & w1 & H1 & H).
  unfold np_random_seed in H1. injection H1 as _ <-.
  apply mbind_ok_inv in H. destruct H as (X & w2 & H2 & H).
  apply lift_ok_inv in H2. destruct H2 as [H2 ->].
  apply mbind_ok_inv in H. destruct H as (per & w3 & H3 & H).
  apply mbind_ok_inv in H. destruct H as (S & w4 & H4 & H).
  apply lift_ok_inv in H4. destruct H4 as [H4 ->].
  apply mbind_ok_inv in H. destruct H as (L & w5 & H5 & H).
  apply lift_ok_inv in H5. destruct H5 as [H5 ->].
  injection H as <- <- _.
  apply bind_ok_inv in H4. destruct H4 as (fr & Hfr & H4).
  apply forM_learners in H3. cbn [w_rng] in H3.
  destruct H3 as (ls & L1 & L2 & L3 & L4 & L5).
  rewrite L3 in Hfr.
  exists X, per, fr, ls. auto 12.
Qed.




End Trace.

(** C4, as the claim states it, fails in the float64 arithmetic of the
    program: for two outer folds of two sub-model vectors each, the
    flat mean over the four stacked vectors and the two-stage mean
    differ in their first entry, by one unit in the last place. *)
Lemma two_stage_rounding_counterexample :
  Forall (fun block => length block = 2) F64.fi_rounding /\
  F64.same (F64.mean_axis0 (concat F64.fi_rounding)) F64.flat_mean_rounding = true /\
  F64.same (F64.mean_axis0 (map F64.mean_axis0 F64.fi_rounding))
           F64.two_stage_mean_rounding = true /\
  F64.same (F64.mean_axis0 (concat F64.fi_rounding))
           (F64.mean_axis0 (map F64.mean_axis0 F64.fi_rounding)) = false.
Proof.
  split; [repeat constructor|].
  repeat split; vm_compute; reflexivity.
Qed.




(** C8, as the claim states it, fails: with a feature identifier
    requested twice the importance table has fewer columns than
    features were requested (two for the four of [a, b, a, b]); with a
    feature that is called "Dx" the table loses that column and is no
    longer keyed by the diagnosis; and in float64 the mean of two
    importance vectors that each sum to 1.0 need not sum to 1.0 (the
    mean of [0.3, 0.7] and [0.4, 0.6] does not). *)
Lemma fit_models_tables_counterexample :
  (exists learners summaries w',
     @Fit.fit_models Stub.sklearn Stub.learner_summary
        Stub.cohort ["a"; "b"; "a"; "b"]%string ["dx1"]%string true (Stub.fresh 7)
     = (Ok (learners, summaries), w') /\
     Pd.t_columns learners = ["a"; "b"]%string) /\
  (exists learners summaries w',
     @Fit.fit_models Stub.sklearn Stub.learner_summary
        Stub.cohort ["Dx"; "a"]%string ["dx1"]%string true (Stub.fresh 7)
     = (Ok (learners, summaries), w') /\
     Pd.t_columns learners = ["a"]%string /\
     Pd.t_index learners <> [Some (Pd.CStr "dx1")]) /\
  PrimFloat.eqb (F64.total F64.importances_a) PrimFloat.one = true /\
  PrimFloat.eqb (F64.total F64.importances_b) PrimFloat.one = true /\
  PrimFloat.eqb
    (F64.total (F64.mean_axis0 [F64.importances_a; F64.importances_b]))
    PrimFloat.one = false.
Proof.
  split.
  { eexists _, _, _. split; vm_compute; reflexivity. }
  split.
  { eexists _, _, _. split; [vm_compute; reflexivity|].
    split; [vm_compute; reflexivity|].
    vm_compute. intros C. discriminate C. }
  repeat split; vm_compute; reflexivity.
Qed.




(** ** The sweep *)

Lemma map_snd_combine_same {A B} (xs : list A) (ys : list B) :
  length xs = length ys -> map snd (combine xs ys) = ys.
Proof.
  revert ys; induction xs as [|x xs IH]; intros [|y ys] H; simpl in *;
    try discriminate; try reflexivity.
  f_equal. apply IH. lia.
Qed.


Lemma flat_map_perm {A B} (g : A -> list B) (l l' : list A) :
  Permutation l l' -> Permutation (flat_map g l) (flat_map g l').
Proof.
  induction 1; simpl.
  - constructor.
  - now apply Permutation_app_head.
  - rewrite !app_assoc. apply Permutation_app_tail, Permutation_app_comm.
  - etransitivity; eassumption.
Qed.

Lemma combine_app_same {A B} (u u' : list A) (v v' : list B) :
  length u = length v -> combine (u ++ u') (v ++ v') = combine u v ++ combine u' v'.
Proof.
  revert v; induction u as [|x u IH]; intros [|y v] H; simpl in *;
    try discriminate; try reflexivity.
  f_equal. apply IH. lia.
Qed.

Lemma flat_map_same_in {A B} (g h : A -> list B) (l : list A) :
  (forall a, In a l -> g a = h a) -> flat_map g l = flat_map h l.
Proof.
  induction l as [|a l IH]; intros H; simpl; [reflexivity|].
  rewrite (H a (or_introl eq_refl)), IH; [reflexivity|].
  intros; apply H; now right.
Qed.

Lemma combine_flat_map {A B C} (a : A -> list B) (b : A -> list C) (l : list A) :
  Forall (fun t => length (a t) = length (b t)) l ->
  combine (flat_map a l) (flat_map b l) = flat_map (fun t => combine (a t) (b t)) l.
Proof.
  induction 1 as [|t l Ht Hl IH]; simpl; [reflexivity|].
  rewrite combine_app_same by exact Ht. now rewrite IH.
Qed.

Lemma mapM_ok_unwrap {A B} (g : A -> result B) (d : B) (l : list A) (t : list B) :
  mapM g l = Ok t ->
  t = map (fun x => match g x with Ok b => b | Raise _ => d end) l.
Proof.
  intros H. apply mapM_ok_inv in H.
  induction H as [|x y l t Hx H IH]; simpl; [reflexivity|].
  rewrite Hx, <- IH. reflexivity.
Qed.

Lemma mapM_all_ok {A B} (g : A -> result B) (l : list A) :
  (forall x, In x l -> is_ok (g x) = true) -> exists t, mapM g l = Ok t.
Proof.
  induction l as [|x l IH]; intros H; simpl; [eauto|].
  pose proof (H x (or_introl eq_refl)) as Hx.
  destruct (g x) as [b|e]; [|discriminate]. simpl.
  destruct IH as [t ->]; [intros; apply H; now right|]. simpl. eauto.
Qed.


Section SweepFacts.

Context {SK : Fit.Sklearn} {LS : Fit.LearnerSummary}.

Import Fit Sweep.

Lemma submitted_length (sorted : list feature) :
  length (submitted sorted) = length sorted.
Proof.
  unfold submitted. rewrite length_combine, length_seq, subsets_length. lia.
Qed.

Lemma submitted_subsets (sorted : list feature) :
  map snd (submitted sorted) = subsets sorted.
Proof.
  unfold submitted. apply map_snd_combine_same.
  now rewrite length_seq, subsets_length.
Qed.

Lemma run_task_ok_rows (df : Pd.dataset) (ys : list diagnosis) (s : schedule)
      (task : nat * list feature) (L S : Pd.table) :
  run_task df ys s task = Ok (L, S) ->
  (length (Pd.t_index L) = length ys /\ length (Pd.t_data L) = length ys) /\
  (length (Pd.t_index S) = length ys /\ length (Pd.t_data S) = length ys).
Proof.
  unfold run_task. intros H.
  destruct (fit_models df (snd task) ys false (worker s (fst task)))
    as [r w'] eqn:E.
  simpl in H. subst r. eapply fit_models_row_counts. exact E.
Qed.

(** The outcome of a task does not depend on the worker that runs it. *)
Lemma run_task_any_worker (df : Pd.dataset) (ys : list diagnosis)
      (s s' : schedule) (task : nat * list feature) :
  run_task df ys s task = run_task df ys s' task.
Proof.
  unfold run_task.
  destruct (fit_models_after_seed df (snd task) ys false) as [r [g' E]].
  now rewrite !E.
Qed.

Lemma collect_length (df : Pd.dataset) (sorted : list feature)
      (ys : list diagnosis) (s : schedule) (tuples : list (Pd.table * Pd.table)) :
  collect df sorted ys s = Ok tuples ->
  length tuples = length sorted /\
  Forall (fun t =>
            (length (Pd.t_index (fst t)) = length ys /\
             length (Pd.t_data (fst t)) = length ys) /\
            (length (Pd.t_index (snd t)) = length ys /\
             length (Pd.t_data (snd t)) = length ys)) tuples.
Proof.
  unfold collect. intros H. apply mapM_ok_inv in H. split.
  - rewrite <- (Forall2_length_eq _ _ _ H).
    rewrite (Permutation_length (as_completed_perm _ _)).
    apply submitted_length.
  - induction H as [|task t tasks tuples Ht _ IH]; constructor; [|exact IH].
    destruct t as [L S]. eapply run_task_ok_rows. exact Ht.
Qed.




End SweepFacts.


Definition two_workers : @Sweep.schedule Stub.sklearn :=
  {| Sweep.picks := fun _ => 1;
     Sweep.worker := fun i => Stub.fresh (Z.of_nat i) |}.

Definition other_workers : @Sweep.schedule Stub.sklearn :=
  {| Sweep.picks := fun k => k;
     Sweep.worker := fun i => Stub.fresh (100 + Z.of_nat i) |}.


Example sweep_three_records :
  exists L S,
    @Sweep.degrading_fit Stub.sklearn Stub.learner_summary
       Stub.survey three_features ["dx1"]%string 4 true two_workers = Ok (L, S) /\
    length (Pd.t_index S) = 3 /\
    Pd.t_columns L = three_features /\
    map (fun r => length (filter (fun c => match c with Some _ => true | None => false end) r))
        (Pd.t_data L) = [2; 1; 3].
Proof.
  destruct (@Sweep.degrading_fit Stub.sklearn Stub.learner_summary
              Stub.survey three_features ["dx1"]%string 4 true two_workers)
    as [[L S]|e] eqn:E; [|vm_compute in E; discriminate E].
  exists L, S. split; [reflexivity|].
  vm_compute in E. injection E as <- <-. vm_compute. repeat split; reflexivity.
Qed.

(** ** Two runs of the sweep *)

Section TwoRuns.

Context {SK : Fit.Sklearn} {LS : Fit.LearnerSummary}.

Import Fit Sweep.

(** The labels every summary table of a completed call carries. *)
Definition summary_columns : list string :=
  let U := fold_left add_label
                     (Pd.columns (summary (new_learner ""%string 0 0 []))) [] in
  match Pd.index_of "Dx" U with
  | Some i => Pd.drop_nth i U
  | None => []
  end.

Lemma fit_models_summary_columns (df : Pd.dataset) (xs : list feature)
      (ys : list diagnosis) (verbose : bool) (w w' : world)
      (learners summaries : Pd.table) :
  fit_models df xs ys verbose w = (Ok (learners, summaries), w') ->
  Pd.t_columns summaries = summary_columns.
Proof.
  intros H. apply fit_models_ok_inv in H.
  destruct H as (X & per & fr & HX & Hper & Hfr & HS & HL).
  unfold Pd.concat_frames in Hfr.
  destruct (map fst per) as [|f0 fs0] eqn:E; [discriminate|].
  rewrite <- E in Hfr. injection Hfr as <-.
  assert (Hcols : Pd.union_labels (map Pd.columns (map fst per))
                  = fold_left add_label
                      (Pd.columns (summary (new_learner ""%string 0 0 []))) []).
  { apply union_labels_same.
    - rewrite E. discriminate.
    - rewrite map_map. apply Forall_map. clear - Hper.
      induction Hper as [|y p ys per (w1 & w2 & Hp) _ IH]; constructor; [|exact IH].
      destruct p as [s row]. apply fit_one_summary in Hp.
      destruct Hp as [l ->]. apply summary_labels. }
  unfold Pd.set_index in HS. cbn [Pd.columns Pd.data] in HS.
  rewrite Hcols in HS. unfold summary_columns. cbv zeta.
  destruct (Pd.index_of "Dx" _) as [i|]; [|discriminate].
  injection HS as <-. reflexivity.
Qed.

Lemma concat_tables_same_columns (C : list string) (ts : list Pd.table) (T : Pd.table) :
  Pd.concat_tables ts = Ok T ->
  Forall (fun t => Pd.t_columns t = C /\
                   length (Pd.t_index t) = length (Pd.t_data t)) ts ->
  Pd.t_columns T = fold_left add_label C [] /\
  table_rows T
  = flat_map (fun t => combine (Pd.t_index t)
                               (map (Pd.realign C (fold_left add_label C []))
                                    (Pd.t_data t))) ts.
Proof.
  unfold Pd.concat_tables. destruct ts as [|t0 ts0] eqn:E; [discriminate|].
  rewrite <- E. intros H Hall. injection H as <-.
  assert (Hne : ts <> []) by (rewrite E; discriminate). clear E.
  assert (Hcols : Pd.union_labels (map Pd.t_columns ts) = fold_left add_label C []).
  { apply union_labels_same.
    - destruct ts; [congruence|discriminate].
    - apply Forall_map. eapply Forall_impl; [|exact Hall].
      intros t [Ht _]. now symmetry. }
  unfold table_rows. cbn [Pd.t_index Pd.t_columns Pd.t_data].
  rewrite Hcols. split; [reflexivity|].
  rewrite combine_flat_map.
  - apply flat_map_same_in. intros t Ht.
    rewrite Forall_forall in Hall. destruct (Hall t Ht) as [-> _]. reflexivity.
  - eapply Forall_impl; [|exact Hall]. intros t [_ Hl].
    now rewrite length_map.
Qed.

Lemma collect_any_schedule (df : Pd.dataset) (sorted : list feature)
      (ys : list diagnosis) (s1 s2 : schedule)
      (t1 t2 : list (Pd.table * Pd.table)) :
  collect df sorted ys s1 = Ok t1 ->
  collect df sorted ys s2 = Ok t2 ->
  Permutation t1 t2.
Proof.
  unfold collect. intros H1 H2.
  apply (mapM_ok_unwrap _ (empty_table, empty_table)) in H1.
  apply (mapM_ok_unwrap _ (empty_table, empty_table)) in H2.
  subst t1 t2.
  rewrite (map_ext _ _ (fun task => f_equal
             (fun r => match r with Ok b => b | Raise _ => (empty_table, empty_table) end)
             (run_task_any_worker df ys s1 s2 task))).
  apply Permutation_map.
  rewrite (as_completed_perm (picks s1)), (as_completed_perm (picks s2)).
  reflexivity.
Qed.

(** Whether a run returns does not depend on the schedule. *)
Lemma degrading_fit_completion (df : Pd.dataset) (sorted : list feature)
      (ys : list diagnosis) (threads : Z) (verbose : bool) (s1 s2 : schedule) :
  is_ok (degrading_fit df sorted ys threads verbose s1)
  = is_ok (degrading_fit df sorted ys threads verbose s2).
Proof.
  assert (Half : forall s s',
             is_ok (degrading_fit df sorted ys threads verbose s) = true ->
             is_ok (degrading_fit df sorted ys threads verbose s') = true).
  { intros s s' H. unfold degrading_fit in *.
    destruct (threads <=? 0)%Z; [discriminate|].
    destruct (collect df sorted ys s) as [t|e] eqn:Ec; [|discriminate].
    assert (Hok : forall task, In task (submitted sorted) ->
                               is_ok (run_task df ys s' task) = true).
    { intros task Hin. rewrite (run_task_any_worker df ys s' s).
      unfold collect in Ec. apply mapM_ok_inv in Ec.
      assert (Hin' : In task (as_completed (picks s) (submitted sorted))).
      { eapply Permutation_in; [symmetry; apply as_completed_perm|exact Hin]. }
      clear - Ec Hin'. induction Ec as [|a b l l' Ha _ IH]; [contradiction|].
      destruct Hin' as [->|Hin']; [now rewrite Ha|now apply IH]. }
    destruct (mapM_all_ok (run_task df ys s')
                (as_completed (picks s') (submitted sorted))) as [t' Hc'].
    { intros task Hin. apply Hok.
      eapply Permutation_in; [apply as_completed_perm|exact Hin]. }
    unfold collect at 1. rewrite Hc'. simpl.
    pose proof (collect_length df sorted ys s t Ec) as [Hl _].
    pose proof (collect_length df sorted ys s' t' Hc') as [Hl' _].
    simpl in H. destruct t as [|x t]; [discriminate|].
    destruct t' as [|x' t']; [simpl in *; congruence|reflexivity]. }
  destruct (is_ok (degrading_fit df sorted ys threads verbose s1)) eqn:E1.
  - symmetry. eapply Half. exact E1.
  - destruct (is_ok (degrading_fit df sorted ys threads verbose s2)) eqn:E2;
      [|reflexivity].
    rewrite (Half s2 s1 E2) in E1. discriminate.
Qed.

End TwoRuns.

(** C9: two runs of the sweep over the same dataset, ranked list,
    diagnosis set and worker count, under any two schedules (order of
    completion, and state of the worker processes), either both fail or
    both return; when they return, their summary tables have the same
    columns and the same rows up to a permutation of the rows.  The fits
    themselves are taken as functions of their data and of the state of
    the random generator, which every task reseeds. *)
Theorem sweep_summaries_determined
        {SK : Fit.Sklearn} {LS : Fit.LearnerSummary}
        (df : Pd.dataset) (sorted : list feature) (ys : list diagnosis)
        (threads : Z) (verbose : bool) (s1 s2 : Sweep.schedule) :
  is_ok (Sweep.degrading_fit df sorted ys threads verbose s1)
  = is_ok (Sweep.degrading_fit df sorted ys threads verbose s2) /\
  forall L1 S1 L2 S2,
    Sweep.degrading_fit df sorted ys threads verbose s1 = Ok (L1, S1) ->
    Sweep.degrading_fit df sorted ys threads verbose s2 = Ok (L2, S2) ->
    Pd.t_columns S1 = Pd.t_columns S2 /\
    Permutation (table_rows S1) (table_rows S2).
Proof.
  split; [apply degrading_fit_completion|].
  intros L1 S1 L2 S2 H1 H2. unfold Sweep.degrading_fit in *.
  destruct (threads <=? 0)%Z; [discriminate|].
  apply bind_ok_inv in H1. destruct H1 as (t1 & Hc1 & H1).
  apply bind_ok_inv in H1. destruct H1 as (S1' & HS1 & H1).
  apply bind_ok_inv in H1. destruct H1 as (L1' & HL1 & H1).
  injection H1 as <- <-.
  apply bind_ok_inv in H2. destruct H2 as (t2 & Hc2 & H2).
  apply bind_ok_inv in H2. destruct H2 as (S2' & HS2 & H2).
  apply bind_ok_inv in H2. destruct H2 as (L2' & HL2 & H2).
  injection H2 as <- <-.
  pose proof (collect_any_schedule df sorted ys s1 s2 t1 t2 Hc1 Hc2) as Hp.
  assert (Hwf : forall s t, Sweep.collect df sorted ys s = Ok t ->
            Forall (fun T => Pd.t_columns T = summary_columns /\
                             length (Pd.t_index T) = length (Pd.t_data T))
                   (map snd t)).
  { intros s t Hc. apply Forall_map.
    pose proof (collect_length df sorted ys s t Hc) as [_ Hrows].
    unfold Sweep.collect in Hc. apply mapM_ok_inv in Hc.
    clear - Hc Hrows.
    induction Hc as [|task tu tasks t Ht _ IH].
    - constructor.
    - inversion Hrows as [|? ? Hr Hrs]; subst.
      constructor; [|now apply IH].
      destruct tu as [L S]. split; [|simpl in *; lia].
      unfold Sweep.run_task in Ht.
      destruct (Fit.fit_models df (snd task) ys false
                  (Sweep.worker s (fst task))) as [r w'] eqn:E.
      simpl in Ht. subst r. eapply fit_models_summary_columns. exact E. }
  destruct (concat_tables_same_columns summary_columns _ _ HS1 (Hwf s1 t1 Hc1))
    as [C1 R1].
  destruct (concat_tables_same_columns summary_columns _ _ HS2 (Hwf s2 t2 Hc2))
    as [C2 R2].
  split; [congruence|].
  rewrite R1, R2. apply flat_map_perm. now apply Permutation_map.
Qed.

Lemma sweep_summaries_determined_witness :
  exists L1 S1 L2 S2,
    @Sweep.degrading_fit Stub.sklearn Stub.learner_summary
       Stub.survey three_features ["dx1"; "dx2"]%string 4 true two_workers
    = Ok (L1, S1) /\
    @Sweep.degrading_fit Stub.sklearn Stub.learner_summary
       Stub.survey three_features ["dx1"; "dx2"]%string 4 true other_workers
    = Ok (L2, S2) /\
    Pd.t_columns S1 = Pd.t_columns S2 /\
    Permutation (table_rows S1) (table_rows S2).
Proof.
  destruct (@Sweep.degrading_fit Stub.sklearn Stub.learner_summary
              Stub.survey three_features ["dx1"; "dx2"]%string 4 true two_workers)
    as [[L1 S1]|e] eqn:E1; [|vm_compute in E1; discriminate E1].
  destruct (@Sweep.degrading_fit Stub.sklearn Stub.learner_summary
              Stub.survey three_features ["dx1"; "dx2"]%string 4 true other_workers)
    as [[L2 S2]|e] eqn:E2; [|vm_compute in E2; discriminate E2].
  exists L1, S1, L2, S2. split; [reflexivity|]. split; [reflexivity|].
  exact (proj2 (@sweep_summaries_determined Stub.sklearn Stub.learner_summary
                  Stub.survey three_features ["dx1"; "dx2"]%string 4%Z true
                  two_workers other_workers) L1 S1 L2 S2 E1 E2).
Defined.

(** * Further properties of the three engines *)

(** ** Missing columns *)

Lemma column_missing (df : Pd.dataset) (k : string) :
  ~ In k (map fst df) -> Pd.column df k = Raise KeyError.
Proof.
  induction df as [|[k' c] df IH]; intros H; simpl; [reflexivity|].
  destruct (String.eqb_spec k k') as [->|N].
  - elim H. now left.
  - apply IH. intros Hin. apply H. now right.
Qed.

Lemma column_present (df : Pd.dataset) (k : string) :
  In k (map fst df) -> exists c, Pd.column df k = Ok c.
Proof.
  induction df as [|[k' c] df IH]; intros H; simpl in *; [contradiction|].
  destruct (String.eqb_spec k k') as [->|N]; [eauto|].
  destruct H as [E|H]; [congruence|now apply IH].
Qed.

Lemma column_raises_key_error (df : Pd.dataset) (k : string) (e : exn) :
  Pd.column df k = Raise e -> e = KeyError.
Proof.
  induction df as [|[k' c] df IH]; simpl; intros H.
  - now injection H as <-.
  - destruct (String.eqb k k'); [discriminate|now apply IH].
Qed.

Lemma values_missing (df : Pd.dataset) (xs : list feature) (x : feature) :
  In x xs -> ~ In x (map fst df) -> Pd.values df xs = Raise KeyError.
Proof.
  intros Hin Hx. unfold Pd.values.
  destruct (mapM (Pd.column df) xs) as [cols|e] eqn:E.
  - apply mapM_ok_inv in E. exfalso.
    clear - E Hin Hx. induction E as [|a c xs cols Ha _ IH]; [contradiction|].
    destruct Hin as [->|Hin]; [|now apply IH].
    rewrite column_missing in Ha by assumption. discriminate.
  - simpl. f_equal. clear - E.
    revert e E. induction xs as [|a xs IH]; intros e E; simpl in E; [discriminate|].
    destruct (Pd.column df a) as [c|e'] eqn:Ea; simpl in E.
    + destruct (mapM (Pd.column df) xs) as [cs|e''] eqn:Ex; simpl in E; [discriminate|].
      injection E as <-. now apply IH.
    + injection E as <-. eapply column_raises_key_error. exact Ea.
Qed.

Lemma values_present (df : Pd.dataset) (xs : list feature) :
  incl xs (map fst df) -> exists X, Pd.values df xs = Ok X.
Proof.
  intros H. unfold Pd.values.
  assert (E : exists cols, mapM (Pd.column df) xs = Ok cols).
  { induction xs as [|a xs IH]; simpl; [eauto|].
    destruct (column_present df a) as [c ->]; [apply H; now left|]. simpl.
    destruct IH as [cols ->]; [intros z Hz; apply H; now right|]. simpl. eauto. }
  destruct E as [cols ->]. simpl. eauto.
Qed.

(** X1: a feature identifier that is no column of the dataset makes
    [fit_models] raise [KeyError] when the feature matrix is read, and a
    first diagnosis identifier that is no column makes it raise
    [KeyError] when the target vector is read; in both cases no model
    has been fitted, and the generator has already been reseeded. *)
Theorem fit_models_missing_column
        {SK : Fit.Sklearn} {LS : Fit.LearnerSummary}
        (df : Pd.dataset) (xs : list feature) (ys : list diagnosis)
        (verbose : bool) (w : Fit.world) :
  ((exists x, In x xs /\ ~ In x (map fst df)) ->
   Fit.fit_models df xs ys verbose w
   = (Raise KeyError,
      {| Fit.w_rng := Fit.seed 42; Fit.w_stdout := Fit.w_stdout w |})) /\
  (forall y_name after,
     ys = y_name :: after ->
     incl xs (map fst df) -> ~ In y_name (map fst df) ->
     Fit.fit_models df xs ys verbose w
     = (Raise KeyError,
        {| Fit.w_rng := Fit.seed 42; Fit.w_stdout := Fit.w_stdout w |})).
Proof.
  split.
  - intros (x & Hin & Hx).
    unfold Fit.fit_models, Fit.mbind at 1, Fit.np_random_seed.
    unfold Fit.mbind at 1, Fit.lift at 1.
    now rewrite (values_missing df xs x Hin Hx).
  - intros y_name after -> Hxs Hy.
    destruct (values_present df xs Hxs) as [X HX].
    unfold Fit.fit_models, Fit.mbind at 1, Fit.np_random_seed.
    unfold Fit.mbind at 1, Fit.lift at 1. rewrite HX.
    apply mbind_raise. simpl. apply mbind_raise.
    unfold Fit.fit_one. apply mbind_raise.
    unfold Fit.lift, Pd.int_column. now rewrite column_missing.
Qed.

Lemma fit_models_missing_column_witness :
  @Fit.fit_models Stub.sklearn Stub.learner_summary
     Stub.survey ["a"; "zz"]%string ["dx1"]%string true (Stub.fresh 7)
  = (Raise KeyError, @Fit.Build_world Stub.sklearn (42%Z, 0) []) /\
  @Fit.fit_models Stub.sklearn Stub.learner_summary
     Stub.survey ["a"; "b"]%string ["dx9"; "dx1"]%string true (Stub.fresh 7)
  = (Raise KeyError, @Fit.Build_world Stub.sklearn (42%Z, 0) []).
Proof.
  destruct (@fit_models_missing_column Stub.sklearn Stub.learner_summary
              Stub.survey ["a"; "zz"]%string ["dx1"]%string true (Stub.fresh 7))
    as [H1 _].
  destruct (@fit_models_missing_column Stub.sklearn Stub.learner_summary
              Stub.survey ["a"; "b"]%string ["dx9"; "dx1"]%string true (Stub.fresh 7))
    as [_ H2].
  split.
  - apply H1. exists "zz"%string. split; [simpl; auto|].
    simpl. intuition discriminate.
  - apply (H2 "dx9"%string ["dx1"]%string eq_refl).
    + intros x Hx. simpl in *. intuition (subst; auto).
    + simpl. intuition discriminate.
Defined.

(** ** The row dict of a diagnosis *)

Lemma keys_dict_set (k : string) (v : Pd.cell) (d : Pd.dict) :
  Pd.keys (Pd.dict_set k v d) = add_label (Pd.keys d) k.
Proof.
  unfold add_label. induction d as [|[k' v'] d IH]; simpl; [reflexivity|].
  destruct (String.eqb_spec k k') as [->|N]; simpl; [reflexivity|].
  unfold Pd.keys in *. rewrite IH.
  destruct (Pd.mem k (map fst d)); reflexivity.
Qed.

Lemma keys_dict_sets {A} (g : A -> Pd.cell) (ps : list (string * A)) (d : Pd.dict) :
  Pd.keys (fold_left (fun acc p => Pd.dict_set (fst p) (g (snd p)) acc) ps d)
  = fold_left add_label (map fst ps) (Pd.keys d).
Proof.
  revert d; induction ps as [|p ps IH]; intros d; simpl; [reflexivity|].
  now rewrite IH, keys_dict_set.
Qed.

Lemma dict_get_set_same (k : string) (v : Pd.cell) (d : Pd.dict) :
  Pd.dict_get k (Pd.dict_set k v d) = Some v.
Proof.
  induction d as [|[k' v'] d IH]; simpl.
  - now rewrite String.eqb_refl.
  - destruct (String.eqb_spec k k') as [->|N]; simpl.
    + now rewrite String.eqb_refl.
    + destruct (String.eqb_spec k k'); [contradiction|exact IH].
Qed.

Lemma dict_get_set_other (k k' : string) (v : Pd.cell) (d : Pd.dict) :
  k <> k' -> Pd.dict_get k' (Pd.dict_set k v d) = Pd.dict_get k' d.
Proof.
  intros N. induction d as [|[k0 v0] d IH]; simpl.
  - destruct (String.eqb_spec k' k); [congruence|reflexivity].
  - destruct (String.eqb_spec k k0) as [->|N0]; simpl.
    + destruct (String.eqb_spec k' k0); [congruence|reflexivity].
    + destruct (String.eqb_spec k' k0); [reflexivity|exact IH].
Qed.

Lemma find_append {A} (t : A -> bool) (u v : list A) :
  find t (u ++ v) = match find t u with Some x => Some x | None => find t v end.
Proof.
  induction u as [|a u IH]; simpl; [reflexivity|].
  destruct (t a); [reflexivity|exact IH].
Qed.

Lemma dict_get_sets {A} (g : A -> Pd.cell) (ps : list (string * A))
      (d : Pd.dict) (k : string) :
  Pd.dict_get k (fold_left (fun acc p => Pd.dict_set (fst p) (g (snd p)) acc) ps d)
  = match find (fun p => String.eqb k (fst p)) (rev ps) with
    | Some p => Some (g (snd p))
    | None => Pd.dict_get k d
    end.
Proof.
  revert d; induction ps as [|p ps IH]; intros d; simpl; [reflexivity|].
  rewrite IH, find_append.
  destruct (find (fun q => String.eqb k (fst q)) (rev ps)); [reflexivity|].
  simpl. destruct (String.eqb_spec k (fst p)) as [->|N].
  - apply dict_get_set_same.
  - apply dict_get_set_other. congruence.
Qed.

Lemma add_labels_nodup (l acc : list string) :
  NoDup acc -> NoDup (fold_left add_label l acc).
Proof.
  revert acc; induction l as [|k l IH]; intros acc H; simpl; [exact H|].
  apply IH. unfold add_label. destruct (Pd.mem k acc) eqn:E; [exact H|].
  apply NoDup_app; [exact H|repeat constructor; intros []|].
  intros x Hx [<-|[]]. apply mem_false in E. contradiction.
Qed.

Lemma add_labels_members (l acc : list string) (x : string) :
  In x (fold_left add_label l acc) <-> In x acc \/ In x l.
Proof.
  revert acc; induction l as [|k l IH]; intros acc; simpl; [tauto|].
  rewrite IH. unfold add_label.
  destruct (Pd.mem k acc) eqn:E.
  - apply mem_In in E. split; [tauto|]. intros [H|[<-|H]]; tauto.
  - rewrite in_app_iff. simpl. tauto.
Qed.

Lemma add_labels_shorter (l acc : list string) :
  NoDup acc -> ~ NoDup (acc ++ l) ->
  length (fold_left add_label l acc) < length acc + length l.
Proof.
  intros Ha Hn.
  destruct (Nat.lt_ge_cases (length (fold_left add_label l acc))
                            (length acc + length l)) as [L|G]; [exact L|].
  exfalso. apply Hn.
  apply NoDup_incl_NoDup with (l := fold_left add_label l acc).
  - now apply add_labels_nodup.
  - now rewrite length_app.
  - intros x Hx. apply in_app_iff. now apply add_labels_members.
Qed.

(** X3: the row built for a diagnosis holds the key "Dx" and then the
    feature identifiers in order of first occurrence, each once; under
    a key the last importance assigned to it is kept (a feature called
    "Dx" overwrites the diagnosis label); hence with a repeated
    identifier, or one that equals "Dx", the row has fewer entries than
    one plus the number of (feature, importance) pairs. *)
Theorem importance_row_last_wins
        (d : diagnosis) (xs : list feature) (means : list Qc) :
  let row := Fit.importance_row d xs means in
  let pairs := combine xs means in
  Pd.keys row = fold_left add_label (map fst pairs) ["Dx"%string] /\
  NoDup (Pd.keys row) /\
  (forall k,
     Pd.dict_get k row
     = match find (fun p => String.eqb k (fst p)) (rev pairs) with
       | Some p => Some (number (snd p))
       | None => if String.eqb k "Dx" then Some (Pd.CStr d) else None
       end) /\
  (~ NoDup ("Dx"%string :: map fst pairs) -> length (Pd.keys row) < S (length pairs)).
Proof.
  intros row pairs. unfold row, Fit.importance_row. fold pairs.
  assert (K : Pd.keys (fold_left
                         (fun acc p => Pd.dict_set (fst p) (Pd.CNum (Np.Fin (snd p))) acc)
                         pairs [("Dx"%string, Pd.CStr d)])
              = fold_left add_label (map fst pairs) ["Dx"%string]).
  { apply (keys_dict_sets (fun q => Pd.CNum (Np.Fin q))). }
  split; [exact K|]. split; [|split].
  - rewrite K. apply add_labels_nodup. repeat constructor. intros [].
  - intros k. rewrite (dict_get_sets (fun q => Pd.CNum (Np.Fin q))). reflexivity.
  - intros Hn. rewrite K.
    pose proof (add_labels_shorter (map fst pairs) ["Dx"%string]) as L.
    simpl in L. rewrite length_map in L. apply L; [|exact Hn].
    repeat constructor. intros [].
Qed.

Example importance_row_repeated_feature :
  Pd.keys (Fit.importance_row "dx1" ["a"; "b"; "a"]%string
             [Q2Qc (1 # 2); Q2Qc (1 # 4); Q2Qc (1 # 4)])
  = ["Dx"; "a"; "b"]%string /\
  Pd.dict_get "a" (Fit.importance_row "dx1" ["a"; "b"; "a"]%string
                     [Q2Qc (1 # 2); Q2Qc (1 # 4); Q2Qc (1 # 4)])
  = Some (number (Q2Qc (1 # 4))).
Proof. split; vm_compute; reflexivity. Qed.

(** ** The report for a top_n outside the range of the features *)

(** X4: for distinct features, a top_n at or above their number [n]
    (and within the int64 range) leaves both slices equal to the whole
    orderings, and the reported count is then [top_n - n], the excess of
    top_n, although the two slices hold exactly the same features; for
    a top_n of 0 both slices are empty, the count is 0 and the
    percentage is not-a-number (a division of zero by zero that raises
    nothing). *)
Theorem report_outside_range
        {SO : Rank.Sorting} {AS : Np.Argsort}
        (learners : Pd.table) (xs : list feature) (outdir : string)
        (plot : bool) :
  NoDup xs ->
  let agg := Rank.aggregate_sort learners xs in
  let topn := Rank.topn_sort learners xs in
  let n := Z.of_nat (length xs) in
  (forall nq, (n <= nq)%Z -> (0 < nq < 2 ^ 63)%Z ->
     fst (Rank.calculate_feature_importance learners xs outdir nq plot)
     = [Rank.MostPredictive nq agg; Rank.MostCommon nq topn;
        Rank.Differ (nq - n) nq
                    (Np.Fin (Qc_of_Z (nq - n) / Qc_of_Z nq * Qc_of_Z 100)%Qc)]) /\
  fst (Rank.calculate_feature_importance learners xs outdir 0 plot)
  = [Rank.MostPredictive 0 []; Rank.MostCommon 0 []; Rank.Differ 0 0 Np.NaN].
Proof.
  intros Hn agg topn n.
  destruct (sorting_nodup learners xs Hn) as [Na Pt]. fold agg topn in Na, Pt.
  assert (Nt : NoDup topn).
  { eapply Permutation_NoDup; [symmetry; exact Pt|exact Na]. }
  assert (La : length agg = length xs).
  { apply Permutation_length, Rank.aggregate_sort_all. }
  assert (Lt : length topn = length xs).
  { apply Permutation_length, Rank.topn_sort_all. }
  split.
  - intros nq Hge Hpos. unfold Rank.calculate_feature_importance, Rank.report_and_fuse. cbn [fst].
    fold agg topn.
    rewrite !slice_to_all by (unfold n in Hge; lia).
    assert (D : Rank.consistency_diff nq agg topn = (nq - n)%Z).
    { unfold Rank.consistency_diff.
      rewrite set_of_app_length by assumption.
      assert (E : missing_from agg topn = []).
      { apply missing_from_nil_iff. intros x Hx.
        eapply Permutation_in; [exact Pt|exact Hx]. }
      rewrite E. simpl. unfold n. lia. }
    rewrite D, consistency_frac_finite by lia. reflexivity.
  - unfold Rank.calculate_feature_importance, Rank.report_and_fuse. cbn [fst]. reflexivity.
Qed.

Lemma report_outside_range_witness :
  (forall nq, (3 <= nq)%Z -> (0 < nq < 2 ^ 63)%Z ->
     fst (@Rank.calculate_feature_importance (spec_sorting 1) stable_argsort
            table_split three_features "out" nq true)
     = [Rank.MostPredictive nq (Rank.spec_aggregate_sort table_split three_features);
        Rank.MostCommon nq (Rank.spec_topn_sort 1 table_split three_features);
        Rank.Differ (nq - 3) nq
                    (Np.Fin (Qc_of_Z (nq - 3) / Qc_of_Z nq * Qc_of_Z 100)%Qc)]) /\
  fst (@Rank.calculate_feature_importance (spec_sorting 1) stable_argsort
         table_split three_features "out" 0 true)
  = [Rank.MostPredictive 0 []; Rank.MostCommon 0 []; Rank.Differ 0 0 Np.NaN].
Proof.
  exact (@report_outside_range (spec_sorting 1) stable_argsort
           table_split three_features "out"%string true three_features_nodup).
Defined.

(** ** Order of the fused ranking *)

Lemma StronglySorted_nth {A} (R : A -> A -> Prop) (l : list A) (d : A) :
  StronglySorted R l ->
  forall p q, p < q -> q < length l -> R (nth p l d) (nth q l d).
Proof.
  induction 1 as [|a l Hs IH Ha]; intros p q Hpq Hq; simpl in Hq; [lia|].
  destruct q as [|q]; [lia|]. destruct p as [|p]; simpl.
  - rewrite Forall_forall in Ha. apply Ha, nth_In. lia.
  - apply IH; lia.
Qed.

Lemma position_found (x : feature) (l : list feature) (d : feature) :
  In x l -> Rank.position x l < length l /\ nth (Rank.position x l) l d = x.
Proof.
  induction l as [|y l IH]; intros H; [contradiction|]. simpl.
  destruct (String.eqb_spec x y) as [->|N].
  - split; [lia|reflexivity].
  - destruct H as [E|H]; [congruence|].
    destruct (IH H) as [L E]. split; [lia|exact E].
Qed.

Lemma last_is_nth {A} (l : list A) (d : A) :
  last l d = nth (length l - 1) l d.
Proof.
  induction l as [|a l IH]; [reflexivity|].
  destruct l as [|b l]; [reflexivity|].
  change (last (a :: b :: l) d) with (last (b :: l) d). rewrite IH.
  simpl. now rewrite Nat.sub_0_r.
Qed.

Lemma seq_sorted (a n : nat) : StronglySorted le (seq a n).
Proof.
  revert a; induction n as [|n IH]; intros a; simpl; constructor; [apply IH|].
  apply Forall_forall. intros x Hx. apply in_seq in Hx. lia.
Qed.

Lemma sorted_perm_unique (l1 l2 : list nat) :
  StronglySorted le l1 -> StronglySorted le l2 -> Permutation l1 l2 -> l1 = l2.
Proof.
  intros H1. revert l2. induction H1 as [|a l1 Hs IH Ha]; intros l2 H2 P.
  - apply Permutation_nil in P. now subst.
  - destruct H2 as [|b l2 Hs2 Hb].
    + apply Permutation_sym, Permutation_nil in P. discriminate.
    + assert (E : a = b).
      { rewrite Forall_forall in Ha, Hb.
        assert (In a (b :: l2)) as [->|Hin1]
            by (eapply Permutation_in; [exact P|now left]); [reflexivity|].
        assert (In b (a :: l1)) as [->|Hin2]
            by (eapply Permutation_in; [symmetry; exact P|now left]); [reflexivity|].
        pose proof (Ha b Hin2). pose proof (Hb a Hin1). lia. }
      subst b. f_equal. apply IH; [exact Hs2|].
      eapply Permutation_cons_inv. exact P.
Qed.

Section FusedOrder.

Context {AS : Np.Argsort}.

Variables agg topn : list feature.
Hypothesis agg_nodup : NoDup agg.
Hypothesis topn_perm : Permutation topn agg.

Let fused := fused_order agg topn.

Let fused_nodup : NoDup fused.
Proof.
  eapply Permutation_NoDup; [symmetry; exact (fused_perm agg topn agg_nodup topn_perm)|exact agg_nodup].
Qed.

(** A strictly smaller mean position puts a feature strictly earlier. *)
Lemma fused_strict (x y : feature) :
  In x agg -> In y agg ->
  (Rank.mean_position agg topn x < Rank.mean_position agg topn y)%Qc ->
  Rank.position x fused < Rank.position y fused.
Proof.
  intros Hx Hy Hlt.
  assert (Fx : In x fused).
  { eapply Permutation_in; [symmetry; exact (fused_perm agg topn agg_nodup topn_perm)|exact Hx]. }
  assert (Fy : In y fused).
  { eapply Permutation_in; [symmetry; exact (fused_perm agg topn agg_nodup topn_perm)|exact Hy]. }
  destruct (position_found x fused ""%string Fx) as [Lx Ex].
  destruct (position_found y fused ""%string Fy) as [Ly Ey].
  destruct (Nat.lt_trichotomy (Rank.position x fused) (Rank.position y fused))
    as [L|[E|G]]; [exact L| |]; exfalso.
  - rewrite E in Ex. rewrite Ex in Ey. subst y.
    revert Hlt. apply Qcle_not_lt, Qcle_refl.
  - pose proof (StronglySorted_nth _ fused ""%string
                  (fused_ascending agg topn agg_nodup topn_perm)
                  _ _ G Lx) as Hle.
    cbv beta in Hle. rewrite Ex, Ey in Hle.
    revert Hlt. now apply Qcle_not_lt.
Qed.

Lemma fused_last (f : feature) :
  agg <> [] -> last agg ""%string = f -> last topn ""%string = f ->
  last fused ""%string = f.
Proof.
  intros Hne La Lt.
  assert (Hlen : length fused = length agg).
  { apply Permutation_length. exact (fused_perm agg topn agg_nodup topn_perm). }
  assert (Htl : length topn = length agg) by now apply Permutation_length.
  assert (Hpos : 0 < length agg) by (destruct agg; [congruence|simpl; lia]).
  assert (Nt : NoDup topn).
  { eapply Permutation_NoDup; [symmetry; exact topn_perm|exact agg_nodup]. }
  rewrite last_is_nth in La, Lt.
  assert (Pa : Rank.position f agg = length agg - 1).
  { rewrite <- La. apply position_nth; [assumption|lia]. }
  assert (Pt : Rank.position f topn = length agg - 1).
  { rewrite <- Lt, Htl. apply position_nth; [assumption|lia]. }
  assert (Hf : In f agg) by (rewrite <- La; apply nth_In; lia).
  rewrite last_is_nth, Hlen.
  set (x := nth (length agg - 1) fused ""%string).
  assert (Fx : In x fused) by (apply nth_In; lia).
  assert (Hx : In x agg).
  { eapply Permutation_in; [exact (fused_perm agg topn agg_nodup topn_perm)|exact Fx]. }
  assert (Px : Rank.position x fused = length agg - 1).
  { apply position_nth; [exact fused_nodup|lia]. }
  destruct (string_dec x f) as [E|N]; [exact E|exfalso].
  assert (Hlt : (Rank.mean_position agg topn x < Rank.mean_position agg topn f)%Qc).
  { destruct (Qclt_le_dec (Rank.mean_position agg topn x)
                          (Rank.mean_position agg topn f)) as [L|G]; [exact L|].
    exfalso. apply mean_position_le in G. rewrite Pa, Pt in G.
    assert (Tx : In x topn).
    { eapply Permutation_in; [symmetry; exact topn_perm|exact Hx]. }
    destruct (position_found x agg ""%string Hx) as [B1 E1].
    destruct (position_found x topn ""%string Tx) as [B2 E2].
    assert (Rank.position x agg = length agg - 1) as Q by lia.
    rewrite Q, La in E1. congruence. }
  pose proof (fused_strict x f Hx Hf Hlt) as S.
  assert (Ff : In f fused).
  { eapply Permutation_in; [symmetry; exact (fused_perm agg topn agg_nodup topn_perm)|exact Hf]. }
  destruct (position_found f fused ""%string Ff) as [Bf _].
  lia.
Qed.

Lemma fused_of_equal_orderings : topn = agg -> fused = agg.
Proof.
  intros E. unfold fused, fused_order.
  assert (Hidx : Np.argsort (Rank.avg_rank agg topn) = seq 0 (length agg)).
  { apply sorted_perm_unique.
    - rewrite <- (map_id (Np.argsort (Rank.avg_rank agg topn))).
      eapply StronglySorted_map_in; [|apply Np.argsort_spec].
      intros i j Hi Hj Hle. cbv beta in Hle.
      pose proof (perm_seq_in_range _ _ (argsort_avg_rank_perm agg topn
                                           agg_nodup topn_perm)) as Hr.
      rewrite Forall_forall in Hr.
      assert (Nt : NoDup topn) by (rewrite E; exact agg_nodup).
      assert (It : incl agg topn) by (rewrite E; apply incl_refl).
      rewrite !(avg_rank_key agg topn _ ""%string) in Hle by auto.
      apply mean_position_le in Hle. rewrite E in Hle.
      rewrite !position_nth in Hle by auto. unfold id. lia.
    - apply seq_sorted.
    - now apply argsort_avg_rank_perm. }
  rewrite Hidx. apply map_nth_seq.
Qed.

End FusedOrder.

(** X5: for distinct features the fused ordering respects the mean
    positions strictly: a feature whose mean position is strictly
    smaller than another's comes strictly earlier in the fused ordering,
    whatever the index sort does with equal keys; in particular a
    feature that is last in both orderings is last in the fused one. *)
Theorem fused_ranking_strict_order
        {SO : Rank.Sorting} {AS : Np.Argsort}
        (learners : Pd.table) (xs : list feature) (outdir : string)
        (nq : Z) (plot : bool) :
  NoDup xs -> xs <> [] ->
  let agg := Rank.aggregate_sort learners xs in
  let topn := Rank.topn_sort learners xs in
  exists fused,
    snd (Rank.calculate_feature_importance learners xs outdir nq plot)
    = Ok (agg, topn, fused) /\
    (forall x y, In x xs -> In y xs ->
       (Rank.mean_position agg topn x < Rank.mean_position agg topn y)%Qc ->
       Rank.position x fused < Rank.position y fused) /\
    (forall f, last agg ""%string = f -> last topn ""%string = f ->
               last fused ""%string = f).
Proof.
  intros Hn Hne agg topn.
  destruct (sorting_nodup learners xs Hn) as [Na Pt]. fold agg topn in Na, Pt.
  assert (Pa : Permutation agg xs) by apply Rank.aggregate_sort_all.
  exists (fused_order agg topn). split; [now apply calculate_returns|]. split.
  - intros x y Hx Hy Hlt. apply fused_strict; try assumption.
    + eapply Permutation_in; [symmetry; exact Pa|exact Hx].
    + eapply Permutation_in; [symmetry; exact Pa|exact Hy].
  - intros f La Lt. apply fused_last; try assumption.
    intros E. rewrite E in Pa. apply Permutation_nil in Pa. congruence.
Qed.

Lemma fused_ranking_strict_order_witness :
  let agg := Rank.spec_aggregate_sort table_tied three_features in
  let topn := Rank.spec_topn_sort 1 table_tied three_features in
  exists fused,
    snd (@Rank.calculate_feature_importance (spec_sorting 1) reversing_argsort
           table_tied three_features "out" 2 true)
    = Ok (agg, topn, fused) /\
    (forall x y, In x three_features -> In y three_features ->
       (Rank.mean_position agg topn x < Rank.mean_position agg topn y)%Qc ->
       Rank.position x fused < Rank.position y fused) /\
    (forall f, last agg ""%string = f -> last topn ""%string = f ->
               last fused ""%string = f).
Proof.
  apply (@fused_ranking_strict_order (spec_sorting 1) reversing_argsort
           table_tied three_features "out"%string 2%Z true).
  - exact three_features_nodup.
  - discriminate.
Defined.

(** One diagnosis: both strategies give the order [a, b, c]. *)
Definition table_agree : Pd.table :=
  {| Pd.t_index := [Some (Pd.CStr "d1")];
     Pd.t_columns := three_features;
     Pd.t_data := [[imp 5 10; imp 3 10; imp 2 10]] |}.

(** X6: when the two strategies give the same ordering of distinct
    features, the fused ordering is that ordering, whatever the index
    sort does with equal keys (no two mean positions are equal then). *)
Theorem fused_ranking_of_agreeing_strategies
        {SO : Rank.Sorting} {AS : Np.Argsort}
        (learners : Pd.table) (xs : list feature) (outdir : string)
        (nq : Z) (plot : bool) :
  NoDup xs ->
  Rank.topn_sort learners xs = Rank.aggregate_sort learners xs ->
  snd (Rank.calculate_feature_importance learners xs outdir nq plot)
  = Ok (Rank.aggregate_sort learners xs, Rank.aggregate_sort learners xs,
        Rank.aggregate_sort learners xs).
Proof.
  intros Hn E.
  destruct (sorting_nodup learners xs Hn) as [Na Pt].
  rewrite calculate_returns by assumption.
  rewrite (fused_of_equal_orderings _ _ Na Pt E), E. reflexivity.
Qed.

Lemma fused_ranking_of_agreeing_strategies_witness :
  snd (@Rank.calculate_feature_importance (spec_sorting 1) reversing_argsort
         table_agree three_features "out" 2 true)
  = Ok (Rank.spec_aggregate_sort table_agree three_features,
        Rank.spec_aggregate_sort table_agree three_features,
        Rank.spec_aggregate_sort table_agree three_features).
Proof.
  apply (@fused_ranking_of_agreeing_strategies (spec_sorting 1) reversing_argsort
           table_agree three_features "out"%string 2%Z true).
  - exact three_features_nodup.
  - vm_compute. reflexivity.
Defined.

(** ** Failures in the sweep *)

Section SweepFailures.

Context {SK : Fit.Sklearn} {LS : Fit.LearnerSummary}.

Import Fit Sweep.

Lemma collect_task_failure (df : Pd.dataset) (sorted : list feature)
      (ys : list diagnosis) (s : schedule) (task : nat * list feature) (e : exn) :
  In task (submitted sorted) -> run_task df ys s task = Raise e ->
  forall s', exists e', collect df sorted ys s' = Raise e'.
Proof.
  intros Hin Hr s'. unfold collect.
  apply (mapM_raise (run_task df ys s') _ task e).
  - eapply Permutation_in; [symmetry; apply as_completed_perm|exact Hin].
  - now rewrite (run_task_any_worker df ys s' s).
Qed.

Lemma degrading_fit_raises_on_task (df : Pd.dataset) (sorted : list feature)
      (ys : list diagnosis) (threads : Z) (verbose : bool)
      (s : schedule) (task : nat * list feature) (e : exn) :
  In task (submitted sorted) -> run_task df ys s task = Raise e ->
  forall s', exists e', degrading_fit df sorted ys threads verbose s' = Raise e'.
Proof.
  intros Hin Hr s'. unfold degrading_fit.
  destruct (threads <=? 0)%Z; [eauto|].
  destruct (collect_task_failure df sorted ys s task e Hin Hr s') as [e' ->].
  simpl. eauto.
Qed.

End SweepFailures.

(** X7: when the fit of one of the submitted feature subsets raises,
    the sweep raises, under every schedule: whatever the order in which
    the futures are collected and whatever the other tasks returned, no
    partial tables are returned. *)
Theorem degrading_fit_task_failure
        {SK : Fit.Sklearn} {LS : Fit.LearnerSummary}
        (df : Pd.dataset) (sorted : list feature) (ys : list diagnosis)
        (threads : Z) (verbose : bool) (s : Sweep.schedule)
        (task : nat * list feature) (e : exn) :
  In task (Sweep.submitted sorted) ->
  Sweep.run_task df ys s task = Raise e ->
  forall s', exists e',
    Sweep.degrading_fit df sorted ys threads verbose s' = Raise e'.
Proof.
  intros Hin Hr s'. unfold Sweep.degrading_fit.
  destruct (threads <=? 0)%Z; [eauto|].
  assert (Hin' : In task (Sweep.as_completed (Sweep.picks s') (Sweep.submitted sorted))).
  { eapply Permutation_in; [symmetry; apply as_completed_perm|exact Hin]. }
  rewrite (run_task_any_worker df ys s s') in Hr.
  destruct (mapM_raise (Sweep.run_task df ys s') _ task e Hin' Hr) as [e' He'].
  unfold Sweep.collect. rewrite He'. simpl. eauto.
Qed.

Lemma degrading_fit_task_failure_witness :
  exists e',
    @Sweep.degrading_fit Stub.sklearn Stub.learner_summary
       Stub.survey three_features ["dx1"; "none"]%string 4 true other_workers
    = Raise e'.
Proof.
  refine (@degrading_fit_task_failure Stub.sklearn Stub.learner_summary
            Stub.survey three_features ["dx1"; "none"]%string 4%Z true
            two_workers (1, ["a"; "b"]%string) IndexError _ _ other_workers).
  - vm_compute. auto.
  - vm_compute. reflexivity.
Defined.

(** X8: the sweep never returns tables for an empty diagnosis list or
    for an empty ranked feature list: with no diagnosis every submitted
    fit fails when it concatenates its (empty) list of summaries, and
    with no feature nothing is submitted and the final concatenation
    has nothing to concatenate. *)
Theorem degrading_fit_empty_input
        {SK : Fit.Sklearn} {LS : Fit.LearnerSummary}
        (df : Pd.dataset) (sorted : list feature) (ys : list diagnosis)
        (threads : Z) (verbose : bool) (s : Sweep.schedule) :
  is_ok (Sweep.degrading_fit df sorted [] threads verbose s) = false /\
  is_ok (Sweep.degrading_fit df [] ys threads verbose s) = false.
Proof.
  split.
  - destruct sorted as [|x sorted'] eqn:E.
    + unfold Sweep.degrading_fit. destruct (threads <=? 0)%Z; reflexivity.
    + rewrite <- E.
      assert (Hin : In (0, sorted) (Sweep.submitted sorted)).
      { unfold Sweep.submitted.
        assert (Hs : Sweep.subsets sorted = sorted :: tl (Sweep.subsets sorted)).
        { pose proof (subsets_nth sorted 0) as H0.
          pose proof (subsets_length sorted) as HL.
          destruct (Sweep.subsets sorted) as [|p ps].
          - rewrite E in HL. discriminate.
          - simpl in H0. rewrite H0 by (rewrite E; simpl; lia).
            now rewrite Nat.sub_0_r, firstn_all. }
        rewrite Hs, E. simpl. now left. }
      destruct (fit_models_no_diagnoses df sorted false (Sweep.worker s 0)) as [e He].
      destruct (degrading_fit_raises_on_task df sorted [] threads verbose s
                  (0, sorted) e Hin) with (s' := s) as [e' ->]; [|reflexivity].
      unfold Sweep.run_task. cbn [fst snd]. now rewrite He.
  - unfold Sweep.degrading_fit. destruct (threads <=? 0)%Z; reflexivity.
Qed.

(** ** The importance table of the sweep *)

(** A row filled up with missing entries to [n] columns. *)
Definition pad (n : nat) (r : list (option Pd.cell)) : list (option Pd.cell) :=
  r ++ repeat None (n - length r).

Lemma fold_left_add_app (u v acc : list string) :
  fold_left add_label (u ++ v) acc = fold_left add_label v (fold_left add_label u acc).
Proof. apply fold_left_app. Qed.

Lemma firstn_subset {A} (l : list A) (k : nat) : incl (firstn k l) l.
Proof.
  intros x Hx. rewrite <- (firstn_skipn k l). apply in_or_app. now left.
Qed.

Lemma firstn_incl_le {A} (l : list A) (j k : nat) :
  k <= j -> incl (firstn k l) (firstn j l).
Proof.
  intros H. replace (firstn k l) with (firstn k (firstn j l)).
  - apply firstn_subset.
  - rewrite firstn_firstn. f_equal. lia.
Qed.

Lemma firstn_extend {A} (l : list A) (j k : nat) :
  j <= k -> firstn k l = firstn j l ++ firstn (k - j) (skipn j l).
Proof.
  intros H. rewrite <- (firstn_skipn j l) at 1.
  rewrite firstn_app, length_firstn.
  destruct (Nat.le_ge_cases j (length l)) as [L|G].
  - rewrite Nat.min_l by exact L.
    rewrite firstn_all2 by (rewrite length_firstn; lia). reflexivity.
  - rewrite Nat.min_r by exact G.
    rewrite (firstn_all2 (n := k)) by (rewrite length_firstn; lia).
    rewrite skipn_all2 by exact G. now rewrite !firstn_nil.
Qed.

Lemma add_labels_prefix (l : list string) (j k : nat) :
  NoDup l ->
  fold_left add_label (firstn k l) (firstn j l) = firstn (Nat.max j k) l.
Proof.
  intros Hn. destruct (Nat.le_ge_cases k j) as [L|G].
  - rewrite Nat.max_l by exact L.
    apply add_labels_known. now apply firstn_incl_le.
  - rewrite Nat.max_r by exact G.
    rewrite (firstn_extend l j k G), fold_left_add_app.
    rewrite (add_labels_known (firstn j l) (firstn j l)) by apply incl_refl.
    apply add_labels_fresh. rewrite <- firstn_extend by exact G.
    now apply NoDup_firstn.
Qed.

Lemma union_prefixes_from (l : list string) (ls : list (list string)) (j : nat) :
  NoDup l ->
  Forall (fun p => exists k, p = firstn k l) ls ->
  exists j', j <= j' /\
    fold_left (fun acc p => fold_left add_label p acc) ls (firstn j l) = firstn j' l /\
    (In l ls -> length l <= j').
Proof.
  intros Hn H. revert j. induction H as [|p ls [k ->] _ IH]; intros j; simpl.
  - exists j. split; [lia|]. split; [reflexivity|intros []].
  - rewrite add_labels_prefix by exact Hn.
    destruct (IH (Nat.max j k)) as (j' & Hj & E & Hl).
    exists j'. split; [lia|]. split; [exact E|].
    intros [Heq|Hin]; [|now apply Hl].
    destruct (Nat.le_gt_cases (length l) k) as [L|G]; [lia|].
    exfalso. apply (f_equal (@length string)) in Heq.
    rewrite length_firstn in Heq. lia.
Qed.

(** The union of prefixes of a duplicate-free list that include the list
    itself is the list, in whatever order the prefixes come. *)
Lemma union_prefixes (l : list string) (ls : list (list string)) :
  NoDup l ->
  Forall (fun p => exists k, p = firstn k l) ls -> In l ls ->
  Pd.union_labels ls = l.
Proof.
  intros Hn H Hin. rewrite union_labels_fold.
  destruct (union_prefixes_from l ls 0 Hn H) as (j' & _ & E & Hl).
  change (@nil string) with (firstn 0 l). rewrite E.
  apply firstn_all2. now apply Hl.
Qed.

Lemma index_of_absent (k : string) (l : list string) :
  ~ In k l -> Pd.index_of k l = None.
Proof.
  induction l as [|x l IH]; intros H; simpl; [reflexivity|].
  destruct (String.eqb_spec k x) as [->|N]; [elim H; now left|].
  rewrite IH; [reflexivity|]. intros Hin. apply H. now right.
Qed.

Lemma realign_own (p : list string) (r : list (option Pd.cell)) :
  NoDup p -> length r = length p ->
  map (fun c => match Pd.index_of c p with
                | Some i => nth i r None
                | None => None
                end) p = r.
Proof.
  intros Hn. revert r. induction Hn as [|x p Hx Hn IH]; intros [|v r] Hl;
    simpl in *; try discriminate; try reflexivity.
  rewrite String.eqb_refl. f_equal.
  etransitivity; [|apply (IH r); lia]. apply map_ext_in. intros c Hc.
  destruct (String.eqb_spec c x) as [->|N]; [contradiction|].
  destruct (Pd.index_of c p); reflexivity.
Qed.

Lemma nodup_app_apart {A} (u v : list A) (c : A) :
  NoDup (u ++ v) -> In c u -> In c v -> False.
Proof.
  induction u as [|a u IH]; intros H Hu Hv; [contradiction|].
  simpl in H. inversion H as [|? ? Ha Hrest]; subst.
  destruct Hu as [->|Hu]; [|now apply IH].
  apply Ha, in_or_app. now right.
Qed.

Lemma realign_prefix (l : list string) (k : nat) (r : list (option Pd.cell)) :
  NoDup l -> length r = length (firstn k l) ->
  Pd.realign (firstn k l) l r = pad (length l) r.
Proof.
  intros Hn Hl. unfold Pd.realign, pad.
  set (F := fun c => match Pd.index_of c (firstn k l) with
                     | Some i => nth i r None
                     | None => None
                     end).
  transitivity (map F (firstn k l ++ skipn k l)); [now rewrite firstn_skipn|].
  rewrite map_app. unfold F. f_equal.
  - apply realign_own; [now apply NoDup_firstn|exact Hl].
  - assert (E : length l - length r = length (skipn k l)).
    { rewrite Hl, length_firstn, length_skipn. lia. }
    rewrite E. clear E.
    assert (Hd : forall c, In c (skipn k l) -> ~ In c (firstn k l)).
    { rewrite <- (firstn_skipn k l) in Hn. intros c Hc Hc'.
      exact (nodup_app_apart _ _ c Hn Hc' Hc). }
    induction (skipn k l) as [|c t IH]; simpl; [reflexivity|].
    rewrite index_of_absent by (apply Hd; now left).
    f_equal. apply IH. intros z Hz. apply Hd. now right.
Qed.

Section SweepTable.

Context {SK : Fit.Sklearn} {LS : Fit.LearnerSummary}.

Import Fit Sweep.

(** The importance table of one completed call. *)
Lemma fit_models_learners_rows (df : Pd.dataset) (xs : list feature)
      (ys : list diagnosis) (verbose : bool) (w w' : world)
      (learners summaries : Pd.table) :
  NoDup xs -> ~ In "Dx"%string xs -> importances_normalised (length xs) ->
  fit_models df xs ys verbose w = (Ok (learners, summaries), w') ->
  Pd.t_columns learners = xs /\
  Forall (fun r => length r = length xs) (Pd.t_data learners).
Proof.
  intros Hn Hd Hnorm H.
  apply fit_models_ok_inv in H.
  destruct H as (X & per & fr & HX & Hper & Hfr & HS & HL).
  apply values_rows_ok in HX.
  assert (Hrows : exists rows : list (diagnosis * list Qc),
             map snd per = map (fun r => row_dict xs (fst r) (snd r)) rows /\
             Forall (fun r => good_vec (length xs) (snd r)) rows).
  { clear - Hper Hn Hd Hnorm HX.
    induction Hper as [|y p ys per (w1 & w2 & Hp) _ IH].
    - exists []. split; constructor.
    - destruct IH as (rows & E1 & E3). destruct p as [s row].
      eapply (fit_one_ok (length xs) Hnorm) in Hp; try eassumption; [|reflexivity].
      destruct Hp as [_ (means & -> & Hgood)].
      exists ((y, means) :: rows). simpl. rewrite E1.
      split; [reflexivity|]. now constructor. }
  destruct Hrows as (rows & E1 & E3).
  rewrite E1 in HL.
  assert (Hne : rows <> []).
  { intros ->. simpl in HL. discriminate. }
  rewrite from_dict_rows in HL; try assumption.
  - injection HL as <-. cbn [Pd.t_columns Pd.t_data].
    split; [reflexivity|].
    apply Forall_map. eapply Forall_impl; [|exact E3].
    intros r (G1 & _). now rewrite length_map.
  - eapply Forall_impl; [|exact E3]. now intros r [G _].
Qed.

Lemma subsets_are_prefixes (sorted xi : list feature) :
  In xi (subsets sorted) ->
  exists k, xi = firstn k sorted.
Proof.
  rewrite subsets_prefixes. intros H. apply in_map_iff in H.
  destruct H as (k & <- & _). eauto.
Qed.

Lemma submitted_tasks (sorted : list feature) (task : nat * list feature) :
  In task (submitted sorted) -> In (snd task) (subsets sorted).
Proof.
  intros H. rewrite <- submitted_subsets. now apply in_map.
Qed.

Lemma submitted_whole (sorted : list feature) :
  sorted <> [] -> In (0, sorted) (submitted sorted).
Proof.
  intros Hne. unfold submitted.
  pose proof (subsets_nth sorted 0) as H0.
  pose proof (subsets_length sorted) as HL.
  destruct sorted as [|x sorted'] eqn:E; [congruence|]. rewrite <- E in *.
  destruct (subsets sorted) as [|p ps].
  - rewrite E in HL. discriminate.
  - simpl in H0. rewrite H0 by (rewrite E; simpl; lia).
    rewrite Nat.sub_0_r, firstn_all, E. simpl. now left.
Qed.

Variable df : Pd.dataset.
Variable sorted : list feature.
Variable ys : list diagnosis.
Hypothesis sorted_nodup : NoDup sorted.
Hypothesis sorted_no_dx : ~ In "Dx"%string sorted.
Hypothesis normalised : forall f, importances_normalised f.

Lemma task_learners (s : schedule) (task : nat * list feature) (L S : Pd.table) :
  In task (submitted sorted) ->
  run_task df ys s task = Ok (L, S) ->
  Pd.t_columns L = snd task /\
  (exists k, snd task = firstn k sorted) /\
  Forall (fun r => length r = length (snd task)) (Pd.t_data L).
Proof.
  intros Hin Hr.
  destruct (subsets_are_prefixes sorted (snd task) (submitted_tasks _ _ Hin))
    as [k Ek].
  unfold run_task in Hr.
  destruct (fit_models df (snd task) ys false (worker s (fst task)))
    as [r w'] eqn:E.
  simpl in Hr. subst r.
  apply fit_models_learners_rows in E.
  - destruct E as [E1 E2]. split; [exact E1|]. split; [eauto|exact E2].
  - rewrite Ek. now apply NoDup_firstn.
  - rewrite Ek. intros Hdx. apply sorted_no_dx. eapply firstn_subset. exact Hdx.
  - apply normalised.
Qed.

Lemma collect_learners (s : schedule) (tuples : list (Pd.table * Pd.table)) :
  sorted <> [] ->
  collect df sorted ys s = Ok tuples ->
  Forall (fun tu => exists k,
              Pd.t_columns (fst tu) = firstn k sorted /\
              Forall (fun r => length r = length (firstn k sorted))
                     (Pd.t_data (fst tu))) tuples /\
  In sorted (map (fun tu => Pd.t_columns (fst tu)) tuples).
Proof.
  intros Hne Hc. unfold collect in Hc. apply mapM_ok_inv in Hc.
  assert (Hall : forall task, In task (as_completed (picks s) (submitted sorted)) ->
                              In task (submitted sorted)).
  { intros task. apply Permutation_in, as_completed_perm. }
  assert (Hwhole : In (0, sorted) (as_completed (picks s) (submitted sorted))).
  { eapply Permutation_in; [symmetry; apply as_completed_perm|].
    now apply submitted_whole. }
  split.
  - clear Hwhole. induction Hc as [|task tu tasks tuples Ht _ IH]; constructor.
    + destruct tu as [L S].
      destruct (task_learners s task L S (Hall task (or_introl eq_refl)) Ht)
        as (E1 & [k Ek] & E2).
      exists k. cbn [fst]. rewrite E1, <- Ek. auto.
    + apply IH. intros t Ht'. apply Hall. now right.
  - clear Hne. induction Hc as [|task tu tasks tuples Ht _ IH]; [contradiction|].
    simpl. destruct Hwhole as [->|Hw].
    + left. destruct tu as [L S].
      destruct (task_learners s (0, sorted) L S
                  (Hall (0, sorted) (or_introl eq_refl)) Ht) as (E1 & _).
      exact E1.
    + right. apply IH; [|exact Hw]. intros t Ht'. apply Hall. now right.
Qed.

(** X9: for a ranked list of distinct features (none called "Dx") and
  normalised sub-model importances, the importance table a sweep
  returns has the ranked features as its columns, in rank order,
  whatever the order in which the fits are collected; its rows are the
  rows of the collected fits, each filled up on the right with missing
  entries to the full number of features. *)
Theorem degrading_fit_importance_table (threads : Z) (verbose : bool) (s : schedule)
      (L S : Pd.table) :
  degrading_fit df sorted ys threads verbose s = Ok (L, S) ->
  Pd.t_columns L = sorted /\
  Forall (fun r => length r = length sorted) (Pd.t_data L) /\
  exists tuples,
    collect df sorted ys s = Ok tuples /\
    Pd.t_data L
    = flat_map (fun tu => map (pad (length sorted)) (Pd.t_data (fst tu))) tuples.
Proof.
  intros H. unfold degrading_fit in H.
  destruct (threads <=? 0)%Z; [discriminate|].
  apply bind_ok_inv in H. destruct H as (tuples & Hc & H).
  apply bind_ok_inv in H. destruct H as (S' & HS & H).
  apply bind_ok_inv in H. destruct H as (L' & HL & H).
  injection H as <- <-.
  assert (Hne : sorted <> []).
  { intros E. rewrite E in Hc. unfold collect in Hc. simpl in Hc.
    injection Hc as <-. discriminate. }
  destruct (collect_learners s tuples Hne Hc) as [Hall Hin].
  unfold Pd.concat_tables in HL.
  destruct (map fst tuples) as [|t0 ts0] eqn:E; [discriminate|].
  rewrite <- E in HL. clear E t0 ts0. injection HL as <-.
  cbn [Pd.t_columns Pd.t_data].
  assert (Hcols : Pd.union_labels (map Pd.t_columns (map fst tuples)) = sorted).
  { apply union_prefixes; [exact sorted_nodup| |now rewrite map_map].
    rewrite map_map. apply Forall_map.
    eapply Forall_impl; [|exact Hall]. intros tu (k & Ek & _). eauto. }
  rewrite Hcols.
  assert (Hdata : flat_map (fun t => map (Pd.realign (Pd.t_columns t) sorted)
                                         (Pd.t_data t)) (map fst tuples)
                  = flat_map (fun tu => map (pad (length sorted))
                                            (Pd.t_data (fst tu))) tuples).
  { clear - Hall sorted_nodup.
    induction Hall as [|tu tuples (k & Ek & Hr) _ IH]; simpl; [reflexivity|].
    rewrite IH. f_equal. apply map_ext_in. intros r Hin.
    rewrite Ek. apply realign_prefix; [exact sorted_nodup|].
    rewrite Forall_forall in Hr. now apply Hr. }
  split; [reflexivity|]. split.
  - rewrite Hdata. apply Forall_forall. intros r Hr.
    apply in_flat_map in Hr. destruct Hr as (tu & Htu & Hr).
    apply in_map_iff in Hr. destruct Hr as (r0 & <- & Hr0).
    rewrite Forall_forall in Hall. destruct (Hall tu Htu) as (k & _ & Hlen).
    rewrite Forall_forall in Hlen. specialize (Hlen r0 Hr0).
    unfold pad. rewrite length_app, repeat_length, Hlen, length_firstn. lia.
  - exists tuples. split; [exact Hc|exact Hdata].
Qed.

End SweepTable.

Lemma Qc_inv_nat_nonneg (n : nat) : (0 <= / Qc_of_nat n)%Qc.
Proof.
  destruct n as [|n]; [apply Qcle_refl|].
  assert (Hnz : Qc_of_nat (S n) <> 0%Qc) by (apply Qc_of_nat_nonzero; lia).
  assert (L : (0 <= Qc_of_nat (S n))%Qc).
  { change 0%Qc with (Qc_of_nat 0). apply Qc_of_nat_le. lia. }
  destruct (Qclt_le_dec (/ Qc_of_nat (S n)) 0) as [Hlt|]; [|assumption].
  exfalso.
  assert (C : (/ Qc_of_nat (S n) * Qc_of_nat (S n) <= 0 * Qc_of_nat (S n))%Qc).
  { apply Qcmult_le_compat_r; [now apply Qclt_le_weak|assumption]. }
  rewrite Qcmult_inv_l, Qcmult_0_l in C by assumption.
  revert C. apply Qclt_not_le. reflexivity.
Qed.

Lemma total_repeat (c : Qc) (n : nat) :
  Vec.total (repeat c n) = (Qc_of_nat n * c)%Qc.
Proof.
  induction n as [|n IH]; simpl.
  - change (Qc_of_nat 0) with 0%Qc. now rewrite Qcmult_0_l.
  - rewrite IH. change (S n) with (1 + n). rewrite Qc_of_nat_add.
    change (Qc_of_nat 1) with 1%Qc. ring.
Qed.

Lemma uniform_good (f : nat) : 0 < f -> good_vec f (Stub.uniform f).
Proof.
  intros Hf. unfold Stub.uniform. split; [apply repeat_length|]. split.
  - apply Forall_forall. intros q Hq. apply repeat_spec in Hq. subst q.
    unfold Qcdiv. rewrite Qcmult_1_l. apply Qc_inv_nat_nonneg.
  - rewrite total_repeat. apply Qcmult_div_r. apply Qc_of_nat_nonzero. exact Hf.
Qed.

Lemma stub_normalised_all : forall f, @importances_normalised Stub.sklearn f.
Proof.
  intros f g X y m g' Hfit HX.
  change (match Vec.width X with
          | 0 => (Raise ValueError, g)
          | S k => (Ok (S k), (fst g, S (snd g)))
          end = (Ok m, g')) in Hfit.
  destruct (Vec.width X) as [|k] eqn:E; [discriminate|].
  injection Hfit as <- _.
  assert (Hk : S k = f).
  { rewrite <- E. apply width_rows_ok; [|exact HX]. intros ->. discriminate. }
  rewrite Hk. split; [discriminate|].
  change (Forall (good_vec f) [Stub.uniform f; Stub.uniform f]).
  assert (G : good_vec f (Stub.uniform f)) by (apply uniform_good; lia).
  constructor; [exact G|]. constructor; [exact G|constructor].
Qed.

Lemma degrading_fit_importance_table_witness :
  exists L S,
    @Sweep.degrading_fit Stub.sklearn Stub.learner_summary
       Stub.survey three_features ["dx1"; "dx2"]%string 4 true two_workers
    = Ok (L, S) /\
    Pd.t_columns L = three_features /\
    Forall (fun r => length r = length three_features) (Pd.t_data L) /\
    exists tuples,
      @Sweep.collect Stub.sklearn Stub.learner_summary
         Stub.survey three_features ["dx1"; "dx2"]%string two_workers = Ok tuples /\
      Pd.t_data L
      = flat_map (fun tu => map (pad (length three_features)) (Pd.t_data (fst tu)))
                 tuples.
Proof.
  destruct (@Sweep.degrading_fit Stub.sklearn Stub.learner_summary
              Stub.survey three_features ["dx1"; "dx2"]%string 4 true two_workers)
    as [[L S]|e] eqn:E; [|vm_compute in E; discriminate E].
  exists L, S. split; [reflexivity|].
  apply (@degrading_fit_importance_table Stub.sklearn Stub.learner_summary
           Stub.survey three_features ["dx1"; "dx2"]%string
           three_features_nodup) with (threads := 4%Z) (verbose := true) (S := S).
  - simpl. intuition discriminate.
  - exact stub_normalised_all.
  - exact E.
Defined.

(** ** The class counts read for a diagnosis *)

Definition counts_repr (a b : nat) : list (Z * nat) :=
  (if a =? 0 then [] else [(0%Z, a)]) ++ (if b =? 0 then [] else [(1%Z, b)]).

Lemma bump_zero (a b : nat) : Np.bump 0 (counts_repr a b) = counts_repr (S a) b.
Proof. destruct a, b; reflexivity. Qed.

Lemma bump_one (a b : nat) : Np.bump 1 (counts_repr a b) = counts_repr a (S b).
Proof. destruct a, b; reflexivity. Qed.

Lemma unique_counts_binary_from (y : list Z) (a b : nat) :
  (forall v, In v y -> v = 0%Z \/ v = 1%Z) ->
  fold_left (fun acc v => Np.bump v acc) y (counts_repr a b)
  = counts_repr (a + count_occ Z.eq_dec y 0%Z) (b + count_occ Z.eq_dec y 1%Z).
Proof.
  revert a b; induction y as [|v y IH]; intros a b H.
  - simpl. now rewrite !Nat.add_0_r.
  - cbn [fold_left].
    destruct (H v (or_introl eq_refl)) as [->| ->].
    + rewrite bump_zero, IH by (intros; apply H; now right).
      simpl. f_equal; lia.
    + rewrite bump_one, IH by (intros; apply H; now right).
      simpl. f_equal; lia.
Qed.

Lemma binary_counts_total (y : list Z) :
  (forall v, In v y -> v = 0%Z \/ v = 1%Z) ->
  count_occ Z.eq_dec y 0%Z + count_occ Z.eq_dec y 1%Z = length y.
Proof.
  induction y as [|v y IH]; intros H; [reflexivity|].
  specialize (IH (fun u Hu => H u (or_intror Hu))).
  simpl. destruct (H v (or_introl eq_refl)) as [->| ->].
  - destruct (Z.eq_dec 0 0) as [_|N]; [|congruence].
    destruct (Z.eq_dec 0 1) as [C|_]; [discriminate|]. lia.
  - destruct (Z.eq_dec 1 1) as [_|N]; [|congruence].
    destruct (Z.eq_dec 1 0) as [C|_]; [discriminate|]. lia.
Qed.

Lemma binary_counts_read (y : list Z) (hc pt : nat) :
  (forall v, In v y -> v = 0%Z \/ v = 1%Z) ->
  Np.getitem (map snd (Np.unique_counts y)) 0 = Ok hc ->
  Np.getitem (map snd (Np.unique_counts y)) 1 = Ok pt ->
  hc = count_occ Z.eq_dec y 0%Z /\ pt = count_occ Z.eq_dec y 1%Z /\
  0 < hc /\ 0 < pt /\ hc + pt = length y.
Proof.
  intros Hb H0 H1.
  assert (E : Np.unique_counts y
              = counts_repr (count_occ Z.eq_dec y 0%Z) (count_occ Z.eq_dec y 1%Z)).
  { unfold Np.unique_counts.
    change (@nil (Z * nat)) with (counts_repr 0 0).
    now rewrite unique_counts_binary_from. }
  pose proof (binary_counts_total y Hb) as T.
  rewrite E in H0, H1. unfold counts_repr in H0, H1.
  destruct (count_occ Z.eq_dec y 0%Z) as [|a];
    destruct (count_occ Z.eq_dec y 1%Z) as [|b];
    simpl in H0, H1; try discriminate.
  injection H0 as <-. injection H1 as <-. repeat split; lia.
Qed.

(** X10: when the diagnosis columns hold the labels 0 and 1 only, the
    learner of every diagnosis of a completed call has been created
    with the number of samples labelled 0 as [hc_n] and the number
    labelled 1 as [dx_n], both positive and adding up to the number of
    samples, and the summary table is built from the summaries of these
    learners, in the order of the diagnoses. *)
Theorem class_counts_binary
        {SK : Fit.Sklearn} {LS : Fit.LearnerSummary}
        (df : Pd.dataset) (xs : list feature) (ys : list diagnosis)
        (verbose : bool) (w w' : Fit.world) (learners summaries : Pd.table) :
  (forall y_name y v,
     In y_name ys -> Pd.int_column df y_name = Ok y -> In v y ->
     v = 0%Z \/ v = 1%Z) ->
  Fit.fit_models df xs ys verbose w = (Ok (learners, summaries), w') ->
  exists ls fr,
    map Fit.dx ls = ys /\
    Forall (fun l => exists y,
                Pd.int_column df (Fit.dx l) = Ok y /\
                Fit.hc_n l = count_occ Z.eq_dec y 0%Z /\
                Fit.dx_n l = count_occ Z.eq_dec y 1%Z /\
                0 < Fit.hc_n l /\ 0 < Fit.dx_n l /\
                Fit.hc_n l + Fit.dx_n l = length y) ls /\
    Pd.concat_frames (map Fit.summary ls) = Ok fr /\
    Pd.set_index "Dx" fr = Ok summaries.
Proof.
  intros Hb H. apply fit_models_learners in H.
  destruct H as (X & per & fr & ls & HX & L1 & L2 & L3 & L5 & Hfr & HS & HL).
  exists ls, fr. split; [exact L1|]. split; [|auto].
  apply Forall_forall. intros l Hl. rewrite Forall_forall in L3.
  destruct (L3 l Hl) as (y & Hy & H0 & H1). exists y. split; [exact Hy|].
  apply binary_counts_read; try assumption.
  intros v Hv. apply (Hb (Fit.dx l) y v); try assumption.
  rewrite <- L1. now apply in_map.
Qed.

Lemma class_counts_binary_witness :
  exists learners summaries w' ls fr,
    @Fit.fit_models Stub.sklearn Stub.learner_summary
       Stub.survey three_features ["dx1"; "dx2"]%string true (Stub.fresh 7)
    = (Ok (learners, summaries), w') /\
    map Fit.dx ls = ["dx1"; "dx2"]%string /\
    Forall (fun l => exists y,
                Pd.int_column Stub.survey (Fit.dx l) = Ok y /\
                Fit.hc_n l = count_occ Z.eq_dec y 0%Z /\
                Fit.dx_n l = count_occ Z.eq_dec y 1%Z /\
                0 < Fit.hc_n l /\ 0 < Fit.dx_n l /\
                Fit.hc_n l + Fit.dx_n l = length y) ls /\
    Pd.concat_frames (map (@Fit.summary Stub.learner_summary) ls) = Ok fr /\
    Pd.set_index "Dx" fr = Ok summaries.
Proof.
  destruct (@Fit.fit_models Stub.sklearn Stub.learner_summary
              Stub.survey three_features ["dx1"; "dx2"]%string true (Stub.fresh 7))
    as [[[learners summaries]|e] w'] eqn:E; [|vm_compute in E; discriminate E].
  assert (Hb : forall y_name y v,
             In y_name ["dx1"; "dx2"]%string ->
             Pd.int_column Stub.survey y_name = Ok y -> In v y ->
             v = 0%Z \/ v = 1%Z).
  { intros y_name y v Hin Hy Hv. simpl in Hin.
    destruct Hin as [<-|[<-|[]]]; vm_compute in Hy; injection Hy as <-;
      simpl in Hv; intuition. }
  destruct (@class_counts_binary Stub.sklearn Stub.learner_summary
              Stub.survey three_features ["dx1"; "dx2"]%string true
              (Stub.fresh 7) w' learners summaries Hb E) as (ls & fr & Hrest).
  exists learners, summaries, w', ls, fr. split; [reflexivity|exact Hrest].
Defined.

(** ** The index of the summary table *)

Lemma index_of_found (k : string) (l : list string) (i : nat) (d : string) :
  Pd.index_of k l = Some i -> i < length l /\ nth i l d = k.
Proof.
  revert i; induction l as [|x l IH]; intros i H; simpl in H; [discriminate|].
  destruct (String.eqb_spec k x) as [->|N].
  - injection H as <-. split; [simpl; lia|reflexivity].
  - destruct (Pd.index_of k l) as [j|]; [|discriminate].
    injection H as <-. destruct (IH j eq_refl) as [L E].
    split; [simpl; lia|exact E].
Qed.

Lemma nth_realign (C U : list string) (r : list (option Pd.cell)) (i : nat) :
  i < length U ->
  nth i (Pd.realign C U r) None
  = match Pd.index_of (nth i U ""%string) C with
    | Some j => nth j r None
    | None => None
    end.
Proof.
  intros H. unfold Pd.realign.
  set (F := fun c => match Pd.index_of c C with
                     | Some j => nth j r None
                     | None => None
                     end).
  rewrite (nth_indep _ None (F ""%string)) by now rewrite length_map.
  apply (map_nth F).
Qed.

Section SummaryIndex.

Context {SK : Fit.Sklearn} {LS : Fit.LearnerSummary}.

Import Fit.

Lemma fit_fold_keeps_dx (X : matrix) (y : list Z) (l l' : Learner)
      (fold : list nat * list nat) (w w' : world) :
  fit_fold X y l fold w = (Ok l', w') -> dx l' = dx l.
Proof.
  intros H. destruct fold as [idx_train idx_test].
  apply fit_fold_ok_inv in H.
  destruct H as (X_tr & y_tr & clf & g' & _ & _ & _ & _ & Edx & _).
  exact Edx.
Qed.

Lemma fit_one_summary_dx (df : Pd.dataset) (X : matrix) (xs : list feature)
      (y_name : diagnosis) (s : Pd.frame) (row : Pd.dict) (w w' : world) :
  fit_one df X xs y_name w = (Ok (s, row), w') ->
  exists l, s = summary l /\ dx l = y_name.
Proof.
  intros H. unfold fit_one in H.
  apply mbind_ok_inv in H. destruct H as (y & w1 & H1 & H).
  apply mbind_ok_inv in H. destruct H as (hc & w2 & H2 & H).
  apply mbind_ok_inv in H. destruct H as (pt & w3 & H3 & H).
  apply mbind_ok_inv in H. destruct H as (folds & w4 & H4 & H).
  apply mbind_ok_inv in H. destruct H as (l & w5 & H5 & H).
  apply mbind_ok_inv in H. destruct H as (means & w6 & H6 & H).
  injection H as <- _ _. exists l. split; [reflexivity|].
  eapply (foldM_invariant (fun l0 => dx l0 = y_name)); [| |exact H5].
  - intros b a w0 b' w0' Hb Hstep.
    rewrite (fit_fold_keeps_dx _ _ _ _ _ _ _ Hstep). exact Hb.
  - reflexivity.
Qed.

End SummaryIndex.

(** X11: the summary table of a completed call is indexed by the
    diagnoses, in the order in which they were given ([Learner.summary]
    being, as the specification has it, a one-row frame keyed by the
    learner's diagnosis under the label "Dx"). *)
Theorem fit_models_summary_index
        {SK : Fit.Sklearn} {LS : Fit.LearnerSummary}
        (df : Pd.dataset) (xs : list feature) (ys : list diagnosis)
        (verbose : bool) (w w' : Fit.world) (learners summaries : Pd.table) :
  Fit.fit_models df xs ys verbose w = (Ok (learners, summaries), w') ->
  Pd.t_index summaries = map (fun d => Some (Pd.CStr d)) ys.
Proof.
  intros H. apply fit_models_ok_inv in H.
  destruct H as (X & per & fr & HX & Hper & Hfr & HS & HL).
  unfold Pd.concat_frames in Hfr.
  destruct (map fst per) as [|f0 fs0] eqn:E; [discriminate|].
  rewrite <- E in Hfr. clear E f0 fs0. injection Hfr as <-.
  unfold Pd.set_index in HS. cbn [Pd.columns Pd.data] in HS.
  set (U := Pd.union_labels (map Pd.columns (map fst per))) in *.
  destruct (Pd.index_of "Dx" U) as [i|] eqn:Ei; [|discriminate].
  injection HS as <-. cbn [Pd.t_index].
  destruct (index_of_found _ _ _ ""%string Ei) as [Li Ni].
  clearbody U. clear - Hper Li Ni.
  induction Hper as [|y p ys per (w1 & w2 & Hp) _ IH]; [reflexivity|].
  destruct p as [s row]. apply fit_one_summary_dx in Hp.
  destruct Hp as (l & -> & Hdx).
  destruct (Fit.summary_one_row l) as (cols & vals & El).
  cbn [map fst flat_map]. rewrite El. cbn [Pd.columns Pd.data map app].
  rewrite IH. f_equal.
  rewrite nth_realign by exact Li. rewrite Ni. simpl. now rewrite Hdx.
Qed.

Lemma fit_models_summary_index_witness :
  exists learners summaries w',
    @Fit.fit_models Stub.sklearn Stub.learner_summary
       Stub.survey three_features ["dx2"; "dx1"]%string true (Stub.fresh 7)
    = (Ok (learners, summaries), w') /\
    Pd.t_index summaries = map (fun d => Some (Pd.CStr d)) ["dx2"; "dx1"]%string.
Proof.
  destruct (@Fit.fit_models Stub.sklearn Stub.learner_summary
              Stub.survey three_features ["dx2"; "dx1"]%string true (Stub.fresh 7))
    as [[[learners summaries]|e] w'] eqn:E; [|vm_compute in E; discriminate E].
  exists learners, summaries, w'. split; [reflexivity|].
  exact (@fit_models_summary_index Stub.sklearn Stub.learner_summary
           Stub.survey three_features ["dx2"; "dx1"]%string true
           (Stub.fresh 7) w' learners summaries E).
Defined.

(** * Loading and pruning the dataset: [load_data] *)

Module Load.

Import Np Pd.

(** The frame as read from disk: an entry may be missing. *)
Definition sparse := list (string * list (option Qc)).

(** The two label lists of [survey_subsampling.core.constants], which is
    not among the sources: the survey items and all diagnoses.  A label
    names one column: no label is listed twice (for a repeated label
    [df[dx]] would be a frame, not a column). *)
Class Constants : Type := {
  CBCLABCL_items : list string;
  Dx_labels_all : list string;
  labels_once : NoDup (CBCLABCL_items ++ Dx_labels_all)
}.

(** [list(s)] for a Python set [s]: its members, each once, in an order
    the language does not fix. *)
Class SetOrder : Type := {
  list_of_set : list string -> list string;
  list_of_set_members : forall l, Permutation (list_of_set l) (nodup string_dec l)
}.

(** A row of the prevalence table: diagnosis, number of 0s, number of 1s. *)
Record prevalence : Type := {
  p_dx : string;
  p_hc : nat;
  p_pt : nat
}.

Inductive line : Type :=
| PrevalenceTable (rows : list prevalence)
| OriginalLength (n : nat)
| PrunedLength (n : nat).

Fixpoint s_column (df : sparse) (k : string) : result (list (option Qc)) :=
  match df with
  | [] => Raise KeyError
  | (k', c) :: df' => if String.eqb k k' then Ok c else s_column df' k
  end.

(** [len(df)] *)
Definition s_nrows (df : sparse) : nat :=
  match df with
  | [] => 0
  | (_, c) :: _ => length c
  end.

(** [.replace({2.0: 1, 0.0: 0})] on one entry. *)
Definition relabel (e : option Qc) : option Qc :=
  match e with
  | Some v =>
      if Qc_eq_bool v (Qc_of_Z 2) then Some (Qc_of_Z 1)
      else if Qc_eq_bool v (Qc_of_Z 0) then Some (Qc_of_Z 0)
      else Some v
  | None => None
  end.

(** [df[labels] = df[labels].replace({2.0: 1, 0.0: 0})] *)
Definition replace_labels (df : sparse) (labels : list string) : result sparse :=
  let? _ := mapM (s_column df) labels in
  Ok (map (fun kc => if mem (fst kc) labels
                     then (fst kc, map relabel (snd kc)) else kc) df).

Definition present (e : option Qc) : bool :=
  match e with Some _ => true | None => false end.

(** [dropna(axis=0, how="any")]: the rows without a missing entry. *)
Definition complete_rows (n : nat) (sel : sparse) : list nat :=
  filter (fun r => forallb (fun kc => present (nth r (snd kc) None)) sel) (seq 0 n).

Definition dropna (n : nat) (sel : sparse) : sparse :=
  let keep := complete_rows n sel in
  map (fun kc => (fst kc, map (fun r => nth r (snd kc) None) keep)) sel.

(** [df[columns].dropna(axis=0, how="any") if drop else df[columns]] *)
Definition _column_selector (df : sparse) (columns : list string) (drop : bool)
  : result sparse :=
  let? sel := mapM (fun k => let? c := s_column df k in Ok (k, c)) columns in
  Ok (if drop then dropna (s_nrows df) sel else sel).

(** [df[dx].value_counts().loc[v]]: the number of entries equal to [v],
    a [KeyError] when there is none. *)
Definition count_value (v : Qc) (c : list (option Qc)) : nat :=
  length (filter (fun e => match e with
                           | Some q => Qc_eq_bool q v
                           | None => false
                           end) c).

Definition vc_loc (v : Qc) (c : list (option Qc)) : result nat :=
  let n := count_value v c in
  if n =? 0 then Raise KeyError else Ok n.

Section Loader.

Context {CO : Constants} {SO : SetOrder} {AS : Argsort}.

(** [sort_values(by="Pt")] *)
Definition sort_by_pt (rows : list prevalence) : list prevalence :=
  map (fun i => nth i rows {| p_dx := ""; p_hc := 0; p_pt := 0 |})
      (argsort (map (fun r => Qc_of_nat (p_pt r)) rows)).

Definition _get_prevalance (df : sparse) (diagnoses : list string)
  : result (list prevalence) :=
  let? tmp := mapM (fun dx =>
                      let? c := s_column df dx in
                      let? hc := vc_loc (Qc_of_Z 0) c in
                      let? pt := vc_loc (Qc_of_Z 1) c in
                      Ok {| p_dx := dx; p_hc := hc; p_pt := pt |}) diagnoses in
  match tmp with
  | [] => Raise KeyError
  | _ => Ok (sort_by_pt tmp)
  end.

(** [df_prev[df_prev["Pt"] < threshold].index] *)
Definition low_prevalence (threshold : Z) (df_prev : list prevalence) : list string :=
  map p_dx (filter (fun r => (Z.of_nat (p_pt r) <? threshold)%Z) df_prev).

(** [np.array(list(set(a) - set(b)))] *)
Definition set_minus (a b : list string) : list string :=
  list_of_set (filter (fun x => negb (mem x b)) a).

(** The [while low_N] loop; [None] when the fuel is used up. *)
Fixpoint prune (fuel : nat) (df_full : sparse) (threshold : Z)
         (Dx_labels_subset : list string)
  : option (result (sparse * list prevalence * list string)) :=
  match fuel with
  | 0 => None
  | S fuel' =>
      match (let? df := _column_selector df_full
                          (CBCLABCL_items ++ Dx_labels_subset) true in
             let? df_prev := _get_prevalance df Dx_labels_subset in
             Ok (df, df_prev)) with
      | Raise e => Some (Raise e)
      | Ok (df, df_prev) =>
          let low_N_df := low_prevalence threshold df_prev in
          if 0 <? length low_N_df
          then prune fuel' df_full threshold (set_minus Dx_labels_subset low_N_df)
          else Some (Ok (df, df_prev, Dx_labels_subset))
      end
  end.

(** What is known before the loop starts. *)
Definition first_subset (df_full : sparse) (threshold : Z) : result (list string) :=
  let? df := _column_selector df_full (CBCLABCL_items ++ Dx_labels_all) false in
  let? df_prev := _get_prevalance df Dx_labels_all in
  Ok (set_minus (map p_dx df_prev) (low_prevalence threshold df_prev)).

Variable read_parquet : string -> result sparse.

Definition load_data (infile : string) (threshold : Z) (verbose : bool)
  : option (result (sparse * list prevalence * list string)) * list line :=
  match (let? df_full := read_parquet infile in
         let? df_full := replace_labels df_full Dx_labels_all in
         let? subset := first_subset df_full threshold in
         Ok (df_full, subset)) with
  | Raise e => (Some (Raise e), [])
  | Ok (df_full, subset) =>
      match prune (S (length subset)) df_full threshold subset with
      | None => (None, [])
      | Some (Raise e) => (Some (Raise e), [])
      | Some (Ok (df, df_prev, Dx_labels_subset)) =>
          (Some (Ok (df, df_prev, Dx_labels_subset)),
           if verbose
           then [PrevalenceTable df_prev;
                 OriginalLength (s_nrows df_full);
                 PrunedLength (s_nrows df)]
           else [])
      end
  end.

End Loader.

End Load.

(** ** Properties of [load_data] *)

Section LoadFacts.

Context {CO : Load.Constants} {SO : Load.SetOrder} {AS : Np.Argsort}.

Import Load.

Lemma sort_by_pt_perm (rows : list prevalence) :
  Permutation (sort_by_pt rows) rows.
Proof.
  unfold sort_by_pt. apply take_perm.
  rewrite <- (length_map (fun r => Qc_of_nat (p_pt r)) rows).
  apply Np.argsort_spec.
Qed.

Lemma list_of_set_length (l : list string) :
  length (list_of_set l) <= length l.
Proof.
  rewrite (Permutation_length (list_of_set_members l)).
  apply NoDup_incl_length; [apply NoDup_nodup|].
  intros x Hx. now apply nodup_In in Hx.
Qed.

Lemma list_of_set_spec (l : list string) (x : string) :
  In x (list_of_set l) <-> In x l.
Proof.
  split; intros H.
  - apply (nodup_In string_dec).
    eapply Permutation_in; [apply list_of_set_members|exact H].
  - eapply Permutation_in; [symmetry; apply list_of_set_members|].
    now apply nodup_In.
Qed.

Lemma list_of_set_nodup (l : list string) : NoDup (list_of_set l).
Proof.
  eapply Permutation_NoDup; [symmetry; apply list_of_set_members|apply NoDup_nodup].
Qed.

Lemma set_minus_spec (a b : list string) (x : string) :
  In x (set_minus a b) <-> In x a /\ ~ In x b.
Proof.
  unfold set_minus. rewrite list_of_set_spec, filter_In, negb_true_iff, mem_false.
  reflexivity.
Qed.

Lemma filter_strict {A} (t : A -> bool) (l : list A) (x : A) :
  In x l -> t x = false -> length (filter t l) < length l.
Proof.
  induction l as [|a l IH]; intros Hin Hx; [contradiction|]. simpl.
  destruct Hin as [->|Hin].
  - rewrite Hx. pose proof (filter_length_le t l). lia.
  - specialize (IH Hin Hx). destruct (t a); simpl; lia.
Qed.

Lemma set_minus_shrinks (a b : list string) (x : string) :
  In x a -> In x b -> length (set_minus a b) < length a.
Proof.
  intros Ha Hb. unfold set_minus.
  eapply Nat.le_lt_trans; [apply list_of_set_length|].
  apply (filter_strict _ a x Ha). apply negb_false_iff. now apply mem_In.
Qed.

(** What a prevalence table says about the frame it was computed on. *)
Definition counted (df : sparse) (r : prevalence) : Prop :=
  exists c, s_column df (p_dx r) = Ok c /\
            p_hc r = count_value (Qc_of_Z 0) c /\
            p_pt r = count_value (Qc_of_Z 1) c /\
            0 < p_hc r /\ 0 < p_pt r.

Lemma vc_loc_ok (v : Qc) (c : list (option Qc)) (n : nat) :
  vc_loc v c = Ok n -> n = count_value v c /\ 0 < n.
Proof.
  unfold vc_loc. destruct (Nat.eqb_spec (count_value v c) 0); [discriminate|].
  intros H. injection H as <-. split; [reflexivity|lia].
Qed.

Lemma get_prevalance_ok (df : sparse) (ds : list string) (prev : list prevalence) :
  _get_prevalance df ds = Ok prev ->
  Permutation (map p_dx prev) ds /\ ds <> [] /\ Forall (counted df) prev.
Proof.
  unfold _get_prevalance. intros H. apply bind_ok_inv in H.
  destruct H as (tmp & Htmp & H).
  apply mapM_ok_inv in Htmp.
  assert (Hdx : map p_dx tmp = ds /\ Forall (counted df) tmp).
  { clear H. induction Htmp as [|d r ds tmp Hr _ [IH1 IH2]]; [split; constructor|].
    apply bind_ok_inv in Hr. destruct Hr as (c & Hc & Hr).
    apply bind_ok_inv in Hr. destruct Hr as (hc & Hhc & Hr).
    apply bind_ok_inv in Hr. destruct Hr as (pt & Hpt & Hr).
    injection Hr as <-.
    apply vc_loc_ok in Hhc. apply vc_loc_ok in Hpt.
    split; [simpl; now rewrite IH1|].
    constructor; [|exact IH2]. exists c. simpl. intuition. }
  destruct Hdx as [Hdx Hall].
  destruct tmp as [|r0 tmp0] eqn:E; [discriminate|]. rewrite <- E in *.
  injection H as <-.
  pose proof (sort_by_pt_perm tmp) as P.
  split; [|split].
  - rewrite <- Hdx. now apply Permutation_map.
  - rewrite <- Hdx, E. discriminate.
  - eapply Permutation_Forall; [symmetry; exact P|exact Hall].
Qed.

Lemma low_prevalence_members (threshold : Z) (prev : list prevalence) (x : string) :
  In x (low_prevalence threshold prev) -> In x (map p_dx prev).
Proof.
  unfold low_prevalence. intros H. apply in_map_iff in H.
  destruct H as (r & <- & Hr). apply filter_In in Hr. apply in_map, Hr.
Qed.

Lemma low_prevalence_none (threshold : Z) (prev : list prevalence) :
  (0 <? length (low_prevalence threshold prev)) = false ->
  Forall (fun r => (threshold <= Z.of_nat (p_pt r))%Z) prev.
Proof.
  intros H. apply Nat.ltb_ge in H.
  assert (E : low_prevalence threshold prev = []).
  { destruct (low_prevalence threshold prev); [reflexivity|simpl in H; lia]. }
  unfold low_prevalence in E. apply map_eq_nil in E.
  apply Forall_forall. intros r Hr.
  destruct (Z.ltb_spec (Z.of_nat (p_pt r)) threshold) as [L|G]; [|exact G].
  exfalso.
  assert (Hin : In r (filter (fun r => (Z.of_nat (p_pt r) <? threshold)%Z) prev)).
  { apply filter_In. split; [exact Hr|]. now apply Z.ltb_lt. }
  rewrite E in Hin. contradiction.
Qed.

(** The loop ends before its fuel: every turn that goes on removes a
    diagnosis. *)
Lemma prune_ends (fuel : nat) (df_full : sparse) (threshold : Z)
      (subset : list string) :
  length subset < fuel -> prune fuel df_full threshold subset <> None.
Proof.
  revert subset; induction fuel as [|fuel IH]; intros subset Hlt; [lia|].
  cbn [prune].
  destruct (_column_selector df_full (CBCLABCL_items ++ subset) true)
    as [df|e]; [|discriminate]. cbn [Py.bind].
  destruct (_get_prevalance df subset) as [prev|e] eqn:Ep; [|discriminate].
  cbn [Py.bind].
  destruct (0 <? length (low_prevalence threshold prev)) eqn:El; [|discriminate].
  apply IH. apply Nat.ltb_lt in El.
  destruct (low_prevalence threshold prev) as [|x low] eqn:Elow; [simpl in El; lia|].
  assert (Hx : In x (low_prevalence threshold prev)) by (rewrite Elow; now left).
  apply get_prevalance_ok in Ep. destruct Ep as [P _].
  assert (Hin : In x subset).
  { eapply Permutation_in; [exact P|]. eapply low_prevalence_members. exact Hx. }
  rewrite <- Elow.
  pose proof (set_minus_shrinks subset (low_prevalence threshold prev) x Hin Hx).
  lia.
Qed.

End LoadFacts.

(** X12: [load_data] always comes to an end: whatever the file holds
    and whatever the threshold, the pruning loop stops, with the three
    results or with an exception, after at most one turn more than there
    are diagnoses left after the first pruning. *)
Theorem load_data_terminates
        {CO : Load.Constants} {SO : Load.SetOrder} {AS : Np.Argsort}
        (read_parquet : string -> result Load.sparse)
        (infile : string) (threshold : Z) (verbose : bool) :
  exists outcome, fst (Load.load_data read_parquet infile threshold verbose)
                  = Some outcome.
Proof.
  unfold Load.load_data.
  destruct (let? df_full := read_parquet infile in
            let? df_full := Load.replace_labels df_full Load.Dx_labels_all in
            let? subset := Load.first_subset df_full threshold in
            Ok (df_full, subset)) as [[df_full subset]|e]; [|simpl; eauto].
  pose proof (prune_ends (S (length subset)) df_full threshold subset
                         (Nat.lt_succ_diag_r _)) as H.
  destruct (Load.prune (S (length subset)) df_full threshold subset)
    as [[[[df prev] sub]|e]|]; [simpl; eauto|simpl; eauto|congruence].
Qed.

Section LoadResult.

Context {CO : Load.Constants} {SO : Load.SetOrder} {AS : Np.Argsort}.

Import Load.

Definition no_missing (df : sparse) : Prop :=
  Forall (fun kc => Forall (fun e => present e = true) (snd kc)) df.

Lemma select_labels (df : sparse) (cols : list string) (sel : sparse) :
  mapM (fun k => let? c := s_column df k in Ok (k, c)) cols = Ok sel ->
  map fst sel = cols.
Proof.
  intros H. apply mapM_ok_inv in H.
  induction H as [|k kc cols sel Hk _ IH]; [reflexivity|].
  apply bind_ok_inv in Hk. destruct Hk as (c & _ & Hk). injection Hk as <-.
  simpl. now rewrite IH.
Qed.

Lemma dropna_labels (n : nat) (sel : sparse) : map fst (dropna n sel) = map fst sel.
Proof. unfold dropna. rewrite map_map. reflexivity. Qed.

Lemma dropna_no_missing (n : nat) (sel : sparse) : no_missing (dropna n sel).
Proof.
  unfold no_missing, dropna. apply Forall_map, Forall_forall. intros kc Hkc.
  cbn [snd]. apply Forall_map, Forall_forall. intros r Hr.
  unfold complete_rows in Hr. apply filter_In in Hr. destruct Hr as [_ Hr].
  rewrite forallb_forall in Hr. now apply Hr.
Qed.

Lemma column_selector_drop (df : sparse) (cols : list string) (sel : sparse) :
  _column_selector df cols true = Ok sel ->
  map fst sel = cols /\ no_missing sel.
Proof.
  unfold _column_selector. intros H. apply bind_ok_inv in H.
  destruct H as (sel0 & Hs & H). injection H as <-.
  split; [|apply dropna_no_missing].
  rewrite dropna_labels. eapply select_labels. exact Hs.
Qed.

Definition loaded (threshold : Z) (df : sparse) (prev : list prevalence)
           (subset : list string) : Prop :=
  subset <> [] /\
  map fst df = CBCLABCL_items ++ subset /\
  no_missing df /\
  Permutation (map p_dx prev) subset /\
  Forall (fun r => counted df r /\ (threshold <= Z.of_nat (p_pt r))%Z) prev.

Lemma prune_result (fuel : nat) (df_full : sparse) (threshold : Z)
      (subset0 : list string) (df : sparse) (prev : list prevalence)
      (subset : list string) :
  prune fuel df_full threshold subset0 = Some (Ok (df, prev, subset)) ->
  loaded threshold df prev subset /\
  (subset = subset0 \/ (NoDup subset /\ incl subset subset0)).
Proof.
  revert subset0; induction fuel as [|fuel IH]; intros subset0 H; [discriminate|].
  cbn [prune] in H.
  destruct (_column_selector df_full (CBCLABCL_items ++ subset0) true)
    as [d|e] eqn:Es; [|discriminate]. cbn [Py.bind] in H.
  destruct (_get_prevalance d subset0) as [p|e] eqn:Ep; [|discriminate].
  cbn [Py.bind] in H.
  destruct (0 <? length (low_prevalence threshold p)) eqn:El.
  - destruct (IH _ H) as [Hl Hs]. split; [exact Hl|]. right.
    assert (Hm : NoDup (set_minus subset0 (low_prevalence threshold p)) /\
                 incl (set_minus subset0 (low_prevalence threshold p)) subset0).
    { split; [apply list_of_set_nodup|].
      intros x Hx. now apply set_minus_spec in Hx. }
    destruct Hs as [->|[Hn Hi]]; [exact Hm|].
    split; [exact Hn|]. eapply incl_tran; [exact Hi|apply Hm].
  - injection H as <- <- <-. split; [|now left].
    apply column_selector_drop in Es. destruct Es as [E1 E2].
    apply low_prevalence_none in El.
    apply get_prevalance_ok in Ep. destruct Ep as (P & Hne & Hc).
    repeat split; try assumption.
    apply Forall_forall. intros r Hr. rewrite Forall_forall in Hc, El. auto.
Qed.

Lemma first_subset_ok (df_full : sparse) (threshold : Z) (subset : list string) :
  first_subset df_full threshold = Ok subset ->
  NoDup subset /\ incl subset Dx_labels_all.
Proof.
  unfold first_subset. intros H.
  apply bind_ok_inv in H. destruct H as (d & _ & H).
  apply bind_ok_inv in H. destruct H as (p & Hp & H). injection H as <-.
  apply get_prevalance_ok in Hp. destruct Hp as (P & _ & _).
  split; [apply list_of_set_nodup|].
  intros x Hx. apply set_minus_spec in Hx. destruct Hx as [Hx _].
  eapply Permutation_in; [exact P|exact Hx].
Qed.

End LoadResult.

(** X13: when [load_data] returns, the diagnosis list it returns is
    not empty, has no repetition and holds only known diagnoses; the
    returned frame has exactly the survey items followed by these
    diagnoses as columns and no missing entry; and the prevalence table
    lists exactly these diagnoses, each with the numbers of 0s and of 1s
    of its column in the returned frame, at least one 0 and at least
    [threshold] (and at least one) 1s. *)
Theorem load_data_result
        {CO : Load.Constants} {SO : Load.SetOrder} {AS : Np.Argsort}
        (read_parquet : string -> result Load.sparse)
        (infile : string) (threshold : Z) (verbose : bool)
        (df : Load.sparse) (prev : list Load.prevalence) (subset : list string) :
  fst (Load.load_data read_parquet infile threshold verbose)
  = Some (Ok (df, prev, subset)) ->
  loaded threshold df prev subset /\
  NoDup subset /\ incl subset Load.Dx_labels_all.
Proof.
  unfold Load.load_data. intros H.
  destruct (read_parquet infile) as [raw|e]; [|discriminate]. cbn [Py.bind] in H.
  destruct (Load.replace_labels raw Load.Dx_labels_all) as [df_full|e];
    [|discriminate]. cbn [Py.bind] in H.
  destruct (Load.first_subset df_full threshold) as [subset0|e] eqn:E0;
    [|discriminate]. cbn [Py.bind] in H.
  destruct (Load.prune (S (length subset0)) df_full threshold subset0)
    as [[[[d p] s]|e]|] eqn:Ep; try discriminate.
  injection H as <- <- <-.
  destruct (prune_result _ _ _ _ _ _ _ Ep) as [Hl Hs].
  destruct (first_subset_ok _ _ _ E0) as [Hn Hi].
  split; [exact Hl|].
  destruct Hs as [->|[Hn' Hi']]; [auto|].
  split; [exact Hn'|]. eapply incl_tran; eassumption.
Qed.

Section LoadErrors.

Context {CO : Load.Constants} {SO : Load.SetOrder} {AS : Np.Argsort}.

Import Load.

Lemma s_column_error (df : sparse) (k : string) (e : exn) :
  s_column df k = Raise e -> e = KeyError.
Proof.
  induction df as [|[k' c] df IH]; simpl; [congruence|].
  destruct (String.eqb k k'); [discriminate|exact IH].
Qed.

Lemma mapM_error {A B} (f : A -> result B) (l : list A) (E e : exn) :
  (forall x e, f x = Raise e -> e = E) -> mapM f l = Raise e -> e = E.
Proof.
  intros Hf. induction l as [|x l IH]; simpl; [discriminate|].
  destruct (f x) as [b|e0] eqn:Ex; simpl.
  - destruct (mapM f l) as [bs|e1]; simpl; [discriminate|].
    intros H. injection H as <-. now apply IH.
  - intros H. injection H as <-. eapply Hf. exact Ex.
Qed.

Lemma mapM_raises {A B} (f : A -> result B) (l : list A) (x : A) (E : exn) :
  (forall x e, f x = Raise e -> e = E) -> In x l -> f x = Raise E ->
  mapM f l = Raise E.
Proof.
  intros Hf Hin Hx. destruct (mapM_raise f l x E Hin Hx) as [e He].
  rewrite He. f_equal. eapply mapM_error; eassumption.
Qed.

Lemma vc_loc_error (v : Qc) (c : list (option Qc)) (e : exn) :
  vc_loc v c = Raise e -> e = KeyError.
Proof. unfold vc_loc. destruct (count_value v c =? 0); congruence. Qed.

Lemma vc_loc_none (v : Qc) (c : list (option Qc)) :
  count_value v c = 0 -> vc_loc v c = Raise KeyError.
Proof. unfold vc_loc. now intros ->. Qed.

Lemma select_error (df : sparse) (k : string) (e : exn) :
  (let? c := s_column df k in Ok (k, c)) = Raise e -> e = KeyError.
Proof.
  destruct (s_column df k) eqn:E; simpl; [discriminate|].
  intros H. injection H as <-. eapply s_column_error. exact E.
Qed.

Lemma column_selector_error (df : sparse) (cols : list string) (drop : bool)
      (e : exn) :
  _column_selector df cols drop = Raise e -> e = KeyError.
Proof.
  unfold _column_selector.
  destruct (mapM _ cols) as [sel|e0] eqn:E; simpl; [discriminate|].
  intros H. injection H as <-.
  eapply mapM_error; [|exact E]. intros x e. apply select_error.
Qed.

Definition prevalence_row (df : sparse) (dx : string) : result prevalence :=
  let? c := s_column df dx in
  let? hc := vc_loc (Qc_of_Z 0) c in
  let? pt := vc_loc (Qc_of_Z 1) c in
  Ok {| p_dx := dx; p_hc := hc; p_pt := pt |}.

Lemma prevalence_row_error (df : sparse) (dx : string) (e : exn) :
  prevalence_row df dx = Raise e -> e = KeyError.
Proof.
  unfold prevalence_row.
  destruct (s_column df dx) as [c|e0] eqn:Ec; simpl.
  - destruct (vc_loc (Qc_of_Z 0) c) as [hc|e1] eqn:E0; simpl.
    + destruct (vc_loc (Qc_of_Z 1) c) as [pt|e2] eqn:E1; simpl; [discriminate|].
      intros H. injection H as <-. eapply vc_loc_error. exact E1.
    + intros H. injection H as <-. eapply vc_loc_error. exact E0.
  - intros H. injection H as <-. eapply s_column_error. exact Ec.
Qed.

Lemma get_prevalance_error (df : sparse) (ds : list string) (e : exn) :
  _get_prevalance df ds = Raise e -> e = KeyError.
Proof.
  unfold _get_prevalance. fold (prevalence_row df).
  destruct (mapM (prevalence_row df) ds) as [tmp|e0] eqn:E; simpl.
  - destruct tmp; [congruence|discriminate].
  - intros H. injection H as <-.
    eapply mapM_error; [|exact E]. intros x e. apply prevalence_row_error.
Qed.

Lemma get_prevalance_raises (df : sparse) (ds : list string) (d : string)
      (c : list (option Qc)) :
  In d ds -> s_column df d = Ok c ->
  count_value (Qc_of_Z 0) c = 0 \/ count_value (Qc_of_Z 1) c = 0 ->
  _get_prevalance df ds = Raise KeyError.
Proof.
  intros Hin Hc Hz. unfold _get_prevalance. fold (prevalence_row df).
  rewrite (mapM_raises (prevalence_row df) ds d KeyError); [reflexivity| |exact Hin|].
  - intros x e. apply prevalence_row_error.
  - unfold prevalence_row. rewrite Hc. simpl.
    destruct Hz as [Hz|Hz].
    + now rewrite (vc_loc_none _ _ Hz).
    + destruct (vc_loc (Qc_of_Z 0) c) as [hc|e] eqn:E0; simpl.
      * now rewrite (vc_loc_none _ _ Hz).
      * f_equal. eapply vc_loc_error. exact E0.
Qed.

Lemma replace_labels_error (df : sparse) (labels : list string) (e : exn) :
  replace_labels df labels = Raise e -> e = KeyError.
Proof.
  unfold replace_labels.
  destruct (mapM (s_column df) labels) as [cs|e0] eqn:E; simpl; [discriminate|].
  intros H. injection H as <-.
  eapply mapM_error; [|exact E]. intros x e. apply s_column_error.
Qed.

Lemma first_subset_error (df_full : sparse) (threshold : Z) (e : exn) :
  first_subset df_full threshold = Raise e -> e = KeyError.
Proof.
  unfold first_subset.
  destruct (_column_selector df_full (CBCLABCL_items ++ Dx_labels_all) false)
    as [d|e0] eqn:Es; simpl.
  - destruct (_get_prevalance d Dx_labels_all) as [p|e1] eqn:Ep; simpl;
      [discriminate|].
    intros H. injection H as <-. eapply get_prevalance_error. exact Ep.
  - intros H. injection H as <-. eapply column_selector_error. exact Es.
Qed.

Lemma prune_error (fuel : nat) (df_full : sparse) (threshold : Z)
      (subset : list string) (e : exn) :
  prune fuel df_full threshold subset = Some (Raise e) -> e = KeyError.
Proof.
  revert subset; induction fuel as [|fuel IH]; intros subset; [discriminate|].
  cbn [prune].
  destruct (_column_selector df_full (CBCLABCL_items ++ subset) true)
    as [d|e0] eqn:Es; cbn [Py.bind].
  - destruct (_get_prevalance d subset) as [p|e1] eqn:Ep; cbn [Py.bind].
    + destruct (0 <? length (low_prevalence threshold p)); [apply IH|discriminate].
    + intros H. injection H as <-. eapply get_prevalance_error. exact Ep.
  - intros H. injection H as <-. eapply column_selector_error. exact Es.
Qed.

(** The column of a selection is the column of the frame. *)
Lemma selected_column (df : sparse) (cols : list string) (sel : sparse)
      (d : string) :
  mapM (fun k => let? c := s_column df k in Ok (k, c)) cols = Ok sel ->
  In d cols -> s_column sel d = s_column df d.
Proof.
  intros H. apply mapM_ok_inv in H.
  induction H as [|k kc cols sel Hk _ IH]; intros Hin; [contradiction|].
  apply bind_ok_inv in Hk. destruct Hk as (c & Hc & Hk). injection Hk as <-.
  simpl. destruct (String.eqb_spec d k) as [->|Hne]; [now rewrite Hc|].
  destruct Hin as [->|Hin]; [congruence|]. now apply IH.
Qed.

Lemma replaced_column (raw : sparse) (labels : list string) (d : string) :
  s_column (map (fun kc => if Pd.mem (fst kc) labels
                           then (fst kc, map relabel (snd kc)) else kc) raw) d
  = match s_column raw d with
    | Ok c => Ok (if Pd.mem d labels then map relabel c else c)
    | Raise e => Raise e
    end.
Proof.
  induction raw as [|[k c] raw IH]; [reflexivity|].
  cbn [map fst snd]. destruct (Pd.mem k labels) eqn:Em; cbn [s_column].
  - destruct (String.eqb_spec d k) as [->|Hne]; [now rewrite Em|exact IH].
  - destruct (String.eqb_spec d k) as [->|Hne]; [now rewrite Em|exact IH].
Qed.

Lemma count_relabel_zero (c : list (option Qc)) :
  count_value (Qc_of_Z 0) (map relabel c) = count_value (Qc_of_Z 0) c.
Proof.
  unfold count_value. induction c as [|[v|] c IH]; [reflexivity| |exact IH].
  cbn [map relabel].
  destruct (Qc_eq_bool v (Qc_of_Z 2)) eqn:E2.
  - apply Qc_eq_bool_correct in E2. subst v. cbn [filter]. exact IH.
  - destruct (Qc_eq_bool v (Qc_of_Z 0)) eqn:E0.
    + cbn [filter]. rewrite E0.
      replace (Qc_eq_bool (Qc_of_Z 0) (Qc_of_Z 0)) with true by reflexivity.
      cbn [length]. now rewrite IH.
    + cbn [filter]. rewrite E0. exact IH.
Qed.

Lemma count_relabel_one (c : list (option Qc)) :
  count_value (Qc_of_Z 1) (map relabel c)
  = count_value (Qc_of_Z 1) c + count_value (Qc_of_Z 2) c.
Proof.
  unfold count_value. induction c as [|[v|] c IH]; [reflexivity| |exact IH].
  cbn [map relabel].
  destruct (Qc_eq_bool v (Qc_of_Z 2)) eqn:E2.
  - pose proof E2 as E2'. apply Qc_eq_bool_correct in E2'. subst v.
    cbn [filter].
    replace (Qc_eq_bool (Qc_of_Z 1) (Qc_of_Z 1)) with true by reflexivity.
    replace (Qc_eq_bool (Qc_of_Z 2) (Qc_of_Z 1)) with false by reflexivity.
    rewrite E2. cbn [length]. rewrite IH. lia.
  - destruct (Qc_eq_bool v (Qc_of_Z 0)) eqn:E0.
    + apply Qc_eq_bool_correct in E0. subst v. cbn [filter].
      replace (Qc_eq_bool (Qc_of_Z 0) (Qc_of_Z 1)) with false by reflexivity.
      replace (Qc_eq_bool (Qc_of_Z 0) (Qc_of_Z 2)) with false by reflexivity.
      exact IH.
    + cbn [filter]. rewrite E2.
      destruct (Qc_eq_bool v (Qc_of_Z 1)); cbn [length]; rewrite IH; lia.
Qed.

(** Dropping rows does not raise a count. *)
Lemma count_kept_rows (v : Qc) (c : list (option Qc)) (g : nat -> bool) (n : nat) :
  count_value v (map (fun r => nth r c None) (filter g (seq 0 n)))
  <= count_value v c.
Proof.
  revert g n; induction c as [|a c IH]; intros g n.
  - unfold count_value. induction (filter g (seq 0 n)) as [|r l IHl]; [simpl; lia|].
    cbn [map]. destruct r; exact IHl.
  - destruct n as [|n]; [unfold count_value; simpl; lia|].
    cbn [seq]. rewrite <- seq_shift.
    assert (Hs : forall l, map (fun r => nth r (a :: c) None) (filter g (map S l))
                           = map (fun r => nth r c None)
                                 (filter (fun r => g (S r)) l)).
    { induction l as [|x l IHl]; [reflexivity|]. cbn [map filter].
      destruct (g (S x)); cbn [map]; now rewrite IHl. }
    specialize (IH (fun r => g (S r)) n).
    cbn [filter]. destruct (g 0).
    + cbn [map]. rewrite Hs. unfold count_value in *.
      change (nth 0 (a :: c) None) with a. cbn [filter].
      destruct a as [q|]; [destruct (Qc_eq_bool q v)|]; cbn [length]; lia.
    + rewrite Hs. unfold count_value in *. cbn [filter].
      destruct a as [q|]; [destruct (Qc_eq_bool q v)|]; cbn [length]; lia.
Qed.

Lemma dropna_column (n : nat) (sel : sparse) (d : string) (c : list (option Qc)) :
  s_column (dropna n sel) d = Ok c ->
  exists c1, s_column sel d = Ok c1 /\
             forall v, count_value v c <= count_value v c1.
Proof.
  assert (G : forall (keep : list nat) (l : sparse) c,
             s_column (map (fun kc => (fst kc, map (fun r => nth r (snd kc) None) keep)) l) d
             = Ok c ->
             exists c1, s_column l d = Ok c1 /\
                        c = map (fun r => nth r c1 None) keep).
  { intros keep l. induction l as [|[k c1] l IH]; intros c0; [discriminate|].
    cbn [map fst snd s_column].
    destruct (String.eqb d k); [|apply IH].
    intros H. injection H as <-. eauto. }
  intros H. unfold dropna in H.
  destruct (G _ _ _ H) as (c1 & Hc1 & ->).
  exists c1. split; [exact Hc1|]. intros v. apply count_kept_rows.
Qed.

Lemma prune_columns (fuel : nat) (df_full : sparse) (threshold : Z)
      (subset0 : list string) (df : sparse) (prev : list prevalence)
      (subset : list string) (d : string) (c : list (option Qc)) :
  prune fuel df_full threshold subset0 = Some (Ok (df, prev, subset)) ->
  In d subset -> s_column df d = Ok c ->
  exists c0, s_column df_full d = Ok c0 /\
             forall v, count_value v c <= count_value v c0.
Proof.
  revert subset0; induction fuel as [|fuel IH]; intros subset0 H; [discriminate|].
  cbn [prune] in H.
  destruct (_column_selector df_full (CBCLABCL_items ++ subset0) true)
    as [d0|e] eqn:Es; [|discriminate]. cbn [Py.bind] in H.
  destruct (_get_prevalance d0 subset0) as [p|e] eqn:Ep; [|discriminate].
  cbn [Py.bind] in H.
  destruct (0 <? length (low_prevalence threshold p)); [exact (IH _ H)|].
  injection H as <- <- <-. intros Hin Hc.
  unfold _column_selector in Es. apply bind_ok_inv in Es.
  destruct Es as (sel & Hsel & Es). injection Es as <-.
  apply dropna_column in Hc. destruct Hc as (c1 & Hc1 & Hle).
  exists c1. split; [|exact Hle].
  rewrite <- Hc1. symmetry. eapply selected_column; [exact Hsel|].
  apply in_or_app. now right.
Qed.

End LoadErrors.

(** A small file for the examples: two survey items, two diagnoses, six
    children; the fourth left item [a] unanswered. *)
Lemma small_labels_once : NoDup (["a"; "b"]%string ++ ["dx1"; "dx2"]%string).
Proof. repeat constructor; simpl; intuition discriminate. Qed.

Definition small_constants : Load.Constants :=
  {| Load.CBCLABCL_items := ["a"; "b"]%string;
     Load.Dx_labels_all := ["dx1"; "dx2"]%string;
     Load.labels_once := small_labels_once |}.

Definition first_seen_sets : Load.SetOrder :=
  {| Load.list_of_set := nodup string_dec;
     Load.list_of_set_members := fun l => Permutation_refl _ |}.

Definition answers (l : list Z) : list (option Qc) :=
  map (fun z => Some (Qc_of_Z z)) l.

Definition small_file : Load.sparse :=
  [ ("a", [Some (Qc_of_Z 1); Some (Qc_of_Z 0); Some (Qc_of_Z 1); None;
           Some (Qc_of_Z 1); Some (Qc_of_Z 0)]);
    ("b", answers [0; 0; 1; 1; 1; 1]%Z);
    ("dx1", answers [0; 2; 0; 2; 2; 0]%Z);
    ("dx2", answers [0; 0; 2; 0; 0; 0]%Z) ]%string.

(** The same children, none of them with the second diagnosis. *)
Definition file_without_cases : Load.sparse :=
  [ ("a", answers [1; 0; 1; 1; 1; 0]%Z);
    ("b", answers [0; 0; 1; 1; 1; 1]%Z);
    ("dx1", answers [0; 2; 0; 2; 2; 0]%Z);
    ("dx2", answers [0; 0; 0; 0; 0; 0]%Z) ]%string.

Lemma load_data_result_witness :
  exists df prev subset,
    fst (@Load.load_data small_constants first_seen_sets stable_argsort
           (fun _ => Ok small_file) "survey.parquet" 2%Z true)
    = Some (Ok (df, prev, subset)) /\
    @loaded small_constants 2%Z df prev subset /\
    NoDup subset /\ incl subset ["dx1"; "dx2"]%string.
Proof.
  destruct (fst (@Load.load_data small_constants first_seen_sets stable_argsort
                   (fun _ => Ok small_file) "survey.parquet" 2%Z true))
    as [[[[df prev] subset]|e]|] eqn:E;
    [|vm_compute in E; discriminate E|vm_compute in E; discriminate E].
  exists df, prev, subset. split; [reflexivity|].
  exact (@load_data_result small_constants first_seen_sets stable_argsort
           (fun _ => Ok small_file) "survey.parquet"%string 2%Z true
           df prev subset E).
Defined.

(** X14: a diagnosis whose column in the file holds no 0, or holds
    neither a 1 nor a 2, is not pruned as a rare one: [load_data] raises
    [KeyError], whatever the threshold. *)
Theorem load_data_diagnosis_without_cases
        {CO : Load.Constants} {SO : Load.SetOrder} {AS : Np.Argsort}
        (read_parquet : string -> result Load.sparse)
        (infile : string) (threshold : Z) (verbose : bool)
        (raw : Load.sparse) (d : string) (c : list (option Qc)) :
  read_parquet infile = Ok raw ->
  In d Load.Dx_labels_all ->
  Load.s_column raw d = Ok c ->
  Load.count_value (Qc_of_Z 0) c = 0 \/
  (Load.count_value (Qc_of_Z 1) c = 0 /\ Load.count_value (Qc_of_Z 2) c = 0) ->
  fst (Load.load_data read_parquet infile threshold verbose)
  = Some (Raise KeyError).
Proof.
  intros Hread Hin Hc Hz. unfold Load.load_data. rewrite Hread. cbn [Py.bind].
  destruct (Load.replace_labels raw Load.Dx_labels_all) as [df_full|e] eqn:Er;
    cbn [Py.bind];
    [|apply replace_labels_error in Er; now subst e].
  assert (Ef : Load.first_subset df_full threshold = Raise KeyError).
  { unfold Load.first_subset.
    destruct (Load._column_selector df_full
                (Load.CBCLABCL_items ++ Load.Dx_labels_all) false)
      as [sel|e] eqn:Es; cbn [Py.bind];
      [|apply column_selector_error in Es; now subst e].
    rewrite (get_prevalance_raises sel Load.Dx_labels_all d (map Load.relabel c));
      [reflexivity|exact Hin| |].
    - unfold Load._column_selector in Es. apply bind_ok_inv in Es.
      destruct Es as (sel0 & Hsel & Es). injection Es as <-.
      rewrite (selected_column _ _ _ d Hsel) by (apply in_or_app; now right).
      unfold Load.replace_labels in Er. apply bind_ok_inv in Er.
      destruct Er as (cs & _ & Er). injection Er as <-.
      rewrite replaced_column, Hc.
      now rewrite (proj2 (mem_In d Load.Dx_labels_all) Hin).
    - rewrite count_relabel_zero, count_relabel_one. lia. }
  rewrite Ef. reflexivity.
Qed.

Lemma load_data_diagnosis_without_cases_witness :
  fst (@Load.load_data small_constants first_seen_sets stable_argsort
         (fun _ => Ok file_without_cases) "survey.parquet" 0%Z false)
  = Some (Raise KeyError).
Proof.
  apply (@load_data_diagnosis_without_cases
           small_constants first_seen_sets stable_argsort
           (fun _ => Ok file_without_cases) "survey.parquet"%string 0%Z false
           file_without_cases "dx2"%string (answers [0; 0; 0; 0; 0; 0]%Z)).
  - reflexivity.
  - simpl. auto.
  - reflexivity.
  - right. split; reflexivity.
Defined.

(** X15: when no diagnosis has as many positive entries (1 or 2) in
    the file as the threshold asks for, [load_data] does not return an
    empty selection: it raises [KeyError]. *)
Theorem load_data_threshold_too_high
        {CO : Load.Constants} {SO : Load.SetOrder} {AS : Np.Argsort}
        (read_parquet : string -> result Load.sparse)
        (infile : string) (threshold : Z) (verbose : bool)
        (raw : Load.sparse) :
  read_parquet infile = Ok raw ->
  (forall d c, In d Load.Dx_labels_all -> Load.s_column raw d = Ok c ->
               (Z.of_nat (Load.count_value (Qc_of_Z 1) c
                          + Load.count_value (Qc_of_Z 2) c) < threshold)%Z) ->
  fst (Load.load_data read_parquet infile threshold verbose)
  = Some (Raise KeyError).
Proof.
  intros Hread Hlow. unfold Load.load_data. rewrite Hread. cbn [Py.bind].
  destruct (Load.replace_labels raw Load.Dx_labels_all) as [df_full|e] eqn:Er;
    cbn [Py.bind];
    [|apply replace_labels_error in Er; now subst e].
  destruct (Load.first_subset df_full threshold) as [subset0|e] eqn:E0;
    cbn [Py.bind];
    [|apply first_subset_error in E0; now subst e].
  destruct (Load.prune (S (length subset0)) df_full threshold subset0)
    as [[[[df prev] subset]|e]|] eqn:Ep.
  - exfalso.
    destruct (prune_result _ _ _ _ _ _ _ Ep) as [(Hne & _ & _ & P & Hall) Hs].
    destruct (first_subset_ok _ _ _ E0) as [_ Hi0].
    assert (Hi : incl subset Load.Dx_labels_all).
    { destruct Hs as [->|[_ Hi]]; [exact Hi0|].
      eapply incl_tran; eassumption. }
    destruct subset as [|d subset'] eqn:Esub; [now apply Hne|]. rewrite <- Esub in *.
    assert (Hd : In d subset) by (rewrite Esub; now left).
    assert (Hr : In d (map Load.p_dx prev)).
    { eapply Permutation_in; [symmetry; exact P|exact Hd]. }
    apply in_map_iff in Hr. destruct Hr as (r & Hrd & Hr).
    rewrite Forall_forall in Hall. destruct (Hall r Hr) as [Hcount Hth].
    destruct Hcount as (c & Hc & _ & Hpt & _). rewrite Hrd in Hc.
    destruct (prune_columns _ _ _ _ _ _ _ d c Ep Hd Hc) as (c0 & Hc0 & Hle).
    unfold Load.replace_labels in Er. apply bind_ok_inv in Er.
    destruct Er as (cs & _ & Er). injection Er as <-.
    rewrite replaced_column in Hc0.
    destruct (Load.s_column raw d) as [craw|e] eqn:Eraw; [|discriminate].
    rewrite (proj2 (mem_In d Load.Dx_labels_all) (Hi d Hd)) in Hc0.
    injection Hc0 as <-.
    specialize (Hlow d craw (Hi d Hd) Eraw).
    specialize (Hle (Qc_of_Z 1)). rewrite count_relabel_one in Hle. lia.
  - apply prune_error in Ep. now subst e.
  - exfalso. revert Ep. apply prune_ends. lia.
Qed.

Lemma load_data_threshold_too_high_witness :
  fst (@Load.load_data small_constants first_seen_sets stable_argsort
         (fun _ => Ok small_file) "survey.parquet" 10%Z true)
  = Some (Raise KeyError).
Proof.
  apply (@load_data_threshold_too_high
           small_constants first_seen_sets stable_argsort
           (fun _ => Ok small_file) "survey.parquet"%string 10%Z true small_file).
  - reflexivity.
  - intros d c Hin Hc. simpl in Hin.
    destruct Hin as [<-|[<-|[]]]; vm_compute in Hc; injection Hc as <-;
      vm_compute; reflexivity.
Defined.
